(** * Docker Model Runner router: a shallow embedding

    The router [backend/open_webui/routers/docker_model_runner.py] fans a
    request out to a list of runner endpoints, merges their model listings
    into one catalog, picks a runner for a chat request and proxies it.

    The embedding follows the Python source function by function.  JSON
    objects whose members the router reads or writes are records with one
    field per member; dictionaries used as maps are [gmap]s; the
    insertion-ordered dictionary of [merge_models_lists] is an association
    list.  Network calls, the random generator and the collaborators that
    live outside the router are read from an environment, and every call
    that leaves the process is appended to a log. *)

From stdpp Require Import gmap strings list fin_maps pretty sorting.
From Stdlib Require Import ZArith Lia Ascii.

Local Open Scope string_scope.
Local Open Scope list_scope.

(** ** Model entries *)

(** The [expires_at] member: the runner sends an ISO-8601 string, the
    catalog refresh replaces it with epoch seconds. *)
Inductive expiry := ExpIso (s : string) | ExpEpoch (t : Z).

(** One entry of a runner's [models] array.  The entry has a [model]
    member, a string or [null]: [model] is [None] when
    [model.get("model")] is [None].  [urls] is the list
    [model.get("urls", [])], [tags] the list [model.get("tags", [])];
    members the router never looks at are kept in [details]. *)
Record Model := mkModel {
  model : option string;
  urls : list nat;
  tags : list string;
  connection_type : option string;
  expires_at : option expiry;
  details : list (string * string)
}.

Global Instance expiry_eq_dec : EqDecision expiry.
Proof. solve_decision. Defined.
Global Instance Model_eq_dec : EqDecision Model.
Proof. solve_decision. Defined.

(** [model["urls"] = l] *)
Definition set_urls (l : list nat) (m : Model) : Model :=
  {| model := model m; urls := l; tags := tags m;
     connection_type := connection_type m; expires_at := expires_at m;
     details := details m |}.

(** [model["urls"].append(idx)] *)
Definition append_url (idx : nat) (m : Model) : Model :=
  set_urls (urls m ++ [idx]) m.

(** [model["model"] = s] *)
Definition set_model (s : string) (m : Model) : Model :=
  {| model := Some s; urls := urls m; tags := tags m;
     connection_type := connection_type m; expires_at := expires_at m;
     details := details m |}.

(** [model["tags"] = t] *)
Definition set_tags (t : list string) (m : Model) : Model :=
  {| model := model m; urls := urls m; tags := t;
     connection_type := connection_type m; expires_at := expires_at m;
     details := details m |}.

(** [model["connection_type"] = c] *)
Definition set_connection_type (c : string) (m : Model) : Model :=
  {| model := model m; urls := urls m; tags := tags m;
     connection_type := Some c; expires_at := expires_at m;
     details := details m |}.

(** [model["expires_at"] = t] *)
Definition set_expires_at (t : Z) (m : Model) : Model :=
  {| model := model m; urls := urls m; tags := tags m;
     connection_type := connection_type m; expires_at := Some (ExpEpoch t);
     details := details m |}.

(** ** The insertion-ordered dictionary [merged_models] *)

Module OD.
Definition t := list (string * Model).

(** [id in d] *)
Definition mem (id : string) (d : t) : bool := bool_decide (id ∈ d.*1).

(** [d[id]] *)
Fixpoint lookup (id : string) (d : t) : option Model :=
  match d with
  | [] => None
  | (k, v) :: d' => if decide (k = id) then Some v else lookup id d'
  end.

(** [d[id] = f(d[id])] for a key that is present: the entry keeps its
    place. *)
Fixpoint alter (f : Model → Model) (id : string) (d : t) : t :=
  match d with
  | [] => []
  | (k, v) :: d' =>
      if decide (k = id) then (k, f v) :: d' else (k, v) :: alter f id d'
  end.

(** [d[id] = v] for a key that is absent: the entry goes last. *)
Definition add (id : string) (v : Model) (d : t) : t := d ++ [(id, v)].

(** [list(d.values())] *)
Definition values (d : t) : list Model := d.*2.
End OD.

(** ** [merge_models_lists] *)

(** The body of the inner loop, for one [model] of the list at [idx]. *)
Definition merge_model (idx : nat) (merged_models : OD.t) (m : Model) : OD.t :=
  match model m with
  | None => merged_models
  | Some id =>
      if OD.mem id merged_models
      then OD.alter (append_url idx) id merged_models
      else OD.add id (set_urls [idx] m) merged_models
  end.

(** The body of the outer loop, for one [(idx, model_list)]. *)
Definition merge_model_list (merged_models : OD.t)
    (e : nat * option (list Model)) : OD.t :=
  match e.2 with
  | None => merged_models
  | Some model_list => foldl (merge_model e.1) merged_models model_list
  end.

Definition merge_models_lists (model_lists : list (option (list Model)))
    : list Model :=
  OD.values (foldl merge_model_list [] (imap pair model_lists)).

(** *** What the merge is said to compute *)

(** Every [(idx, model)] pair in enumeration order. *)
Definition exposures (model_lists : list (option (list Model)))
    : list (nat * Model) :=
  mjoin (imap (λ idx ol, pair idx <$> default [] ol) model_lists).

Definition exposes (id : string) (e : nat * Model) : bool :=
  bool_decide (model e.2 = Some id).

(** The backends that expose [id], in enumeration order. *)
Definition exposers (id : string) (es : list (nat * Model)) : list nat :=
  (filter (λ e, exposes id e = true) es).*1.

(** The first entry named [id]. *)
Definition first_exposure (id : string) (es : list (nat * Model))
    : option (nat * Model) :=
  head (filter (λ e, exposes id e = true) es).

(** ** Python strings *)

Module Py.
(** [sub in s] *)
Fixpoint contains (sub s : string) : bool :=
  String.prefix sub s ||
  match s with
  | EmptyString => false
  | String _ s' => contains sub s'
  end.

(** [bool(s)] *)
Definition truthy (s : string) : bool := negb (bool_decide (s = "")).

(** [bool(o)] for an optional string: [None] and [""] are false. *)
Definition truthy_opt (o : option string) : bool :=
  match o with Some s => truthy s | None => false end.

(** [str(x)] for a member that holds a string or [None]. *)
Definition str_opt (o : option string) : string := default "None" o.

(** [str(n)] for an integer *)
Definition str (n : Z) : string := pretty n.

(** The scan of [s.replace(old, new)] for a non-empty [old]: [skip]
    counts the characters of a match still to be passed over. *)
Fixpoint replace_go (old new : string) (skip : nat) (s : string) : string :=
  match s with
  | EmptyString => EmptyString
  | String c s' =>
      match skip with
      | S k => replace_go old new k s'
      | O =>
          if String.prefix old s
          then new +:+ replace_go old new (String.length old - 1) s'
          else String c (replace_go old new 0 s')
      end
  end.

(** [s.replace("", new)] puts [new] before every character and at the
    end. *)
Fixpoint intersperse (new s : string) : string :=
  match s with
  | EmptyString => new
  | String c s' => new +:+ String c (intersperse new s')
  end.

(** [s.replace(old, new)] *)
Definition replace (old new s : string) : string :=
  if bool_decide (old = "") then intersperse new s
  else replace_go old new 0 s.

(** [s.split(sep)] for a one-character separator *)
Fixpoint split (sep : ascii) (s : string) : list string :=
  match s with
  | EmptyString => [EmptyString]
  | String c s' =>
      if bool_decide (c = sep) then EmptyString :: split sep s'
      else match split sep s' with
           | h :: t => String c h :: t
           | [] => [String c EmptyString]
           end
  end.

(** Whitespace that [int] strips, in the ASCII range. *)
Definition is_space (c : ascii) : bool :=
  let n := nat_of_ascii c in
  ((9 <=? n) && (n <=? 13) || (28 <=? n) && (n <=? 32))%nat.

Definition digit (c : ascii) : option Z :=
  let n := nat_of_ascii c in
  if ((48 <=? n) && (n <=? 57))%nat then Some (Z.of_nat (n - 48)) else None.

Fixpoint lstrip (s : string) : string :=
  match s with
  | String c s' => if is_space c then lstrip s' else s
  | EmptyString => EmptyString
  end.

(** [rstrip] returns [None] for a string of whitespace only, so that
    the recursion can tell where the trailing blanks start. *)
Fixpoint rstrip_go (s : string) : option string :=
  match s with
  | EmptyString => None
  | String c s' =>
      match rstrip_go s' with
      | Some r => Some (String c r)
      | None => if is_space c then None else Some (String c EmptyString)
      end
  end.
Definition strip (s : string) : string := default "" (rstrip_go (lstrip s)).

(** Decimal digits with single underscores between them. *)
Fixpoint digits (acc : Z) (after_digit : bool) (s : string) : option Z :=
  match s with
  | EmptyString => if after_digit then Some acc else None
  | String c s' =>
      match digit c with
      | Some d => digits (10 * acc + d) true s'
      | None =>
          if bool_decide (c = "_"%char) && after_digit
          then digits acc false s'
          else None
      end
  end.

(** [int(s)]: [None] stands for [ValueError]. *)
Definition int (s : string) : option Z :=
  match strip s with
  | String "+" s' => digits 0 false s'
  | String "-" s' => Z.opp <$> digits 0 false s'
  | s' => digits 0 false s'
  end.

(** [a < b] on tuples of integers *)
Fixpoint tuple_lt (a b : list Z) : bool :=
  match a, b with
  | _, [] => false
  | [], _ :: _ => true
  | x :: a', y :: b' =>
      if (x <? y)%Z then true
      else if (y <? x)%Z then false
      else tuple_lt a' b'
  end.

(** [min(l, key=...)] over the elements paired with their keys: the
    first element whose key is least.  [best] is the least so far. *)
Fixpoint min_from {A} (best : A * list Z) (l : list (A * list Z)) : A :=
  match l with
  | [] => best.1
  | x :: l' => min_from (if tuple_lt x.2 best.2 then x else best) l'
  end.

(** [l[i]], with Python's negative indices; [None] stands for
    [IndexError]. *)
Definition index {A} (l : list A) (i : Z) : option A :=
  if (0 <=? i)%Z then l !! Z.to_nat i
  else if (- Z.of_nat (length l) <=? i)%Z
       then l !! Z.to_nat (Z.of_nat (length l) + i)
       else None.
End Py.

(** ** JSON bodies of the runners *)

(** A JSON object returned by a runner, with the members the router
    reads: [models] (tags and ps listings), [version] and [error].
    The runners speak the Ollama wire format: a reply that parses is an
    object, its [models] member an array of objects.  Replies of
    another shape, on which [response.get] would raise, have no
    counterpart here. *)
Record Response := mkResponse {
  models : option (list Model);
  version : option string;
  error : option string
}.

(** [bool(response)]: a dictionary is true when it has a member. *)
Definition response_truthy (r : Response) : bool :=
  bool_decide (is_Some (models r)) || bool_decide (is_Some (version r))
  || bool_decide (is_Some (error r)).

(** [response["models"] = l] *)
Definition set_models (l : list Model) (r : Response) : Response :=
  {| models := Some l; version := version r; error := error r |}.

(** A parsed JSON body: an object, or a value on which
    ["error" in res] raises [TypeError] (a number, a boolean, [null]). *)
Inductive json := JObject (r : Response) | JScalar.

(** ** Chat requests *)

(** A member of an inbound JSON object: missing, [null], a value of the
    declared type, or a value of another type. *)
Inductive member (A : Type) := Absent | Null | Val (a : A) | Bad.
Arguments Absent {A}.
Arguments Null {A}.
Arguments Val {A} a.
Arguments Bad {A}.

(** A message as it arrives. *)
Record RawMessage := mkRawMessage {
  raw_role : member string;
  raw_content : member string;
  raw_tool_calls : member (list string);
  raw_images : member (list string)
}.

(** [ChatMessage] after validation. *)
Record ChatMessage := mkChatMessage {
  role : string;
  content : option string;
  tool_calls : option (list string);
  images : option (list string)
}.

(** The body of [POST /api/chat] as it arrives; [form_metadata] is the
    [metadata] member, popped before validation. *)
Record RawForm := mkRawForm {
  form_model : member string;
  form_messages : member (list RawMessage);
  form_stream : member bool;
  form_extra : list (string * string);
  form_metadata : option string
}.

(** [GenerateChatCompletionForm] after validation. *)
Record GenerateChatCompletionForm := mkForm {
  gc_model : string;
  gc_messages : list ChatMessage;
  gc_stream : option bool;
  gc_extra : list (string * string)
}.

(** [form_data.model_dump(exclude_none=True)]: the outbound payload. *)
Record Payload := mkPayload {
  payload_model : string;
  payload_messages : list ChatMessage;
  payload_stream : option bool;
  payload_extra : list (string * string)
}.

(** [payload["model"] = s] *)
Definition set_payload_model (s : string) (p : Payload) : Payload :=
  {| payload_model := s; payload_messages := payload_messages p;
     payload_stream := payload_stream p; payload_extra := payload_extra p |}.

(** ** Exceptions, the call log and the effect monad *)

(** [HTTPException], or any other exception with its [str(e)]. *)
Inductive exn :=
| HTTPException (status_code : nat) (detail : string)
| Exception (msg : string).

(** What leaves the process.  Identity headers are not recorded. *)
Inductive event :=
| EvGet (url : string) (key : option string)
| EvRequestsGet (url : string) (key : option string)
| EvPost (url : string) (payload : Payload) (key : option string)
| EvCloseResponse
| EvCloseSession.

Inductive result (A : Type) := Ok (a : A) | Raise (e : exn).
Arguments Ok {A} a.
Arguments Raise {A} e.

Definition M (A : Type) : Type := list event → result A * list event.

Definition ret {A} (a : A) : M A := λ log, (Ok a, log).

Definition bind {A B} (c : M A) (k : A → M B) : M B := λ log,
  match c log with
  | (Ok a, log') => k a log'
  | (Raise e, log') => (Raise e, log')
  end.

Definition raise {A} (e : exn) : M A := λ log, (Raise e, log).

Definition emit (ev : event) : M unit := λ log, (Ok tt, log ++ [ev]).

(** [try: c  except ... as e: h e] *)
Definition try_except {A} (c : M A) (h : exn → M A) : M A := λ log,
  match c log with
  | (Ok a, log') => (Ok a, log')
  | (Raise e, log') => h e log'
  end.

(** [try: c  finally: f] *)
Definition try_finally {A} (c : M A) (f : M unit) : M A := λ log,
  match c log with
  | (r, log') =>
      match f log' with
      | (Ok _, log'') => (r, log'')
      | (Raise e, log'') => (Raise e, log'')
      end
  end.

Notation "'let*' x := c1 'in' c2" := (bind c1 (λ x, c2))
  (at level 10, x name, c1 at level 200, c2 at level 200).
Notation "'exec' c1 'in' c2" := (bind c1 (λ _, c2))
  (at level 10, c1 at level 200, c2 at level 200).

(** [await asyncio.gather] of the tasks: the results in task order. *)
Fixpoint gather {A} (tasks : list (M A)) : M (list A) :=
  match tasks with
  | [] => ret []
  | t :: ts => let* a := t in let* r := gather ts in ret (a :: r)
  end.

(** ** The environment *)

(** What an [aiohttp] GET meets: a failure (connection, timeout, body
    that is not JSON) or a JSON body, [None] for [null]. *)
Inductive get_outcome := GetFails | GetJson (r : option Response).

(** An upstream reply to a POST or to a [requests] GET: status, headers,
    raw body and the body parsed as JSON, [None] when parsing raises. *)
Record Reply := mkReply {
  status : nat;
  headers : list (string * string);
  body : string;
  parsed : option json
}.

(** [(msg)] is [str(e)] of the connection error. *)
Inductive post_outcome := PostFails (msg : string) | PostReply (r : Reply).

(** [Models.get_model_by_id] results, as far as the router reads them. *)
Record Params := mkParams { param_system : option string; param_rest : string }.

Record ModelInfo := mkModelInfo {
  base_model_id : option string;
  (** [params.model_dump()], [None] for an empty dictionary *)
  params : option Params;
  info_user_id : string;
  access_control : option string
}.

Record UserModel := mkUser { user_id : string; user_role : string }.

Record Env := mkEnv {
  (** the network, seen from [aiohttp] and from [requests] *)
  env_get : string → option string → get_outcome;
  env_post : string → Payload → option string → post_outcome;
  env_requests_get : string → option string → post_outcome;
  (** [random]: the number drawn *)
  env_random : nat;
  (** [int(datetime.fromisoformat(s).timestamp())], [None] when it raises *)
  env_fromisoformat : string → option Z;
  (** [urlparse]: scheme and netloc of a URL *)
  env_base_url : string → string;
  (** the model store and the payload shaping of [open_webui.utils] *)
  env_get_model_by_id : string → option ModelInfo;
  env_has_access : string → option string → bool;
  env_apply_model_params : Params → Payload → Payload;
  env_apply_system_prompt :
    option string → Payload → option string → UserModel → Payload;
  (** [open_webui.env] *)
  BYPASS_MODEL_ACCESS_CONTROL : bool
}.

(** ** The registry *)

(** One entry of [DOCKER_MODEL_RUNNER_API_CONFIGS]; a member that is
    missing is [None] (or the empty list). *)
Record ApiConfig := mkApiConfig {
  cfg_enable : option bool;
  cfg_key : option string;
  cfg_connection_type : option string;
  cfg_prefix_id : option string;
  cfg_tags : list string;
  cfg_model_ids : list string
}.

(** [{}] *)
Definition empty_config : ApiConfig := mkApiConfig None None None None [] [].

(** [request.app.state], as far as the router uses it. *)
Record AppState := mkState {
  ENABLE_DOCKER_MODEL_RUNNER_API : option bool;
  DOCKER_MODEL_RUNNER_BASE_URLS : list string;
  DOCKER_MODEL_RUNNER_API_CONFIGS : gmap string ApiConfig;
  DOCKER_MODEL_RUNNER_MODELS : gmap string Model
}.

(** [bool(x)] for an optional boolean *)
Definition flag (o : option bool) : bool := default false o.

(** [configs.get(str(idx), configs.get(url, {}))] *)
Definition config_for (configs : gmap string ApiConfig) (idx : Z)
    (url : string) : ApiConfig :=
  default (default empty_config (configs !! url)) (configs !! Py.str idx).

(** [enumerate(l)] *)
Definition enumerate {A} (l : list A) : list (nat * A) := imap pair l.

(** ** Transport *)

Definition send_get_request (env : Env) (url : string) (key : option string)
    : M (option Response) :=
  exec emit (EvGet url key) in
  try_except
    (match env_get env url key with
     | GetJson r => ret r
     | GetFails => raise (Exception "Connection error")
     end)
    (λ _, ret None).

(** [response] and [session] say whether the argument is an object or
    [None]. *)
Definition cleanup_response (response session : bool) : M unit :=
  exec (if response then emit EvCloseResponse else ret tt) in
  (if session then emit EvCloseSession else ret tt).

(** [BackgroundTask(cleanup_response, response=r, session=session)] *)
Inductive BackgroundTask := CleanupTask (response session : bool).

Definition run_background (t : BackgroundTask) : M unit :=
  match t with CleanupTask r s => cleanup_response r s end.

(** What [send_post_request] returns. *)
Inductive PostResult :=
| StreamingResponse (content : string) (status_code : nat)
    (response_headers : list (string * string)) (background : BackgroundTask)
| JsonResult (res : json).

(** [r.ok] *)
Definition ok (r : Reply) : bool := (status r <? 400)%nat.

(** [r.raise_for_status()] *)
Definition raise_for_status (r : Reply) : M unit :=
  if ok r then ret tt else raise (Exception "ClientResponseError").

(** [await r.json()] *)
Definition json_of (r : Reply) : M json :=
  match parsed r with
  | Some j => ret j
  | None => raise (Exception "ContentTypeError")
  end.

(** [d[k] = v] on a list of headers *)
Fixpoint set_header (k v : string) (h : list (string * string))
    : list (string * string) :=
  match h with
  | [] => [(k, v)]
  | (k', v') :: h' =>
      if bool_decide (k' = k) then (k, v) :: h' else (k', v') :: set_header k v h'
  end.

Definition send_post_request (env : Env) (url : string) (payload : Payload)
    (stream : option bool) (key : option string)
    (content_type : option string) : M PostResult :=
  (* [r] as the handlers see it: the reply, or [None] when
     [session.post] raised *)
  let r := match env_post env url payload key with
           | PostReply rep => Some rep
           | PostFails _ => None
           end in
  try_finally
    (try_except
       (exec emit (EvPost url payload key) in
        let* rep := match env_post env url payload key with
              | PostReply rep => ret rep
              | PostFails msg => raise (Exception msg)
              end in
        exec (if negb (ok rep) then
           try_except
             (let* res := json_of rep in
              exec cleanup_response true true in
              match res with
              | JObject o =>
                  match error o with
                  | Some detail => raise (HTTPException (status rep) detail)
                  | None => ret tt
                  end
              | JScalar => raise (Exception "TypeError")
              end)
             (λ e, match e with
                   | HTTPException _ _ => raise e
                   | Exception _ =>
                       raise (HTTPException (status rep)
                                "Open WebUI: Server Connection Error")
                   end)
         else ret tt) in
        exec raise_for_status rep in
        if flag stream then
          let response_headers :=
            match content_type with
            | Some ct =>
                if Py.truthy ct then set_header "Content-Type" ct (headers rep)
                else headers rep
            | None => headers rep
            end in
          ret (StreamingResponse (body rep) (status rep) response_headers
                 (CleanupTask true true))
        else
          let* res := json_of rep in ret (JsonResult res))
       (λ e, match e with
             | HTTPException _ _ => raise e
             | Exception msg =>
                 raise (HTTPException
                          (match r with Some rep => status rep | None => 500 end)
                          ("Docker Model Runner: " +:+ msg))
             end))
    (if negb (flag stream) then cleanup_response (bool_decide (is_Some r)) true
     else ret tt).

(** [get_api_key] *)
Definition get_api_key (env : Env) (idx : Z) (url : string)
    (configs : gmap string ApiConfig) : option string :=
  cfg_key (default (default empty_config (configs !! env_base_url env url))
             (configs !! Py.str idx)).

(** ** [POST /config/update] *)

Record DockerModelRunnerConfigForm := mkConfigForm {
  form_ENABLE_DOCKER_MODEL_RUNNER_API : option bool;
  form_DOCKER_MODEL_RUNNER_BASE_URLS : list string;
  form_DOCKER_MODEL_RUNNER_API_CONFIGS : gmap string ApiConfig
}.

(** [list(map(str, range(n)))] *)
Definition index_keys (n : nat) : list string :=
  (λ i, Py.str (Z.of_nat i)) <$> seq 0 n.

(** The state after the update; the handler answers with its first three
    fields. *)
Definition update_config (st : AppState) (form_data : DockerModelRunnerConfigForm)
    : AppState :=
  let urls := form_DOCKER_MODEL_RUNNER_BASE_URLS form_data in
  let keys := index_keys (length urls) in
  {| ENABLE_DOCKER_MODEL_RUNNER_API :=
       form_ENABLE_DOCKER_MODEL_RUNNER_API form_data;
     DOCKER_MODEL_RUNNER_BASE_URLS := urls;
     DOCKER_MODEL_RUNNER_API_CONFIGS :=
       filter (λ kv, kv.1 ∈ keys)
         (form_DOCKER_MODEL_RUNNER_API_CONFIGS form_data);
     DOCKER_MODEL_RUNNER_MODELS := DOCKER_MODEL_RUNNER_MODELS st |}.

(** ** Catalog refresh: [get_all_models] and [get_loaded_models] *)

Definition has_key (k : string) (configs : gmap string ApiConfig) : bool :=
  bool_decide (is_Some (configs !! k)).

(** [api_config.get("enable", True)] *)
Definition enabled (cfg : ApiConfig) : bool := default true (cfg_enable cfg).

(** The body of the first loop: the task queued for backend [idx]. *)
Definition request_task (env : Env) (configs : gmap string ApiConfig)
    (path : string) (e : nat * string) : M (option Response) :=
  let idx := e.1 in
  let url := e.2 in
  if negb (has_key (Py.str (Z.of_nat idx)) configs) && negb (has_key url configs)
  then send_get_request env (url +:+ path) None
  else
    let api_config := config_for configs (Z.of_nat idx) url in
    if enabled api_config
    then send_get_request env (url +:+ path) (cfg_key api_config)
    else ret None.

Definition request_tasks (env : Env) (st : AppState) (path : string)
    : list (M (option Response)) :=
  request_task env (DOCKER_MODEL_RUNNER_API_CONFIGS st) path
    <$> enumerate (DOCKER_MODEL_RUNNER_BASE_URLS st).

(** [model["model"] = f"{prefix_id}.{model['model']}"] when [prefix_id]
    is true *)
Definition apply_prefix (cfg : ApiConfig) (m : Model) : Model :=
  if Py.truthy_opt (cfg_prefix_id cfg)
  then set_model (Py.str_opt (cfg_prefix_id cfg) +:+ "." +:+ Py.str_opt (model m)) m
  else m.

(** The body of the loop over [response.get("models", [])] in
    [get_all_models]. *)
Definition transform_model (cfg : ApiConfig) (m : Model) : Model :=
  let m := apply_prefix cfg m in
  let m := if bool_decide (cfg_tags cfg = []) then m
           else set_tags (cfg_tags cfg) m in
  let connection_type := default "docker" (cfg_connection_type cfg) in
  if Py.truthy connection_type then set_connection_type connection_type m
  else m.

(** [model["model"] in model_ids] *)
Definition allowed (model_ids : list string) (m : Model) : bool :=
  match model m with
  | Some id => bool_decide (id ∈ model_ids)
  | None => false
  end.

(** The body of the second loop of [get_all_models] for one response
    that is true. *)
Definition transform_response (cfg : ApiConfig) (response : Response)
    : Response :=
  let response :=
    match models response with
    | Some l =>
        if bool_decide (cfg_model_ids cfg = []) then response
        else set_models (filter (λ m, allowed (cfg_model_ids cfg) m = true) l)
               response
    | None => response
    end in
  match models response with
  | Some l => set_models (transform_model cfg <$> l) response
  | None => response
  end.

(** The body of the second loop of [get_loaded_models]. *)
Definition transform_loaded_response (cfg : ApiConfig) (response : Response)
    : Response :=
  match models response with
  | Some l => set_models (apply_prefix cfg <$> l) response
  | None => response
  end.

(** The second loop: [responses] run in step with the URL list. *)
Definition transform_responses (f : ApiConfig → Response → Response)
    (st : AppState) (responses : list (option Response))
    : list (option Response) :=
  (λ e : (nat * string) * option Response,
     match e.2 with
     | Some response =>
         if response_truthy response
         then Some (f (config_for (DOCKER_MODEL_RUNNER_API_CONFIGS st)
                         (Z.of_nat e.1.1) e.1.2) response)
         else Some response
     | None => None
     end)
  <$> zip (enumerate (DOCKER_MODEL_RUNNER_BASE_URLS st)) responses.

(** [response.get("models", []) if response else None] *)
Definition models_of (response : option Response) : option (list Model) :=
  match response with
  | Some r => if response_truthy r then Some (default [] (models r)) else None
  | None => None
  end.

Definition get_loaded_models (env : Env) (st : AppState) : M (list Model) :=
  if flag (ENABLE_DOCKER_MODEL_RUNNER_API st) then
    let* responses := gather (request_tasks env st "/api/ps") in
    let responses := transform_responses transform_loaded_response st responses in
    ret (merge_models_lists (models_of <$> responses))
  else ret [].

(** [{m["model"]: m["expires_at"] for m in loaded if "expires_at" in m}] *)
Definition expires_map (loaded : list Model) : gmap string expiry :=
  foldl (λ acc m,
           match model m, expires_at m with
           | Some id, Some e => <[id := e]> acc
           | _, _ => acc
           end) ∅ loaded.

(** [int(datetime.fromisoformat(e).timestamp())] *)
Definition epoch_of (env : Env) (e : expiry) : option Z :=
  match e with
  | ExpIso s => env_fromisoformat env s
  | ExpEpoch _ => None
  end.

(** The loop that attaches [expires_at].  It runs inside [try]: when the
    conversion raises, the models annotated so far keep their value and
    the others are left as they are. *)
Fixpoint annotate_expiry (env : Env) (em : gmap string expiry)
    (ms : list Model) : list Model :=
  match ms with
  | [] => []
  | m :: ms' =>
      match model m ≫= (λ id, em !! id) with
      | None => m :: annotate_expiry env em ms'
      | Some e =>
          match epoch_of env e with
          | Some t => set_expires_at t m :: annotate_expiry env em ms'
          | None => m :: ms'
          end
      end
  end.

(** [{model["model"]: model for model in models}] *)
Definition models_index (ms : list Model) : gmap string Model :=
  foldl (λ acc m, match model m with
                  | Some id => <[id := m]> acc
                  | None => acc
                  end) ∅ ms.

(** [app.state.DOCKER_MODEL_RUNNER_MODELS = index] *)
Definition set_MODELS (index : gmap string Model) (st : AppState) : AppState :=
  {| ENABLE_DOCKER_MODEL_RUNNER_API := ENABLE_DOCKER_MODEL_RUNNER_API st;
     DOCKER_MODEL_RUNNER_BASE_URLS := DOCKER_MODEL_RUNNER_BASE_URLS st;
     DOCKER_MODEL_RUNNER_API_CONFIGS := DOCKER_MODEL_RUNNER_API_CONFIGS st;
     DOCKER_MODEL_RUNNER_MODELS := index |}.

(** One run of the function under the [@cached] decorator: the catalog
    and the state with the new index. *)
Definition get_all_models (env : Env) (st : AppState)
    : M (list Model * AppState) :=
  let* models :=
    if flag (ENABLE_DOCKER_MODEL_RUNNER_API st) then
      let* responses := gather (request_tasks env st "/api/tags") in
      let responses := transform_responses transform_response st responses in
      let models := merge_models_lists (models_of <$> responses) in
      (* try: ... except Exception: log.debug(...) *)
      let* loaded_models :=
        try_except (let* l := get_loaded_models env st in ret (Some l))
                   (λ _, ret None) in
      ret (match loaded_models with
           | Some l => annotate_expiry env (expires_map l) models
           | None => models
           end)
    else ret [] in
  ret (models, set_MODELS (models_index models) st).

(** ** [GET /api/version] *)

(** The scan of [re.sub(r"-.*", "", s)]: a match runs from a dash to
    the end of the line. *)
Fixpoint drop_dashed (skipping : bool) (s : string) : string :=
  match s with
  | EmptyString => EmptyString
  | String c s' =>
      if bool_decide (c = "010"%char) then String c (drop_dashed false s')
      else if skipping then drop_dashed true s'
      else if bool_decide (c = "-"%char) then drop_dashed true s'
      else String c (drop_dashed false s')
  end.

(** [re.sub(r"^v|-.*", "", s)] *)
Definition re_sub_version (s : string) : string :=
  drop_dashed false (match s with String "v" s' => s' | _ => s end).

(** [tuple(map(int, ....split(".")))]; [None] when [int] raises. *)
Definition version_tuple (v : string) : option (list Z) :=
  mapM Py.int (Py.split "." (re_sub_version v)).

(** The [key] of [min]: [x["version"]] must be there. *)
Definition version_key (x : Response) : option (list Z) :=
  version x ≫= version_tuple.

Inductive VersionResult :=
| VersionIs (v : option string)
| VersionFalse
| VersionRaw (j : json).

(** The task list of the unpinned query: a disabled backend gets no
    task. *)
Definition version_tasks (env : Env) (st : AppState)
    : list (M (option Response)) :=
  omap (λ e : nat * string,
          let api_config := config_for (DOCKER_MODEL_RUNNER_API_CONFIGS st)
                              (Z.of_nat e.1) e.2 in
          if enabled api_config
          then Some (send_get_request env (e.2 +:+ "/api/version")
                       (cfg_key api_config))
          else None)
    (enumerate (DOCKER_MODEL_RUNNER_BASE_URLS st)).

(** [min(responses, key=...)] *)
Definition lowest_version (responses : list Response) : M Response :=
  match mapM (λ x, pair x <$> version_key x) responses with
  | Some (k :: ks) => ret (Py.min_from k ks)
  | Some [] => raise (Exception "ValueError: min() arg is an empty sequence")
  | None => raise (Exception "ValueError")
  end.

(** The branch of [get_versions] for a query that names no backend. *)
Definition get_versions_unpinned (env : Env) (st : AppState) : M VersionResult :=
  let* responses := gather (version_tasks env st) in
  let responses := omap id responses in
  if (0 <? length responses)%nat then
    let* lowest := lowest_version responses in
    ret (VersionIs (version lowest))
  else
    raise (HTTPException 500 "Docker Model Runner not found").

(** The branch for a query pinned to the backend at [idx], which goes
    through [requests]. *)
Definition get_versions_pinned (env : Env) (st : AppState) (idx : Z)
    : M VersionResult :=
  match Py.index (DOCKER_MODEL_RUNNER_BASE_URLS st) idx with
  | None => raise (Exception "IndexError")
  | Some url =>
      let outcome := env_requests_get env (url +:+ "/api/version") None in
      try_except
        (exec emit (EvRequestsGet (url +:+ "/api/version") None) in
         match outcome with
         | PostFails msg => raise (Exception msg)
         | PostReply r =>
             exec (if ok r then ret tt else raise (Exception "HTTPError")) in
             let* j := json_of r in
             ret (VersionRaw j)
         end)
        (λ e,
           let msg := match e with
                      | Exception msg => msg
                      | HTTPException _ d => d
                      end in
           let detail :=
             match outcome with
             | PostFails _ => None
             | PostReply r =>
                 match parsed r with
                 | Some (JObject o) =>
                     (λ d, "Docker Model Runner: " +:+ d) <$> error o
                 | _ => Some ("Docker Model Runner: " +:+ msg)
                 end
             end in
           raise (HTTPException
                    (match outcome with
                     | PostReply r => if ok r then status r else 500
                     | PostFails _ => 500
                     end)
                    (match detail with
                     | Some d => if Py.truthy d then d
                                 else "Open WebUI: Server Connection Error"
                     | None => "Open WebUI: Server Connection Error"
                     end)))
  end.

Definition get_versions (env : Env) (st : AppState) (url_idx : option Z)
    : M VersionResult :=
  if flag (ENABLE_DOCKER_MODEL_RUNNER_API st) then
    match url_idx with
    | None => get_versions_unpinned env st
    | Some idx => get_versions_pinned env st idx
    end
  else ret VersionFalse.

(** ** [POST /api/chat] *)

(** The [values] argument of a field validator: the fields validated
    before the one at hand, each [None] when it is not in the
    dictionary. *)
Record Values := mkValues {
  values_role : option string;
  values_content : option (option string);
  values_tool_calls : option (option (list string));
  values_images : option (option (list string))
}.

Definition is_null {A} (v : member A) : bool :=
  match v with Null => true | _ => false end.

(** [ChatMessage.check_at_least_one_field]: [field_value] is the raw
    [content], as the validator runs with [pre=True]. *)
Definition check_at_least_one_field (field_value : member string)
    (values : Values) : result (member string) :=
  if is_null field_value
     && (negb (bool_decide (is_Some (values_tool_calls values)))
         || bool_decide (values_tool_calls values = Some None))
  then Raise (Exception
                "At least one of 'content' or 'tool_calls' must be provided")
  else Ok field_value.

(** A member declared [Optional[T] = None]. *)
Definition optional {A} (v : member A) : option (option A) :=
  match v with
  | Absent | Null => Some None
  | Val a => Some (Some a)
  | Bad => None
  end.

(** Validation of one message by [ChatMessage].  pydantic validates the
    fields in the order of their declaration ([role], [content],
    [tool_calls], [images]) and hands a field validator the fields
    validated before its own; it does not run a validator on a member
    that is missing, the default is taken as it is.  A field that fails
    is left out of [values]; the message is rejected when a field
    failed. *)
Definition validate_ChatMessage (raw : RawMessage) : result ChatMessage :=
  let role_v := match raw_role raw with Val s => Some s | _ => None end in
  let values := mkValues role_v None None None in
  let content_v :=
    match raw_content raw with
    | Absent => Some None
    | field_value =>
        match check_at_least_one_field field_value values with
        | Ok v => optional v
        | Raise _ => None
        end
    end in
  let tool_calls_v := optional (raw_tool_calls raw) in
  let images_v := optional (raw_images raw) in
  match role_v, content_v, tool_calls_v, images_v with
  | Some r, Some c, Some t, Some i => Ok (mkChatMessage r c t i)
  | _, _, _, _ => Raise (Exception "ValidationError")
  end.

Fixpoint validate_messages (raws : list RawMessage)
    : result (list ChatMessage) :=
  match raws with
  | [] => Ok []
  | raw :: raws' =>
      match validate_ChatMessage raw, validate_messages raws' with
      | Ok m, Ok ms => Ok (m :: ms)
      | _, _ => Raise (Exception "ValidationError")
      end
  end.

(** [GenerateChatCompletionForm] applied to the body: [model] and
    [messages] are required, [stream] defaults to [True]. *)
Definition validate_form (form_data : RawForm)
    : result GenerateChatCompletionForm :=
  match form_model form_data, form_messages form_data with
  | Val model, Val raws =>
      match validate_messages raws with
      | Ok messages =>
          match form_stream form_data with
          | Absent => Ok (mkForm model messages (Some true) (form_extra form_data))
          | Null => Ok (mkForm model messages None (form_extra form_data))
          | Val b => Ok (mkForm model messages (Some b) (form_extra form_data))
          | Bad => Raise (Exception "ValidationError")
          end
      | Raise e => Raise e
      end
  | _, _ => Raise (Exception "ValidationError")
  end.

(** [form_data.model_dump(exclude_none=True)] *)
Definition model_dump (form : GenerateChatCompletionForm) : Payload :=
  mkPayload (gc_model form) (gc_messages form) (gc_stream form) (gc_extra form).

(** Modelled from the spec: [ERROR_MESSAGES.MODEL_NOT_FOUND] of
    [open_webui.constants], which is not among the sources.  The spec
    asks for "a message naming the model" that "mirrors the model not
    found message". *)
Definition MODEL_NOT_FOUND (name : string) : string :=
  "Model '" +:+ name +:+ "' was not found".

(** [random.choice(l)]; [None] stands for [IndexError]. *)
Definition random_choice {A} (env : Env) (l : list A) : option A :=
  l !! (env_random env `mod` length l)%nat.

Definition get_runner_url (env : Env) (st : AppState) (model : string)
    (url_idx : option Z) : M (string * Z) :=
  let* url_idx :=
    match url_idx with
    | None =>
        let models := DOCKER_MODEL_RUNNER_MODELS st in
        match models !! model with
        | None => raise (HTTPException 400 (MODEL_NOT_FOUND model))
        | Some record =>
            match random_choice env (urls record) with
            | Some i => ret (Z.of_nat i)
            | None => raise (Exception "IndexError")
            end
        end
    | Some i => ret i
    end in
  match Py.index (DOCKER_MODEL_RUNNER_BASE_URLS st) url_idx with
  | Some url => ret (url, url_idx)
  | None => raise (Exception "IndexError")
  end.

Definition generate_chat_completion (env : Env) (st : AppState)
    (form_data : RawForm) (url_idx : option Z) (user : UserModel)
    (bypass_filter : bool) : M PostResult :=
  let bypass_filter := BYPASS_MODEL_ACCESS_CONTROL env || bypass_filter in
  let metadata := form_metadata form_data in
  let* form_data :=
    match validate_form form_data with
    | Ok f => ret f
    | Raise e =>
        raise (HTTPException 400
                 (match e with Exception msg => msg | HTTPException _ d => d end))
    end in
  let payload := model_dump form_data in
  let model_id := payload_model payload in
  let model_info := env_get_model_by_id env model_id in
  let* payload :=
    match model_info with
    | Some info =>
        let payload :=
          if Py.truthy_opt (base_model_id info)
          then set_payload_model (Py.str_opt (base_model_id info)) payload
          else payload in
        let payload :=
          match params info with
          | Some params =>
              env_apply_system_prompt env (param_system params)
                (env_apply_model_params env params payload) metadata user
          | None => payload
          end in
        if negb bypass_filter && bool_decide (user_role user = "user") then
          if negb (bool_decide (user_id user = info_user_id info)
                   || env_has_access env (user_id user) (access_control info))
          then raise (HTTPException 403 "Model not found")
          else ret payload
        else ret payload
    | None =>
        if negb bypass_filter then
          if negb (bool_decide (user_role user = "admin"))
          then raise (HTTPException 403 "Model not found")
          else ret payload
        else ret payload
    end in
  let payload :=
    if negb (Py.contains ":" (payload_model payload))
    then set_payload_model (payload_model payload +:+ ":latest") payload
    else payload in
  let* r := get_runner_url env st (payload_model payload) url_idx in
  let url := r.1 in
  let url_idx := r.2 in
  let api_config :=
    config_for (DOCKER_MODEL_RUNNER_API_CONFIGS st) url_idx url in
  let payload :=
    if Py.truthy_opt (cfg_prefix_id api_config)
    then set_payload_model
           (Py.replace (Py.str_opt (cfg_prefix_id api_config) +:+ ".") ""
              (payload_model payload)) payload
    else payload in
  send_post_request env (url +:+ "/api/chat") payload (gc_stream form_data)
    (get_api_key env url_idx url (DOCKER_MODEL_RUNNER_API_CONFIGS st))
    (Some "application/x-ndjson").

(** ** The runs as functions of the environment

    The effectful functions above are compared with plain functions of
    the environment and the registry: what is asked of which backend,
    what comes back, and what the merge is fed. *)

(** The merge, one [(idx, model)] pair at a time. *)
Definition merge_step (d : OD.t) (e : nat * Model) : OD.t :=
  merge_model e.1 d e.2.

(** The record said to be kept for [id]: the first entry of that name,
    with the backends that expose the name as its [urls]. *)
Definition merged_record (id : string) (es : list (nat * Model))
    : option Model :=
  (λ e, set_urls (exposers id es) e.2) <$> first_exposure id es.

(** The value [send_get_request] returns. *)
Definition get_value (env : Env) (url : string) (key : option string)
    : option Response :=
  match env_get env url key with GetJson r => r | GetFails => None end.

(** The configuration of the backend at [e = (idx, url)]. *)
Definition backend_config (st : AppState) (e : nat * string) : ApiConfig :=
  config_for (DOCKER_MODEL_RUNNER_API_CONFIGS st) (Z.of_nat e.1) e.2.

(** The GET planned for a backend, [None] for one that is disabled. *)
Definition planned_call (st : AppState) (path : string) (e : nat * string)
    : option (string * option string) :=
  if enabled (backend_config st e)
  then Some (e.2 +:+ path, cfg_key (backend_config st e))
  else None.

Definition planned_calls (st : AppState) (path : string)
    : list (option (string * option string)) :=
  planned_call st path <$> enumerate (DOCKER_MODEL_RUNNER_BASE_URLS st).

Definition call_result (env : Env) (c : option (string * option string))
    : option Response :=
  c ≫= λ c, get_value env c.1 c.2.

Definition call_events (cs : list (option (string * option string)))
    : list event :=
  (λ c : string * option string, EvGet c.1 c.2) <$> omap id cs.

Definition call_task (env : Env) (c : option (string * option string))
    : M (option Response) :=
  match c with
  | Some c => send_get_request env c.1 c.2
  | None => ret None
  end.

(** The results gathered from the backends for [path], slot by slot. *)
Definition fetched (env : Env) (st : AppState) (path : string)
    : list (option Response) :=
  call_result env <$> planned_calls st path.

(** The model lists [get_all_models] hands to the merge. *)
Definition tags_lists (env : Env) (st : AppState) : list (option (list Model)) :=
  models_of
    <$> transform_responses transform_response st (fetched env st "/api/tags").

(** The value of [get_loaded_models] when the API is on. *)
Definition loaded_of (env : Env) (st : AppState) : list Model :=
  merge_models_lists
    (models_of <$> transform_responses transform_loaded_response st
                     (fetched env st "/api/ps")).

(** The catalog [get_all_models] returns. *)
Definition catalog_of (env : Env) (st : AppState) : list Model :=
  if flag (ENABLE_DOCKER_MODEL_RUNNER_API st)
  then annotate_expiry env (expires_map (loaded_of env st))
         (merge_models_lists (tags_lists env st))
  else [].

(** The calls [get_all_models] makes. *)
Definition refresh_events (st : AppState) : list event :=
  if flag (ENABLE_DOCKER_MODEL_RUNNER_API st)
  then call_events (planned_calls st "/api/tags")
       ++ call_events (planned_calls st "/api/ps")
  else [].

(** The responses the unpinned version query keeps: the replies of the
    enabled backends that are not [None]. *)
Definition version_responses (env : Env) (st : AppState) : list Response :=
  omap id ((λ c : string * option string, get_value env c.1 c.2)
             <$> omap id (planned_calls st "/api/version")).

(** The responses an unpinned [get_versions] has in hand when it comes
    to choose: with the API switched off it asks nobody. *)
Definition gathered_versions (env : Env) (st : AppState) : list Response :=
  if flag (ENABLE_DOCKER_MODEL_RUNNER_API st) then version_responses env st
  else [].

(** The calls the unpinned version query makes. *)
Definition version_events (st : AppState) : list event :=
  (λ c : string * option string, EvGet c.1 c.2)
    <$> omap id (planned_calls st "/api/version").

(** The part of [generate_chat_completion] before a backend is chosen:
    validation, alias and parameters of a registered model, the access
    check and the default tag. *)
Definition prepare_payload (env : Env) (form_data : RawForm)
    (user : UserModel) (bypass_filter : bool)
    : result (GenerateChatCompletionForm * Payload) :=
  let bypass_filter := BYPASS_MODEL_ACCESS_CONTROL env || bypass_filter in
  let metadata := form_metadata form_data in
  match validate_form form_data with
  | Raise e =>
      Raise (HTTPException 400
               (match e with Exception msg => msg | HTTPException _ d => d end))
  | Ok form =>
      let payload := model_dump form in
      let checked :=
        match env_get_model_by_id env (payload_model payload) with
        | Some info =>
            let payload :=
              if Py.truthy_opt (base_model_id info)
              then set_payload_model (Py.str_opt (base_model_id info)) payload
              else payload in
            let payload :=
              match params info with
              | Some params =>
                  env_apply_system_prompt env (param_system params)
                    (env_apply_model_params env params payload) metadata user
              | None => payload
              end in
            if negb bypass_filter && bool_decide (user_role user = "user") then
              if negb (bool_decide (user_id user = info_user_id info)
                       || env_has_access env (user_id user) (access_control info))
              then Raise (HTTPException 403 "Model not found")
              else Ok payload
            else Ok payload
        | None =>
            if negb bypass_filter then
              if negb (bool_decide (user_role user = "admin"))
              then Raise (HTTPException 403 "Model not found")
              else Ok payload
            else Ok payload
        end in
      match checked with
      | Raise e => Raise e
      | Ok payload =>
          Ok (form,
              if negb (Py.contains ":" (payload_model payload))
              then set_payload_model (payload_model payload +:+ ":latest") payload
              else payload)
      end
  end.

(** The part after it: the prefix of the chosen backend is taken off and
    the request is sent. *)
Definition forward_chat (env : Env) (st : AppState)
    (form : GenerateChatCompletionForm) (payload : Payload) (r : string * Z)
    : M PostResult :=
  let api_config :=
    config_for (DOCKER_MODEL_RUNNER_API_CONFIGS st) r.2 r.1 in
  let payload :=
    if Py.truthy_opt (cfg_prefix_id api_config)
    then set_payload_model
           (Py.replace (Py.str_opt (cfg_prefix_id api_config) +:+ ".") ""
              (payload_model payload)) payload
    else payload in
  send_post_request env (r.1 +:+ "/api/chat") payload (gc_stream form)
    (get_api_key env r.2 r.1 (DOCKER_MODEL_RUNNER_API_CONFIGS st))
    (Some "application/x-ndjson").

(** ** Counting releases *)

Definition is_session_close (ev : event) : bool :=
  match ev with EvCloseSession => true | _ => false end.

Definition is_response_close (ev : event) : bool :=
  match ev with EvCloseResponse => true | _ => false end.

Definition is_post (ev : event) : bool :=
  match ev with EvPost _ _ _ => true | _ => false end.

(** How often the session, and the response, were closed in [log]. *)
Definition session_releases (log : list event) : nat :=
  length (filter (λ ev, is_session_close ev = true) log).

Definition response_releases (log : list event) : nat :=
  length (filter (λ ev, is_response_close ev = true) log).

(** The requests forwarded to backends in [log]. *)
Definition forwarded (log : list event) : list event :=
  filter (λ ev, is_post ev = true) log.

(** ** A registry for the examples: one backend, prefix [teamA] *)

Definition teamA_config : ApiConfig :=
  mkApiConfig None None None (Some "teamA") [] [].

Definition teamA_state : AppState :=
  mkState (Some true) ["http://runner:12434"] {[ "0" := teamA_config ]} ∅.

Definition runner_model (name : string) : Model :=
  mkModel (Some name) [] [] None None [("digest", "sha256:0")].

(** The backend lists one model, [name]; [post] is what a POST meets. *)
Definition teamA_env (name : string) (post : post_outcome) (rnd : nat) : Env :=
  {| env_get := λ url _,
       if bool_decide (url = "http://runner:12434/api/tags")
       then GetJson (Some (mkResponse (Some [runner_model name]) None None))
       else GetFails;
     env_post := λ _ _ _, post;
     env_requests_get := λ _ _, PostFails "unreachable";
     env_random := rnd;
     env_fromisoformat := λ _, None;
     env_base_url := λ url, url;
     env_get_model_by_id := λ _, None;
     env_has_access := λ _ _, false;
     env_apply_model_params := λ _ p, p;
     env_apply_system_prompt := λ _ p _ _, p;
     BYPASS_MODEL_ACCESS_CONTROL := false |}.

Definition admin : UserModel := mkUser "1" "admin".

Definition chat_request (name : string) : RawForm :=
  mkRawForm (Val name) (Val [mkRawMessage (Val "user") (Val "hi") Absent Absent])
    Absent [] None.

(** The catalog index after a refresh of [teamA_state]. *)
Definition teamA_refreshed (name : string) : AppState :=
  set_MODELS (models_index (catalog_of (teamA_env name (PostFails "") 0) teamA_state))
    teamA_state.


(** ** A registry of three backends that report their versions *)

Definition versions_state : AppState :=
  mkState (Some true) ["http://a"; "http://b"; "http://c"] ∅ ∅.

Definition versions_env : Env :=
  {| env_get := λ url _,
       if bool_decide (url = "http://a/api/version")
       then GetJson (Some (mkResponse None (Some "v1.2.0") None))
       else if bool_decide (url = "http://b/api/version")
       then GetJson (Some (mkResponse None (Some "v1.10.0") None))
       else if bool_decide (url = "http://c/api/version")
       then GetJson (Some (mkResponse None (Some "v1.2.5") None))
       else GetFails;
     env_post := λ _ _ _, PostFails "unreachable";
     env_requests_get := λ _ _, PostFails "unreachable";
     env_random := 0;
     env_fromisoformat := λ _, None;
     env_base_url := λ url, url;
     env_get_model_by_id := λ _, None;
     env_has_access := λ _ _, false;
     env_apply_model_params := λ _ p, p;
     env_apply_system_prompt := λ _ p _ _, p;
     BYPASS_MODEL_ACCESS_CONTROL := false |}.

(** The same registry with the API switched off. *)
Definition switched_off_state : AppState :=
  mkState (Some false) ["http://a"; "http://b"; "http://c"] ∅ ∅.

(** No backend answers. *)
Definition offline_env : Env :=
  {| env_get := λ _ _, GetFails;
     env_post := λ _ _ _, PostFails "unreachable";
     env_requests_get := λ _ _, PostFails "unreachable";
     env_random := 0;
     env_fromisoformat := λ _, None;
     env_base_url := λ url, url;
     env_get_model_by_id := λ _, None;
     env_has_access := λ _ _, false;
     env_apply_model_params := λ _ p, p;
     env_apply_system_prompt := λ _ p _ _, p;
     BYPASS_MODEL_ACCESS_CONTROL := false |}.

(** ** A registry of four backends, for the examples

    Backend 0 serves [phi:latest] and [llama3:latest]; backend 1 is
    disabled (it would answer); backend 2 is unreachable; backend 3
    serves [llama3:latest]. *)

Definition mixed_state : AppState :=
  mkState (Some true) ["http://a"; "http://b"; "http://c"; "http://d"]
    {[ "1" := mkApiConfig (Some false) None None None [] [] ]} ∅.

Definition mixed_env (rnd : nat) : Env :=
  {| env_get := λ url _,
       if bool_decide (url = "http://a/api/tags")
       then GetJson (Some (mkResponse
              (Some [runner_model "phi:latest"; runner_model "llama3:latest"])
              None None))
       else if bool_decide (url = "http://b/api/tags")
       then GetJson (Some (mkResponse (Some [runner_model "hidden:latest"])
                             None None))
       else if bool_decide (url = "http://d/api/tags")
       then GetJson (Some (mkResponse
              (Some [set_tags ["d"] (runner_model "llama3:latest")]) None None))
       else GetFails;
     env_post := λ _ _ _, PostFails "unreachable";
     env_requests_get := λ _ _, PostFails "unreachable";
     env_random := rnd;
     env_fromisoformat := λ _, None;
     env_base_url := λ url, url;
     env_get_model_by_id := λ _, None;
     env_has_access := λ _ _, false;
     env_apply_model_params := λ _ p, p;
     env_apply_system_prompt := λ _ p _ _, p;
     BYPASS_MODEL_ACCESS_CONTROL := false |}.

(** The state after a refresh of [mixed_state]. *)
Definition mixed_refreshed : AppState :=
  set_MODELS (models_index (catalog_of (mixed_env 0) mixed_state)) mixed_state.

(** * Further handlers *)

(** ** [GET /config] *)

(** The dictionary [get_config] answers with, which is also what
    [update_config] answers with after the update. *)
Definition get_config (st : AppState) : DockerModelRunnerConfigForm :=
  {| form_ENABLE_DOCKER_MODEL_RUNNER_API := ENABLE_DOCKER_MODEL_RUNNER_API st;
     form_DOCKER_MODEL_RUNNER_BASE_URLS := DOCKER_MODEL_RUNNER_BASE_URLS st;
     form_DOCKER_MODEL_RUNNER_API_CONFIGS := DOCKER_MODEL_RUNNER_API_CONFIGS st |}.

(** ** [GET /api/tags] *)

(** The test of [get_filtered_models] on one entry.
    [Models.get_model_by_id] is asked for [model["model"]]; the store
    holds no model under [None]. *)
Definition may_read (env : Env) (user : UserModel) (m : Model) : bool :=
  match model m ≫= env_get_model_by_id env with
  | Some model_info =>
      bool_decide (user_id user = info_user_id model_info)
      || env_has_access env (user_id user) (access_control model_info)
  | None => false
  end.

Definition get_filtered_models (env : Env) (listing : Response)
    (user : UserModel) : list Model :=
  filter (λ m, may_read env user m = true) (default [] (models listing)).

(** The [except] branch shared by the pinned queries that go through
    [requests]: [outcome] is what the GET met, [msg] the [str(e)] of the
    exception caught. *)
Definition requests_failure (outcome : post_outcome) (msg : string) : exn :=
  let detail :=
    match outcome with
    | PostFails _ => None
    | PostReply r =>
        match parsed r with
        | Some (JObject o) => (λ d, "Docker Model Runner: " +:+ d) <$> error o
        | _ => Some ("Docker Model Runner: " +:+ msg)
        end
    end in
  HTTPException
    (match outcome with
     | PostReply r => if ok r then status r else 500
     | PostFails _ => 500
     end)
    (match detail with
     | Some d => if Py.truthy d then d else "Open WebUI: Server Connection Error"
     | None => "Open WebUI: Server Connection Error"
     end).

(** The request of [get_tags] for a query pinned to the backend at
    [url_idx]: the [try] block and its [except] clause. *)
Definition get_tags_request (env : Env) (st : AppState) (url_idx : Z) : M json :=
  match Py.index (DOCKER_MODEL_RUNNER_BASE_URLS st) url_idx with
  | None => raise (Exception "IndexError")
  | Some url =>
      let key := get_api_key env url_idx url (DOCKER_MODEL_RUNNER_API_CONFIGS st) in
      let outcome := env_requests_get env (url +:+ "/api/tags") key in
      try_except
        (exec emit (EvRequestsGet (url +:+ "/api/tags") key) in
         match outcome with
         | PostFails msg => raise (Exception msg)
         | PostReply r =>
             exec (if ok r then ret tt else raise (Exception "HTTPError")) in
             json_of r
         end)
        (λ e, raise (requests_failure outcome
                       (match e with
                        | Exception msg => msg
                        | HTTPException _ d => d
                        end)))
  end.

(** [get_tags] for a query that names a backend: the request, then the
    filter for a caller of role "user".  A query that names none calls
    [get_all_models] through the cache of the [@cached] decorator,
    whose store and keys belong to the [aiocache] library; that branch
    is not modelled. *)
Definition get_tags_pinned (env : Env) (st : AppState) (url_idx : Z)
    (user : UserModel) : M json :=
  let* models := get_tags_request env st url_idx in
  if bool_decide (user_role user = "user") && negb (BYPASS_MODEL_ACCESS_CONTROL env)
  then
    match models with
    | JObject listing =>
        ret (JObject (set_models (get_filtered_models env listing user) listing))
    | JScalar => raise (Exception "AttributeError")
    end
  else ret models.

(** ** [POST /verify] *)

(** What the GET of [verify_connection] meets.  A failure of the
    connection is an [aiohttp.ClientError] or another exception (a
    timeout); a reply has a status and a body, which parses, or is
    refused for its content type ([ContentTypeError], a [ClientError]),
    or is not JSON ([JSONDecodeError]). *)
Inductive parse_outcome :=
| Parsed (j : json)
| ContentTypeError
| JSONDecodeError.

Inductive verify_outcome :=
| VerifyClientError
| VerifyOtherError (msg : string)
| VerifyReply (status : nat) (body : parse_outcome).

(** The exceptions of [verify_connection], by the [except] clause that
    takes them. *)
Inductive verify_exn := ClientError | OtherError (msg : string).

(** The block under [session.get]: the detail of the exception raised,
    or the data returned.  Where the library raises, the name of the
    exception stands for its [str(e)]. *)
Definition verify_body (status : nat) (body : parse_outcome)
    : verify_exn + json :=
  if bool_decide (status ≠ 200%nat) then
    match body with
    | Parsed (JObject res) =>
        match error res with
        | Some e => inl (OtherError ("External Error: " +:+ e))
        | None => inl (OtherError ("HTTP Error: " +:+ Py.str (Z.of_nat status)))
        end
    | Parsed JScalar => inl (OtherError "TypeError")
    | ContentTypeError => inl ClientError
    | JSONDecodeError => inl (OtherError "JSONDecodeError")
    end
  else
    match body with
    | Parsed data => inr data
    | ContentTypeError => inl ClientError
    | JSONDecodeError => inl (OtherError "JSONDecodeError")
    end.

(** The session and the response are held by [async with]: the
    response is released on leaving the inner block, before an [except]
    clause runs, the session on leaving the outer one. *)
Definition verify_connection (outcome : verify_outcome) (url : string)
    (key : option string) : M json :=
  try_finally
    (exec emit (EvGet (url +:+ "/api/version") key) in
     let r :=
       match outcome with
       | VerifyClientError => inl ClientError
       | VerifyOtherError msg => inl (OtherError msg)
       | VerifyReply status body => verify_body status body
       end in
     exec (match outcome with
           | VerifyReply _ _ => emit EvCloseResponse
           | _ => ret tt
           end) in
     match r with
     | inr data => ret data
     | inl ClientError =>
         raise (HTTPException 500 "Open WebUI: Server Connection Error")
     | inl (OtherError msg) =>
         raise (HTTPException 500 ("Unexpected error: " +:+ msg))
     end)
    (emit EvCloseSession).

(** ** Measures used in the statements *)

(** The number of backend indices a dictionary of records holds. *)
Definition url_count (d : OD.t) : nat := sum_list_with (λ e, length (urls e.2)) d.

(** [s] holds no line feed. *)
Fixpoint one_line (s : string) : bool :=
  match s with
  | EmptyString => true
  | String c s' => negb (bool_decide (c = "010"%char)) && one_line s'
  end.

(** ** More registries for the examples *)

(** A registry of two backends whose versions have the same tuple. *)
Definition tied_state : AppState :=
  mkState (Some true) ["http://a"; "http://b"] ∅ ∅.

Definition tied_env : Env :=
  {| env_get := λ url _,
       if bool_decide (url = "http://a/api/version")
       then GetJson (Some (mkResponse None (Some "1.2.0-rc1") None))
       else if bool_decide (url = "http://b/api/version")
       then GetJson (Some (mkResponse None (Some "v1.2.0") None))
       else GetFails;
     env_post := λ _ _ _, PostFails "unreachable";
     env_requests_get := λ _ _, PostFails "unreachable";
     env_random := 0;
     env_fromisoformat := λ _, None;
     env_base_url := λ url, url;
     env_get_model_by_id := λ _, None;
     env_has_access := λ _ _, false;
     env_apply_model_params := λ _ p, p;
     env_apply_system_prompt := λ _ p _ _, p;
     BYPASS_MODEL_ACCESS_CONTROL := false |}.

(** A backend that reports a version [int] cannot read. *)
Definition nightly_env : Env :=
  {| env_get := λ url _,
       if bool_decide (url = "http://a/api/version")
       then GetJson (Some (mkResponse None (Some "v1.2.0") None))
       else if bool_decide (url = "http://b/api/version")
       then GetJson (Some (mkResponse None (Some "nightly") None))
       else GetFails;
     env_post := λ _ _ _, PostFails "unreachable";
     env_requests_get := λ url _,
       if bool_decide (url = "http://a/api/version")
       then PostReply (mkReply 503 [] "busy" None)
       else PostFails "unreachable";
     env_random := 0;
     env_fromisoformat := λ _, None;
     env_base_url := λ url, url;
     env_get_model_by_id := λ _, None;
     env_has_access := λ _ _, false;
     env_apply_model_params := λ _ p, p;
     env_apply_system_prompt := λ _ p _ _, p;
     BYPASS_MODEL_ACCESS_CONTROL := false |}.

(** The store knows [name] as a model of user [owner], an alias of
    [base]; nobody else may read it. *)
Definition store_env (name owner : string) (base : option string) : Env :=
  {| env_get := λ _ _, GetFails;
     env_post := λ _ _ _, PostFails "unreachable";
     env_requests_get := λ _ _, PostFails "unreachable";
     env_random := 0;
     env_fromisoformat := λ _, None;
     env_base_url := λ url, url;
     env_get_model_by_id := λ id,
       if bool_decide (id = name) then Some (mkModelInfo base None owner None)
       else None;
     env_has_access := λ _ _, false;
     env_apply_model_params := λ _ p, p;
     env_apply_system_prompt := λ _ p _ _, p;
     BYPASS_MODEL_ACCESS_CONTROL := false |}.

(** ** A registry with an allow-list

    One backend with a key, the prefix [teamA] and the allow-list
    [llama3:latest].  It serves [phi:latest] and [llama3:latest] and has
    both loaded. *)

Definition curated_config : ApiConfig :=
  mkApiConfig None (Some "secret") None (Some "teamA") ["fast"] ["llama3:latest"].

Definition curated_state : AppState :=
  mkState (Some true) ["http://a"] {[ "0" := curated_config ]} ∅.

Definition loaded_model (name : string) : Model :=
  mkModel (Some name) [] [] None (Some (ExpIso "2026-01-01T00:00:00+00:00")) [].

Definition curated_env : Env :=
  {| env_get := λ url _,
       if bool_decide (url = "http://a/api/tags")
       then GetJson (Some (mkResponse
              (Some [runner_model "phi:latest"; runner_model "llama3:latest"])
              None None))
       else if bool_decide (url = "http://a/api/ps")
       then GetJson (Some (mkResponse
              (Some [loaded_model "phi:latest"; loaded_model "llama3:latest"])
              None None))
       else GetFails;
     env_post := λ _ _ _, PostFails "unreachable";
     env_requests_get := λ _ _, PostFails "unreachable";
     env_random := 0;
     env_fromisoformat := λ _, Some 1767225600%Z;
     env_base_url := λ url, url;
     env_get_model_by_id := λ _, None;
     env_has_access := λ _ _, false;
     env_apply_model_params := λ _ p, p;
     env_apply_system_prompt := λ _ p _ _, p;
     BYPASS_MODEL_ACCESS_CONTROL := false |}.

(** The curated registry, with a store that knows the catalog's model
    as a model of user 7. *)
Definition curated_store_env : Env :=
  {| env_get := env_get curated_env;
     env_post := λ _ _ _, PostFails "unreachable";
     env_requests_get := λ url key,
       if bool_decide (url = "http://a/api/tags")
       then PostReply (mkReply 401 [] "{}" (Some (JObject (mkResponse None None None))))
       else PostFails "unreachable";
     env_random := 0;
     env_fromisoformat := λ _, Some 1767225600%Z;
     env_base_url := λ url, url;
     env_get_model_by_id := λ id,
       if bool_decide (id = "teamA.llama3:latest")
       then Some (mkModelInfo None None "7" None)
       else None;
     env_has_access := λ _ _, false;
     env_apply_model_params := λ _ p, p;
     env_apply_system_prompt := λ _ p _ _, p;
     BYPASS_MODEL_ACCESS_CONTROL := false |}.

(** ** Version strings *)

(** [".".join(str(n) for n in ns)] *)
Fixpoint dotted (ns : list N) : string :=
  match ns with
  | [] => ""
  | n :: ns' =>
      match ns' with
      | [] => pretty n
      | _ :: _ => pretty n +:+ "." +:+ dotted ns'
      end
  end.

(** The version [s] reads as the components [ns]: dotted integers,
    after an optional [v] and before an optional suffix that starts
    with a dash. *)
Definition reads_as (s : string) (ns : list N) : Prop :=
  ns ≠ []
  ∧ ∃ pre suf,
      s = pre +:+ dotted ns +:+ suf
      ∧ (pre = "" ∨ pre = "v")
      ∧ (suf = "" ∨ ∃ t, suf = "-" +:+ t ∧ one_line t = true).

(** Every character of [s] is a decimal digit. *)
Fixpoint numeral (s : string) : bool :=
  match s with
  | EmptyString => true
  | String c s' => bool_decide (is_Some (Py.digit c)) && numeral s'
  end.

(** The three backends of [versions_state], the lowest version last and
    the highest first. *)
Definition shuffled_env : Env :=
  {| env_get := λ url _,
       if bool_decide (url = "http://a/api/version")
       then GetJson (Some (mkResponse None (Some "v1.10.0") None))
       else if bool_decide (url = "http://b/api/version")
       then GetJson (Some (mkResponse None (Some "1.2.5") None))
       else if bool_decide (url = "http://c/api/version")
       then GetJson (Some (mkResponse None (Some "v1.2.0-rc1") None))
       else GetFails;
     env_post := λ _ _ _, PostFails "unreachable";
     env_requests_get := λ _ _, PostFails "unreachable";
     env_random := 0;
     env_fromisoformat := λ _, None;
     env_base_url := λ url, url;
     env_get_model_by_id := λ _, None;
     env_has_access := λ _ _, false;
     env_apply_model_params := λ _ p, p;
     env_apply_system_prompt := λ _ p _ _, p;
     BYPASS_MODEL_ACCESS_CONTROL := false |}.

(** The registry of four backends with the API switched off. *)
Definition mixed_off_state : AppState :=
  mkState (Some false) ["http://a"; "http://b"; "http://c"; "http://d"]
    {[ "1" := mkApiConfig (Some false) None None None [] [] ]} ∅.

(** A backend whose tags an admin may see whole: the reply lists a
    model the store knows and one it does not. *)
Definition pinned_env : Env :=
  {| env_get := λ _ _, GetFails;
     env_post := λ _ _ _, PostFails "unreachable";
     env_requests_get := λ url key,
       if bool_decide (url = "http://a/api/tags")
       then PostReply
              (mkReply 200 [] "{...}"
                 (Some (JObject (mkResponse
                    (Some [runner_model "phi:latest"; runner_model "llama3:latest"])
                    None None))))
       else PostFails "unreachable";
     env_random := 0;
     env_fromisoformat := λ _, None;
     env_base_url := λ url, url;
     env_get_model_by_id := λ id,
       if bool_decide (id = "llama3:latest")
       then Some (mkModelInfo None None "7" None)
       else None;
     env_has_access := λ _ _, false;
     env_apply_model_params := λ _ p, p;
     env_apply_system_prompt := λ _ p _ _, p;
     BYPASS_MODEL_ACCESS_CONTROL := false |}.

(** * Properties *)


(** ** The ordered dictionary *)

Lemma OD_mem_lookup id d : OD.mem id d = true ↔ is_Some (OD.lookup id d).
Proof.
  unfold OD.mem. rewrite bool_decide_eq_true.
  induction d as [|[k v] d IH]; simpl.
  - split; [intros H; inversion H | intros [? ?]; done].
  - rewrite elem_of_cons. destruct (decide (k = id)) as [->|Hne].
    + split; eauto.
    + rewrite <- IH. split; [intros [?|?]; congruence || done | auto].
Qed.

Lemma OD_mem_false id d : OD.mem id d = false ↔ OD.lookup id d = None.
Proof.
  rewrite <- not_true_iff_false, OD_mem_lookup, <- eq_None_not_Some. done.
Qed.

Lemma OD_alter_keys f id d : (OD.alter f id d).*1 = d.*1.
Proof.
  induction d as [|[k v] d IH]; simpl; [done|].
  destruct (decide (k = id)); simpl; [done|by f_equal].
Qed.

Lemma OD_lookup_alter f id id' d :
  OD.lookup id' (OD.alter f id d)
  = if decide (id = id') then f <$> OD.lookup id' d else OD.lookup id' d.
Proof.
  induction d as [|[k v] d IH]; simpl.
  - by destruct (decide (id = id')).
  - destruct (decide (k = id)); simpl; [|rewrite IH];
      repeat case_decide; simplify_eq; done.
Qed.

Lemma OD_lookup_add id id' v d :
  OD.lookup id' (OD.add id v d)
  = match OD.lookup id' d with
    | Some x => Some x
    | None => if decide (id = id') then Some v else None
    end.
Proof.
  unfold OD.add. induction d as [|[k w] d IH]; simpl; [done|].
  by destruct (decide (k = id')).
Qed.

Lemma OD_elem_lookup k v d :
  NoDup d.*1 → (k, v) ∈ d ↔ OD.lookup k d = Some v.
Proof.
  induction d as [|[k' v'] d IH]; simpl; intros Hnd.
  - split; [intros H; inversion H | done].
  - apply NoDup_cons in Hnd as [Hnotin Hnd]. rewrite elem_of_cons.
    destruct (decide (k' = k)) as [->|Hne].
    + split; [|intros [= ->]; by left].
      intros [[= ->]|Hin]; [done|].
      destruct Hnotin. apply list_elem_of_fmap. by exists (k, v).
    + rewrite <- IH by done. split; [intros [[= ? ?]|?]; done | auto].
Qed.

(** ** The merge, entry by entry *)

Lemma foldl_merge_model idx d l :
  foldl (merge_model idx) d l = foldl merge_step d (pair idx <$> l).
Proof. revert d. induction l as [|m l IH]; intros d; simpl; [done|]. apply IH. Qed.

Lemma merge_fold_gen (g : nat → nat) lists d :
  foldl merge_model_list d (imap (λ i, pair (g i)) lists)
  = foldl merge_step d
      (mjoin (imap (λ i ol, pair (g i) <$> default [] ol) lists)).
Proof.
  revert g d. induction lists as [|ol lists IH]; intros g d; [done|].
  rewrite !imap_cons. simpl. rewrite foldl_app.
  rewrite <- (IH (g ∘ S)). f_equal.
  unfold merge_model_list. simpl. destruct ol as [l|]; simpl; [|done].
  apply foldl_merge_model.
Qed.

Lemma merge_fold lists :
  foldl merge_model_list [] (imap pair lists)
  = foldl merge_step [] (exposures lists).
Proof. apply (merge_fold_gen (λ i, i)). Qed.

Lemma exposers_snoc id es e :
  exposers id (es ++ [e]) = exposers id es ++ (if exposes id e then [e.1] else []).
Proof.
  unfold exposers. rewrite filter_app, fmap_app. f_equal.
  destruct (exposes id e) eqn:E'.
  - by rewrite filter_cons_True.
  - rewrite filter_cons_False; [done|congruence].
Qed.

Lemma first_exposure_snoc id es e :
  first_exposure id (es ++ [e])
  = match first_exposure id es with
    | Some x => Some x
    | None => if exposes id e then Some e else None
    end.
Proof.
  unfold first_exposure. rewrite filter_app.
  destruct (filter _ es) as [|x xs] eqn:E; simpl; [|done].
  destruct (exposes id e) eqn:E'.
  - by rewrite filter_cons_True.
  - rewrite filter_cons_False; [done|congruence].
Qed.

Lemma first_exposure_None id es :
  first_exposure id es = None → exposers id es = [].
Proof.
  unfold first_exposure, exposers. by destruct (filter _ es).
Qed.

Lemma merged_record_snoc_other id es e :
  exposes id e = false → merged_record id (es ++ [e]) = merged_record id es.
Proof.
  intros H. unfold merged_record.
  rewrite first_exposure_snoc, exposers_snoc, H, app_nil_r.
  by destruct (first_exposure id es).
Qed.

Lemma merge_char es :
  NoDup (foldl merge_step [] es).*1
  ∧ ∀ id, OD.lookup id (foldl merge_step [] es) = merged_record id es.
Proof.
  induction es as [|[idx m] es [IHnd IH]] using rev_ind; [split; [constructor|done]|].
  rewrite foldl_app. set (d := foldl merge_step [] es) in *. simpl.
  replace (merge_step d (idx, m)) with (merge_model idx d m) by done.
  unfold merge_model.
  destruct (model m) as [k|] eqn:Hm.
  2:{ split; [done|]. intros id. rewrite merged_record_snoc_other; [apply IH|].
      unfold exposes. simpl. rewrite Hm. by apply bool_decide_eq_false. }
  assert (Hother : ∀ id, k ≠ id → exposes id (idx, m) = false).
  { intros id Hne. unfold exposes. simpl. rewrite Hm.
    apply bool_decide_eq_false. congruence. }
  assert (Hself : exposes k (idx, m) = true).
  { unfold exposes. simpl. by apply bool_decide_eq_true. }
  destruct (OD.mem k d) eqn:Hmem.
  - split; [by rewrite OD_alter_keys|]. intros id.
    rewrite OD_lookup_alter. destruct (decide (k = id)) as [<-|Hne].
    + rewrite IH. unfold merged_record.
      rewrite first_exposure_snoc, exposers_snoc, Hself.
      apply OD_mem_lookup in Hmem as [r Hr]. rewrite IH in Hr.
      unfold merged_record in Hr.
      destruct (first_exposure k es) as [e0|]; [|done]. done.
    + rewrite merged_record_snoc_other by auto. apply IH.
  - apply OD_mem_false in Hmem as Hnone. split.
    + unfold OD.add. rewrite fmap_app. apply NoDup_app. split; [done|].
      split; [|apply NoDup_singleton].
      intros x Hx. simpl. rewrite list_elem_of_singleton. intros ->.
      assert (OD.mem k d = true) as Ht; [|congruence].
      unfold OD.mem. by apply bool_decide_eq_true.
    + intros id. rewrite OD_lookup_add. destruct (decide (k = id)) as [<-|Hne].
      * rewrite Hnone. rewrite IH in Hnone. unfold merged_record in *.
        rewrite first_exposure_snoc, exposers_snoc, Hself.
        destruct (first_exposure k es) eqn:Hf; [done|].
        by rewrite (first_exposure_None _ _ Hf).
      * rewrite merged_record_snoc_other by auto. rewrite IH.
        by destruct (merged_record id es).
Qed.

(** ** The entries in enumeration order *)

Lemma elem_of_exposures lists e :
  e ∈ exposures lists ↔ ∃ l, lists !! e.1 = Some (Some l) ∧ e.2 ∈ l.
Proof.
  unfold exposures. rewrite list_elem_of_join. split.
  - intros (es & He & Hes). apply elem_of_lookup_imap in Hes as (i & ol & -> & Hi).
    apply list_elem_of_fmap in He as (m & -> & Hm). simpl.
    destruct ol as [l|]; simpl in Hm; [eauto|inversion Hm].
  - intros (l & Hl & He). exists (pair e.1 <$> l). split.
    + apply list_elem_of_fmap. exists e.2. by destruct e.
    + apply elem_of_lookup_imap. by exists e.1, (Some l).
Qed.

Lemma StronglySorted_const (x : nat) l :
  Forall (eq x) l → StronglySorted le l.
Proof.
  induction 1 as [|y l <- Hl IH]; constructor; [done|].
  eapply Forall_impl; [exact Hl|]. intros ? <-. done.
Qed.

Lemma exposures_sorted_gen (g : nat → nat) (lists : list (option (list Model))) :
  (∀ i j, (i ≤ j)%nat → (g i ≤ g j)%nat) →
  StronglySorted le (mjoin (imap (λ i ol, pair (g i) <$> default [] ol) lists)).*1
  ∧ Forall (le (g 0)) (mjoin (imap (λ i ol, pair (g i) <$> default [] ol) lists)).*1.
Proof.
  revert g. induction lists as [|ol lists IH]; intros g Hg.
  { split; constructor. }
  rewrite imap_cons. simpl. rewrite fmap_app.
  destruct (IH (g ∘ S)) as [IH1 IH2]; [intros; simpl; apply Hg; lia|].
  assert (Hfst : Forall (eq (g 0)) (pair (g 0) <$> default [] ol).*1).
  { rewrite <- list_fmap_compose. apply Forall_fmap. by apply Forall_true. }
  assert (Hrest : Forall (le (g 0))
            (mjoin (imap ((λ i ol, pair (g i) <$> default [] ol) ∘ S) lists)).*1).
  { eapply Forall_impl; [exact IH2|]. intros j Hj. simpl in Hj.
    etrans; [|exact Hj]. apply Hg. lia. }
  split.
  - apply StronglySorted_app_2; [|by apply (StronglySorted_const (g 0))|done].
    intros x1 x2 H1 H2. rewrite Forall_forall in Hfst, Hrest.
    rewrite <- (Hfst _ H1). by apply Hrest.
  - apply Forall_app. split; [|done].
    eapply Forall_impl; [exact Hfst|]. by intros ? <-.
Qed.

Lemma exposures_sorted lists : StronglySorted le (exposures lists).*1.
Proof. apply (exposures_sorted_gen (λ i, i)). auto. Qed.

Lemma StronglySorted_filter_fst (P : nat * Model → Prop)
    `{!∀ e, Decision (P e)} (es : list (nat * Model)) :
  StronglySorted le es.*1 → StronglySorted le (filter P es).*1.
Proof.
  induction es as [|e es IH]; simpl; [done|].
  rewrite StronglySorted_cons. intros [Hall Hs].
  destruct (decide (P e)).
  - rewrite filter_cons_True by done. simpl. constructor; [by apply IH|].
    rewrite Forall_forall in Hall. apply Forall_forall. intros j Hj.
    apply Hall. apply list_elem_of_fmap in Hj as (e' & -> & He').
    apply list_elem_of_filter in He' as [_ He'].
    apply list_elem_of_fmap. eauto.
  - rewrite filter_cons_False by done. by apply IH.
Qed.

(** The first exposer is the least index among the exposers. *)
Lemma exposers_first_least id lists idx later :
  exposers id (exposures lists) = idx :: later → Forall (le idx) later.
Proof.
  intros H.
  pose proof (StronglySorted_filter_fst (λ e, exposes id e = true) _
                (exposures_sorted lists)) as Hs.
  unfold exposers in H. rewrite H in Hs.
  by apply StronglySorted_cons in Hs as [? _].
Qed.

Lemma first_exposure_Some id es e :
  first_exposure id es = Some e →
  e ∈ es ∧ model e.2 = Some id ∧ ∃ later, exposers id es = e.1 :: later.
Proof.
  unfold first_exposure, exposers. intros H.
  apply head_Some in H as [l' Hl]. rewrite Hl. split_and!; [| |by eexists].
  - assert (e ∈ filter (λ e, exposes id e = true) es) as Hin by (rewrite Hl; left).
    by apply list_elem_of_filter in Hin as [_ ?].
  - assert (e ∈ filter (λ e, exposes id e = true) es) as Hin by (rewrite Hl; left).
    apply list_elem_of_filter in Hin as [Hp _]. by apply bool_decide_eq_true in Hp.
Qed.

Lemma elem_of_exposers id es j :
  j ∈ exposers id es ↔ ∃ m, (j, m) ∈ es ∧ model m = Some id.
Proof.
  unfold exposers. rewrite list_elem_of_fmap. split.
  - intros ([j' m] & -> & Hin). apply list_elem_of_filter in Hin as [Hp Hin].
    apply bool_decide_eq_true in Hp. eauto.
  - intros (m & Hin & Hm). exists (j, m). split; [done|].
    apply list_elem_of_filter. split; [|done]. by apply bool_decide_eq_true.
Qed.

Lemma first_exposure_is_Some id es e :
  e ∈ es → model e.2 = Some id → is_Some (first_exposure id es).
Proof.
  intros Hin Hm. unfold first_exposure.
  assert (e ∈ filter (λ e, exposes id e = true) es) as Hf.
  { apply list_elem_of_filter. split; [|done]. by apply bool_decide_eq_true. }
  destruct (filter _ es); [inversion Hf|]. simpl. eauto.
Qed.

(** ** The merged list *)

Lemma merged_record_name id es r :
  merged_record id es = Some r → model r = Some id.
Proof.
  unfold merged_record. destruct (first_exposure id es) as [e|] eqn:He; [|done].
  intros [= <-]. simpl. by apply first_exposure_Some in He as (_ & ? & _).
Qed.

Lemma elem_of_merge_models_lists lists r :
  r ∈ merge_models_lists lists
  ↔ ∃ id, merged_record id (exposures lists) = Some r.
Proof.
  unfold merge_models_lists, OD.values. rewrite merge_fold.
  destruct (merge_char (exposures lists)) as [Hnd Hl].
  rewrite list_elem_of_fmap. split.
  - intros ([k v] & -> & Hin). exists k. rewrite <- Hl. by apply OD_elem_lookup.
  - intros (id & Hr). exists (id, r). split; [done|].
    apply OD_elem_lookup; [done|]. by rewrite Hl.
Qed.

Lemma merge_models_lists_names lists :
  model <$> merge_models_lists lists
  = Some <$> (foldl merge_step [] (exposures lists)).*1.
Proof.
  unfold merge_models_lists, OD.values. rewrite merge_fold.
  destruct (merge_char (exposures lists)) as [Hnd Hl].
  rewrite <- !list_fmap_compose. apply list_fmap_ext.
  intros i [k v] Hi. simpl.
  apply (merged_record_name _ (exposures lists)). rewrite <- Hl.
  apply OD_elem_lookup; [done|]. apply list_elem_of_lookup. eauto.
Qed.

Lemma merge_models_lists_NoDup lists : NoDup (model <$> merge_models_lists lists).
Proof.
  rewrite merge_models_lists_names. apply NoDup_fmap_2; [apply _|].
  apply merge_char.
Qed.

Lemma merged_record_Some id es r :
  merged_record id es = Some r ↔
  ∃ idx m later, first_exposure id es = Some (idx, m)
    ∧ exposers id es = idx :: later ∧ r = set_urls (idx :: later) m.
Proof.
  unfold merged_record. split.
  - destruct (first_exposure id es) as [[idx m]|] eqn:He; [|done].
    intros [= <-]. destruct (first_exposure_Some _ _ _ He) as (_ & _ & later & Hl).
    exists idx, m, later. simpl in *. by rewrite Hl.
  - intros (idx & m & later & -> & -> & ->). done.
Qed.

Lemma merge_models_lists_exposed lists id :
  Some id ∈ model <$> merge_models_lists lists
  ↔ ∃ idx l m, lists !! idx = Some (Some l) ∧ m ∈ l ∧ model m = Some id.
Proof.
  rewrite list_elem_of_fmap. split.
  - intros (r & Hid & Hr). apply elem_of_merge_models_lists in Hr as (id' & Hr).
    pose proof (merged_record_name _ _ _ Hr) as Hn.
    assert (id' = id) as -> by congruence.
    apply merged_record_Some in Hr as (idx & m & later & Hf & _ & _).
    apply first_exposure_Some in Hf as (Hin & Hm & _).
    apply elem_of_exposures in Hin as (l & Hl & Hml). by exists idx, l, m.
  - intros (idx & l & m & Hl & Hm & Hid).
    assert ((idx, m) ∈ exposures lists) as Hin.
    { apply elem_of_exposures. by exists l. }
    destruct (first_exposure_is_Some id _ _ Hin Hid) as [e He].
    exists (set_urls (exposers id (exposures lists)) e.2). split.
    + simpl. by apply first_exposure_Some in He as (_ & -> & _).
    + apply elem_of_merge_models_lists. exists id. unfold merged_record. by rewrite He.
Qed.

(** C1.  Merging yields one record per model name.  The record of a
    name is the first entry of that name in enumeration order (the
    first backend of the registry that exposes it), with all its
    members as that backend sent them except [urls]; [urls] lists the
    backends that expose the name, the first one first and every later
    one appended in registry order. *)
Theorem merge_models_lists_first_wins (model_lists : list (option (list Model))) :
  let merged := merge_models_lists model_lists in
  let es := exposures model_lists in
  NoDup (model <$> merged)
  ∧ (∀ id, Some id ∈ model <$> merged
       ↔ ∃ idx l m, model_lists !! idx = Some (Some l) ∧ m ∈ l ∧ model m = Some id)
  ∧ (∀ r, r ∈ merged →
       ∃ id idx m later,
         model r = Some id
         ∧ first_exposure id es = Some (idx, m)
         ∧ exposers id es = idx :: later
         ∧ Forall (le idx) later
         ∧ r = set_urls (idx :: later) m).
Proof.
  intros merged es. split_and!.
  - apply merge_models_lists_NoDup.
  - apply merge_models_lists_exposed.
  - intros r Hr. apply elem_of_merge_models_lists in Hr as (id & Hr).
    pose proof (merged_record_name _ _ _ Hr) as Hn.
    apply merged_record_Some in Hr as (idx & m & later & Hf & He & ->).
    exists id, idx, m, later. split_and!; try done.
    by apply (exposers_first_least id model_lists).
Qed.

Example merge_backends_1_3 :
  merge_models_lists
    [Some [runner_model "phi"]; Some [set_tags ["a"] (runner_model "llama3")]; None; Some [set_tags ["b"] (runner_model "llama3")]]
  = [set_urls [0] (runner_model "phi"); set_urls [1; 3] (set_tags ["a"] (runner_model "llama3"))].
Proof. reflexivity. Qed.


Lemma elem_of_index_keys k n :
  k ∈ index_keys n ↔ ∃ i, (i < n)%nat ∧ k = Py.str (Z.of_nat i).
Proof.
  unfold index_keys. rewrite list_elem_of_fmap. split.
  - intros (i & -> & Hi). apply elem_of_seq in Hi. exists i. split; [lia|done].
  - intros (i & Hi & ->). exists i. split; [done|]. apply elem_of_seq. lia.
Qed.

(** C8.  A configuration update takes the new URL list and flag as
    they are and retains exactly the entries of the configuration
    mapping whose key is [str(i)] for an index [i] below the length of
    the new URL list.  Every other entry is dropped, and no key makes
    the update fail: it is a total function. *)
Theorem update_config_prunes_stale_keys (st : AppState)
    (form_data : DockerModelRunnerConfigForm) :
  let st' := update_config st form_data in
  let n := length (form_DOCKER_MODEL_RUNNER_BASE_URLS form_data) in
  DOCKER_MODEL_RUNNER_BASE_URLS st' = form_DOCKER_MODEL_RUNNER_BASE_URLS form_data
  ∧ ENABLE_DOCKER_MODEL_RUNNER_API st'
    = form_ENABLE_DOCKER_MODEL_RUNNER_API form_data
  ∧ ∀ k v,
      DOCKER_MODEL_RUNNER_API_CONFIGS st' !! k = Some v
      ↔ form_DOCKER_MODEL_RUNNER_API_CONFIGS form_data !! k = Some v
        ∧ ∃ i, (i < n)%nat ∧ k = Py.str (Z.of_nat i).
Proof.
  intros st' n. split_and!; [done..|].
  intros k v. unfold st', update_config. simpl.
  rewrite map_lookup_filter_Some. simpl. by rewrite elem_of_index_keys.
Qed.




(** Two URLs: the entries under ["0"] and ["1"] stay; the entries under
    ["2"], under ["01"] and under a URL go. *)
Example update_config_keeps_two :
  let off := mkApiConfig (Some false) None None None [] [] in
  let form := mkConfigForm (Some true) ["http://a"; "http://b"]
                (<["0" := empty_config]> (<["2" := empty_config]>
                  (<["01" := empty_config]> (<["http://a" := empty_config]>
                    {[ "1" := off ]})))) in
  let configs := DOCKER_MODEL_RUNNER_API_CONFIGS
                   (update_config (mkState None [] ∅ ∅) form) in
  configs !! "0" = Some empty_config
  ∧ configs !! "1" = Some off
  ∧ configs !! "2" = None
  ∧ configs !! "01" = None
  ∧ configs !! "http://a" = None.
Proof. split_and!; vm_compute; reflexivity. Qed.

Lemma send_get_request_run env url key log :
  send_get_request env url key log
  = (Ok (get_value env url key), log ++ [EvGet url key]).
Proof.
  unfold send_get_request, get_value, bind, emit, try_except, ret, raise.
  by destruct (env_get env url key).
Qed.

Lemma call_task_run env c log :
  call_task env c log = (Ok (call_result env c), log ++ call_events [c]).
Proof.
  destruct c as [c|]; simpl.
  - apply send_get_request_run.
  - unfold ret, call_events. simpl. by rewrite app_nil_r.
Qed.

Lemma call_events_cons c cs :
  call_events (c :: cs) = call_events [c] ++ call_events cs.
Proof. unfold call_events. destruct c; done. Qed.

Lemma gather_call_tasks env cs log :
  gather (call_task env <$> cs) log
  = (Ok (call_result env <$> cs), log ++ call_events cs).
Proof.
  revert log. induction cs as [|c cs IH]; intros log; simpl.
  - unfold ret, call_events. simpl. by rewrite app_nil_r.
  - unfold bind at 1. rewrite call_task_run. unfold bind at 1. rewrite IH.
    unfold ret. by rewrite (call_events_cons c cs), app_assoc.
Qed.

Lemma request_task_planned env st path e :
  request_task env (DOCKER_MODEL_RUNNER_API_CONFIGS st) path e
  = call_task env (planned_call st path e).
Proof.
  unfold request_task, planned_call, backend_config, config_for, has_key.
  destruct (DOCKER_MODEL_RUNNER_API_CONFIGS st !! Py.str (Z.of_nat e.1)) as [c1|] eqn:H1;
    simpl.
  - by destruct (enabled c1).
  - destruct (DOCKER_MODEL_RUNNER_API_CONFIGS st !! e.2) as [c2|] eqn:H2; simpl.
    + by destruct (enabled c2).
    + done.
Qed.

Lemma gather_request_tasks env st path log :
  gather (request_tasks env st path) log
  = (Ok (call_result env <$> planned_calls st path),
     log ++ call_events (planned_calls st path)).
Proof.
  unfold request_tasks, planned_calls. rewrite <- gather_call_tasks.
  f_equal. rewrite <- list_fmap_compose. apply list_fmap_ext.
  intros i e _. apply request_task_planned.
Qed.

Lemma version_tasks_planned env st :
  version_tasks env st
  = call_task env <$> (Some <$> omap id (planned_calls st "/api/version")).
Proof.
  unfold version_tasks, planned_calls, planned_call, backend_config.
  induction (enumerate (DOCKER_MODEL_RUNNER_BASE_URLS st)) as [|e l IH]; [done|].
  csimpl. rewrite IH. by destruct (enabled _).
Qed.

Lemma call_result_Some env (cs : list (string * option string)) :
  call_result env <$> (Some <$> cs) = (λ c, get_value env c.1 c.2) <$> cs.
Proof. rewrite <- list_fmap_compose. by apply list_fmap_ext. Qed.

Lemma call_events_Some (cs : list (string * option string)) : call_events (Some <$> cs) = (λ c, EvGet c.1 c.2) <$> cs.
Proof.
  unfold call_events. f_equal. induction cs as [|c cs IH]; [done|].
  csimpl. by rewrite IH.
Qed.

Lemma get_versions_unpinned_run env st log :
  get_versions_unpinned env st log
  = match version_responses env st with
    | [] => (Raise (HTTPException 500 "Docker Model Runner not found"),
             log ++ version_events st)
    | rs => match lowest_version rs (log ++ version_events st) with
            | (Ok lowest, log') => (Ok (VersionIs (version lowest)), log')
            | (Raise e, log') => (Raise e, log')
            end
    end.
Proof.
  unfold get_versions_unpinned.
  unfold bind at 1. rewrite version_tasks_planned, gather_call_tasks.
  rewrite call_result_Some, call_events_Some.
  fold (version_responses env st). fold (version_events st).
  destruct (version_responses env st) as [|r rs]; [done|].
  simpl. unfold bind. by destruct (lowest_version _ _) as [[?|?] ?].
Qed.

(** With the API switched on, [get_versions] without an index is the
    unpinned branch; switched off, it answers [{"version": False}] and
    asks nobody. *)
Lemma get_versions_enabled env st :
  flag (ENABLE_DOCKER_MODEL_RUNNER_API st) = true →
  get_versions env st None = get_versions_unpinned env st.
Proof. intros H. unfold get_versions. by rewrite H. Qed.

Lemma get_versions_disabled env st url_idx log :
  flag (ENABLE_DOCKER_MODEL_RUNNER_API st) = false →
  get_versions env st url_idx log = (Ok VersionFalse, log).
Proof. intros H. unfold get_versions. by rewrite H. Qed.

(** ** Tuple order and [min] *)

Lemma tuple_lt_irrefl a : Py.tuple_lt a a = false.
Proof.
  induction a as [|x a IH]; [done|]. simpl.
  by rewrite Z.ltb_irrefl.
Qed.

Lemma tuple_lt_trans a b c :
  Py.tuple_lt a b = true → Py.tuple_lt b c = true → Py.tuple_lt a c = true.
Proof.
  revert b c. induction a as [|x a IH]; intros [|y b] [|z c]; simpl; try done.
  destruct (Z.ltb_spec x y), (Z.ltb_spec y x), (Z.ltb_spec y z),
    (Z.ltb_spec z y), (Z.ltb_spec x z), (Z.ltb_spec z x);
    try done; try lia.
  apply IH.
Qed.

Lemma tuple_lt_total a b :
  Py.tuple_lt a b = false → Py.tuple_lt b a = false → a = b.
Proof.
  revert b. induction a as [|x a IH]; intros [|y b]; simpl; try done.
  destruct (Z.ltb_spec x y), (Z.ltb_spec y x); try done; try lia.
  intros. f_equal; [lia|auto].
Qed.

Lemma min_from_spec {A} (best : A * list Z) (l : list (A * list Z)) :
  ∃ p, p ∈ best :: l ∧ Py.min_from best l = p.1
       ∧ ∀ q, q ∈ best :: l → Py.tuple_lt q.2 p.2 = false.
Proof.
  revert best. induction l as [|x l IH]; intros best; simpl.
  - exists best. split_and!; [left|done|].
    intros q ->%list_elem_of_singleton. apply tuple_lt_irrefl.
  - destruct (Py.tuple_lt x.2 best.2) eqn:Hlt.
    + destruct (IH x) as (p & Hp & Hmin & Hle). exists p. split_and!; [by right|done|].
      intros q [->|Hq]%elem_of_cons; [|by apply Hle].
      assert (Py.tuple_lt x.2 p.2 = false) as Hxp by (apply Hle; left).
      destruct (Py.tuple_lt best.2 p.2) eqn:Hbp; [|done].
      by rewrite (tuple_lt_trans _ _ _ Hlt Hbp) in Hxp.
    + destruct (IH best) as (p & Hp & Hmin & Hle). exists p. split_and!; [|done|].
      * apply elem_of_cons in Hp as [->|Hp]; [left|right; by right].
      * intros q [->|[->|Hq]%elem_of_cons]%elem_of_cons.
        -- apply Hle. left.
        -- destruct (Py.tuple_lt x.2 p.2) eqn:Hxp; [|done].
           assert (Py.tuple_lt best.2 p.2 = false) as Hbp by (apply Hle; left).
           destruct (Py.tuple_lt p.2 best.2) eqn:Hpb.
           ++ by rewrite (tuple_lt_trans _ _ _ Hxp Hpb) in Hlt.
           ++ rewrite (tuple_lt_total _ _ Hbp Hpb) in Hlt. congruence.
        -- apply Hle. by right.
Qed.

Lemma elem_of_enumerate {A} (l : list A) (e : nat * A) :
  e ∈ enumerate l ↔ l !! e.1 = Some e.2.
Proof.
  unfold enumerate. rewrite elem_of_lookup_imap. split.
  - by intros (i & x & -> & Hi).
  - intros H. exists e.1, e.2. by destruct e.
Qed.

Lemma elem_of_planned_calls st path c :
  Some c ∈ planned_calls st path ↔
  ∃ e, DOCKER_MODEL_RUNNER_BASE_URLS st !! e.1 = Some e.2
       ∧ enabled (backend_config st e) = true
       ∧ c = (e.2 +:+ path, cfg_key (backend_config st e)).
Proof.
  unfold planned_calls. rewrite list_elem_of_fmap.
  setoid_rewrite elem_of_enumerate. unfold planned_call. split.
  - intros (e & Hc & He). exists e. destruct (enabled _); [|done].
    by simplify_eq.
  - intros (e & He & Hen & ->). exists e. by rewrite Hen.
Qed.

Lemma elem_of_version_responses env st x :
  x ∈ version_responses env st ↔
  ∃ e, DOCKER_MODEL_RUNNER_BASE_URLS st !! e.1 = Some e.2
       ∧ enabled (backend_config st e) = true
       ∧ get_value env (e.2 +:+ "/api/version") (cfg_key (backend_config st e))
         = Some x.
Proof.
  unfold version_responses. rewrite list_elem_of_omap.
  setoid_rewrite list_elem_of_fmap. setoid_rewrite list_elem_of_omap.
  split.
  - intros (ox & (c & -> & oc & Hoc & Hid) & Hx). simpl in *. subst oc.
    apply elem_of_planned_calls in Hoc as (e & He & Hen & ->). by exists e.
  - intros (e & He & Hen & Hx). exists (Some x). split; [|done].
    exists (e.2 +:+ "/api/version", cfg_key (backend_config st e)).
    split; [done|]. exists (Some (e.2 +:+ "/api/version", cfg_key (backend_config st e))).
    split; [|done]. apply elem_of_planned_calls. by exists e.
Qed.

Lemma lowest_version_run rs log :
  rs ≠ [] →
  Forall (λ x, is_Some (version_key x)) rs →
  ∃ x kx, lowest_version rs log = (Ok x, log) ∧ x ∈ rs ∧ version_key x = Some kx
    ∧ ∀ y ky, y ∈ rs → version_key y = Some ky → Py.tuple_lt ky kx = false.
Proof.
  intros Hne Hall. unfold lowest_version.
  assert (∃ keyed, mapM (λ x, pair x <$> version_key x) rs = Some keyed
                   ∧ Forall2 (λ x p, p.1 = x ∧ version_key x = Some p.2) rs keyed)
    as (keyed & Hm & Hk).
  { destruct (mapM (λ x, pair x <$> version_key x) rs) as [keyed|] eqn:Hm.
    - exists keyed. split; [done|]. apply mapM_Some in Hm.
      eapply Forall2_impl; [exact Hm|]. intros x p Hp. simpl in Hp.
      destruct (version_key x); simplify_eq/=. done.
    - apply mapM_None in Hm. apply Exists_exists in Hm as (x & Hx & Hn).
      rewrite Forall_forall in Hall. destruct (Hall x Hx) as [k Hk].
      rewrite Hk in Hn. done. }
  rewrite Hm. destruct keyed as [|k ks].
  { apply Forall2_nil_inv_r in Hk. done. }
  destruct (min_from_spec k ks) as (p & Hp & Hmin & Hle).
  exists p.1, p.2. unfold ret. rewrite Hmin. split_and!; [done| | |].
  - apply list_elem_of_lookup in Hp as [i Hi].
    destruct (Forall2_lookup_r _ _ _ _ _ Hk Hi) as (x & Hx & <- & _).
    apply list_elem_of_lookup. eauto.
  - apply list_elem_of_lookup in Hp as [i Hi].
    destruct (Forall2_lookup_r _ _ _ _ _ Hk Hi) as (x & Hx & <- & Hkx). done.
  - intros y ky Hy Hky. apply list_elem_of_lookup in Hy as [i Hi].
    destruct (Forall2_lookup_l _ _ _ _ _ Hk Hi) as (q & Hq & <- & Hkq).
    assert (q.2 = ky) as <- by congruence.
    apply Hle. apply list_elem_of_lookup. eauto.
Qed.

(** The backends report [v1.2.0], [v1.10.0] and [v1.2.5]: the lowest is
    [v1.2.0], where the order of strings would give [v1.10.0]. *)
Example lowest_of_three_versions :
  get_versions versions_env versions_state None []
  = (Ok (VersionIs (Some "v1.2.0")),
     [EvGet "http://a/api/version" None; EvGet "http://b/api/version" None;
      EvGet "http://c/api/version" None]).
Proof. vm_compute. reflexivity. Qed.

(** C9, as stated, fails.  Every backend of the registry is enabled
    and none answers, but the API is switched off: the query asks
    nobody and answers [{"version": False}] instead of raising. *)
Lemma get_versions_switched_off_returns_false :
  (∀ idx url,
     DOCKER_MODEL_RUNNER_BASE_URLS switched_off_state !! idx = Some url →
     enabled (backend_config switched_off_state (idx, url)) = true
     ∧ get_value offline_env (url +:+ "/api/version")
         (cfg_key (backend_config switched_off_state (idx, url))) = None)
  ∧ get_versions offline_env switched_off_state None [] = (Ok VersionFalse, []).
Proof. split; [|reflexivity]. intros idx url _. split; reflexivity. Qed.

(** C9, amended.  With the API switched on, when the version fetch of
    every enabled backend yields [None], the unpinned version query
    raises an [HTTPException] with status 500. *)
Theorem get_versions_all_unreachable (env : Env) (st : AppState)
    (log : list event) :
  flag (ENABLE_DOCKER_MODEL_RUNNER_API st) = true →
  (∀ idx url,
     DOCKER_MODEL_RUNNER_BASE_URLS st !! idx = Some url →
     enabled (backend_config st (idx, url)) = true →
     get_value env (url +:+ "/api/version")
       (cfg_key (backend_config st (idx, url))) = None) →
  get_versions env st None log
  = (Raise (HTTPException 500 "Docker Model Runner not found"),
     log ++ version_events st).
Proof.
  intros Hen Hnull. rewrite get_versions_enabled, get_versions_unpinned_run by done.
  destruct (version_responses env st) as [|r rs] eqn:Hrs; [done|].
  assert (r ∈ version_responses env st) as Hr by (rewrite Hrs; left).
  apply elem_of_version_responses in Hr as ([idx url] & Hu & He & Hv).
  simpl in *. rewrite (Hnull idx url Hu He) in Hv. done.
Qed.

Lemma get_versions_all_unreachable_witness :
  flag (ENABLE_DOCKER_MODEL_RUNNER_API versions_state) = true
  ∧ get_versions offline_env versions_state None []
    = (Raise (HTTPException 500 "Docker Model Runner not found"),
       [] ++ version_events versions_state).
Proof.
  split; [reflexivity|].
  apply (get_versions_all_unreachable offline_env versions_state []).
  - reflexivity.
  - intros idx url _ _. reflexivity.
Defined.

(** ** The refresh as a function of the environment *)

Lemma get_loaded_models_run env st log :
  flag (ENABLE_DOCKER_MODEL_RUNNER_API st) = true →
  get_loaded_models env st log
  = (Ok (loaded_of env st), log ++ call_events (planned_calls st "/api/ps")).
Proof.
  intros Hen. unfold get_loaded_models. rewrite Hen.
  unfold bind. by rewrite gather_request_tasks.
Qed.

Lemma get_all_models_run env st log :
  get_all_models env st log
  = (Ok (catalog_of env st, set_MODELS (models_index (catalog_of env st)) st),
     log ++ refresh_events st).
Proof.
  unfold get_all_models, catalog_of, refresh_events.
  destruct (flag (ENABLE_DOCKER_MODEL_RUNNER_API st)) eqn:Hen.
  - unfold bind at 1. unfold bind at 1. rewrite gather_request_tasks.
    unfold bind at 1. unfold try_except, bind at 1.
    rewrite get_loaded_models_run by done. unfold ret. by rewrite app_assoc.
  - unfold bind, ret. by rewrite app_nil_r.
Qed.

(** ** Slots of the gathered responses *)

Lemma lookup_enumerate {A} (l : list A) i : enumerate l !! i = pair i <$> l !! i.
Proof. unfold enumerate. apply list_lookup_imap. Qed.

Lemma length_enumerate {A} (l : list A) : length (enumerate l) = length l.
Proof. unfold enumerate. apply length_imap. Qed.

Lemma length_fetched env st path :
  length (fetched env st path) = length (DOCKER_MODEL_RUNNER_BASE_URLS st).
Proof.
  unfold fetched, planned_calls. by rewrite !length_fmap, length_enumerate.
Qed.

Lemma lookup_fetched env st path idx :
  fetched env st path !! idx
  = (λ url, if enabled (backend_config st (idx, url))
            then get_value env (url +:+ path) (cfg_key (backend_config st (idx, url)))
            else None)
    <$> DOCKER_MODEL_RUNNER_BASE_URLS st !! idx.
Proof.
  unfold fetched, planned_calls. rewrite !list_lookup_fmap, lookup_enumerate.
  destruct (DOCKER_MODEL_RUNNER_BASE_URLS st !! idx) as [url|]; [|done].
  simpl. unfold planned_call. simpl. by destruct (enabled _).
Qed.

Lemma lookup_transform_responses f st rs idx :
  transform_responses f st rs !! idx
  = url ← DOCKER_MODEL_RUNNER_BASE_URLS st !! idx;
    r ← rs !! idx;
    Some (match r with
          | Some response =>
              if response_truthy response
              then Some (f (backend_config st (idx, url)) response)
              else Some response
          | None => None
          end).
Proof.
  unfold transform_responses. rewrite list_lookup_fmap.
  rewrite lookup_zip_with, lookup_enumerate.
  destruct (DOCKER_MODEL_RUNNER_BASE_URLS st !! idx) as [url|]; [|done].
  simpl. by destruct (rs !! idx).
Qed.

Lemma response_truthy_set_models l r : response_truthy (set_models l r) = true.
Proof. done. Qed.

Lemma transform_response_truthy cfg r :
  response_truthy (transform_response cfg r) = response_truthy r.
Proof.
  unfold transform_response. destruct (models r) as [l|] eqn:Hm.
  - assert (response_truthy r = true) as ->.
    { unfold response_truthy. by rewrite Hm. }
    destruct (bool_decide (cfg_model_ids cfg = [])); simpl.
    + rewrite Hm. apply response_truthy_set_models.
    + apply response_truthy_set_models.
  - by rewrite Hm.
Qed.

(** A slot of [tags_lists] holds a list exactly for an enabled backend
    whose reply is a non-empty object. *)
Lemma lookup_tags_lists env st idx l :
  tags_lists env st !! idx = Some (Some l) ↔
  ∃ url response,
    DOCKER_MODEL_RUNNER_BASE_URLS st !! idx = Some url
    ∧ enabled (backend_config st (idx, url)) = true
    ∧ get_value env (url +:+ "/api/tags") (cfg_key (backend_config st (idx, url)))
      = Some response
    ∧ response_truthy response = true
    ∧ l = default [] (models (transform_response (backend_config st (idx, url))
                                response)).
Proof.
  unfold tags_lists. rewrite list_lookup_fmap, lookup_transform_responses.
  rewrite lookup_fetched.
  destruct (DOCKER_MODEL_RUNNER_BASE_URLS st !! idx) as [url|]; simpl.
  2:{ split; [done|]. by intros (? & ? & ? & _). }
  split.
  - destruct (enabled (backend_config st (idx, url))) eqn:Hen; [|done].
    destruct (get_value env _ _) as [response|] eqn:Hg; [|done].
    destruct (response_truthy response) eqn:Ht; simpl.
    + rewrite transform_response_truthy, Ht. intros [= <-].
      by exists url, response.
    + by rewrite Ht.
  - intros (url' & response & [= <-] & Hen & Hg & Ht & ->).
    rewrite Hen, Hg, Ht. simpl. by rewrite transform_response_truthy, Ht.
Qed.

Lemma length_tags_lists env st :
  length (tags_lists env st) = length (DOCKER_MODEL_RUNNER_BASE_URLS st).
Proof.
  unfold tags_lists, transform_responses.
  rewrite !length_fmap, length_zip_with_l_eq; [apply length_enumerate|].
  by rewrite length_enumerate, length_fetched.
Qed.

(** ** Expiry annotation keeps names and backends *)

Lemma annotate_expiry_keeps env em ms :
  Forall2 (λ a b, model a = model b ∧ urls a = urls b) ms (annotate_expiry env em ms).
Proof.
  induction ms as [|m ms IH]; simpl; [constructor|].
  destruct (model m ≫= _) as [e|].
  - destruct (epoch_of env e).
    + by constructor.
    + apply Forall2_same_length_lookup_2; [done|]. intros i a b Ha Hb.
      by simplify_eq.
  - by constructor.
Qed.

Lemma elem_of_annotate_expiry env em ms r :
  r ∈ annotate_expiry env em ms →
  ∃ r0, r0 ∈ ms ∧ model r = model r0 ∧ urls r = urls r0.
Proof.
  intros [i Hi]%list_elem_of_lookup.
  destruct (Forall2_lookup_r _ _ _ _ _ (annotate_expiry_keeps env em ms) Hi)
    as (r0 & Hr0 & Hm & Hu).
  exists r0. split_and!; [|done..]. apply list_elem_of_lookup. eauto.
Qed.

Lemma elem_of_annotate_expiry_2 env em ms r0 :
  r0 ∈ ms →
  ∃ r, r ∈ annotate_expiry env em ms ∧ model r = model r0 ∧ urls r = urls r0.
Proof.
  intros [i Hi]%list_elem_of_lookup.
  destruct (Forall2_lookup_l _ _ _ _ _ (annotate_expiry_keeps env em ms) Hi)
    as (r & Hr & Hm & Hu).
  exists r. split_and!; [|done..]. apply list_elem_of_lookup. eauto.
Qed.

(** ** Records of a merge and the backends they list *)

Lemma merge_models_lists_urls lists r idx :
  r ∈ merge_models_lists lists → idx ∈ urls r →
  ∃ l m, lists !! idx = Some (Some l) ∧ m ∈ l ∧ model m = model r.
Proof.
  intros Hr Hidx. apply elem_of_merge_models_lists in Hr as (id & Hr).
  pose proof (merged_record_name _ _ _ Hr) as Hn.
  apply merged_record_Some in Hr as (i0 & m0 & later & Hf & He & ->).
  simpl in Hidx. rewrite <- He in Hidx.
  apply elem_of_exposers in Hidx as (m & Hin & Hm).
  apply elem_of_exposures in Hin as (l & Hl & Hml).
  exists l, m. split_and!; [done..|]. by rewrite Hm, Hn.
Qed.

Lemma merge_models_lists_urls_nonempty lists r :
  r ∈ merge_models_lists lists → urls r ≠ [].
Proof.
  intros Hr. apply elem_of_merge_models_lists in Hr as (id & Hr).
  by apply merged_record_Some in Hr as (i0 & m0 & later & Hf & He & ->).
Qed.

Lemma merge_models_lists_covers lists idx l m id :
  lists !! idx = Some (Some l) → m ∈ l → model m = Some id →
  ∃ r, r ∈ merge_models_lists lists ∧ model r = Some id ∧ idx ∈ urls r.
Proof.
  intros Hl Hm Hid.
  assert ((idx, m) ∈ exposures lists) as Hin.
  { apply elem_of_exposures. by exists l. }
  destruct (first_exposure_is_Some id _ _ Hin Hid) as [e He].
  exists (set_urls (exposers id (exposures lists)) e.2). split_and!.
  - apply elem_of_merge_models_lists. exists id. unfold merged_record. by rewrite He.
  - simpl. by apply first_exposure_Some in He as (_ & -> & _).
  - simpl. apply elem_of_exposers. eauto.
Qed.

(** ** The name index *)

Lemma models_index_snoc ms m :
  models_index (ms ++ [m])
  = match model m with
    | Some id => <[id := m]> (models_index ms)
    | None => models_index ms
    end.
Proof. unfold models_index. by rewrite foldl_app. Qed.

Lemma models_index_Some ms name r :
  models_index ms !! name = Some r → r ∈ ms ∧ model r = Some name.
Proof.
  induction ms as [|m ms IH] using rev_ind; [done|].
  rewrite models_index_snoc. destruct (model m) as [id|] eqn:Hm.
  - rewrite lookup_insert. case_decide as Hid.
    + intros [= <-]. subst id. split; [|done]. apply elem_of_app. right. left.
    + intros H. destruct (IH H). split; [|done]. apply elem_of_app. by left.
  - intros H. destruct (IH H). split; [|done]. apply elem_of_app. by left.
Qed.

Lemma models_index_None ms name :
  models_index ms !! name = None ↔ ∀ r, r ∈ ms → model r ≠ Some name.
Proof.
  induction ms as [|m ms IH] using rev_ind.
  { split; [intros _ r Hr; inversion Hr|done]. }
  rewrite models_index_snoc. setoid_rewrite elem_of_app.
  setoid_rewrite list_elem_of_singleton.
  destruct (model m) as [id|] eqn:Hm.
  - rewrite lookup_insert. case_decide as Hid.
    + subst id. split; [done|]. intros H. destruct (H m); auto.
    + rewrite IH. split.
      * intros H r [Hr| ->]; [auto|]. rewrite Hm. congruence.
      * intros H r Hr. auto.
  - rewrite IH. split.
    + intros H r [Hr| ->]; [auto|]. by rewrite Hm.
    + intros H r Hr. auto.
Qed.

Lemma call_events_planned st path ev :
  ev ∈ call_events (planned_calls st path) →
  ∃ idx url,
    DOCKER_MODEL_RUNNER_BASE_URLS st !! idx = Some url
    ∧ enabled (backend_config st (idx, url)) = true
    ∧ ev = EvGet (url +:+ path) (cfg_key (backend_config st (idx, url))).
Proof.
  unfold call_events. rewrite list_elem_of_fmap.
  intros (c & -> & Hc). apply list_elem_of_omap in Hc as (oc & Hoc & Hid).
  simpl in Hid. subst oc. apply elem_of_planned_calls in Hoc as ([idx url] & ? & ? & ->).
  by exists idx, url.
Qed.

(** The refresh of the four-backend registry: backend 1 is not asked,
    backend 2 does not answer, and the catalog holds the models of
    backends 0 and 3. *)
Example refresh_of_mixed_registry :
  ∃ catalog st',
    get_all_models (mixed_env 0) mixed_state []
    = (Ok (catalog, st'),
       [EvGet "http://a/api/tags" None; EvGet "http://c/api/tags" None;
        EvGet "http://d/api/tags" None; EvGet "http://a/api/ps" None;
        EvGet "http://c/api/ps" None; EvGet "http://d/api/ps" None])
    ∧ catalog
      = [set_connection_type "docker" (set_urls [0%nat] (runner_model "phi:latest"));
         set_connection_type "docker"
           (set_urls [0%nat; 3%nat] (runner_model "llama3:latest"))]
    ∧ fetched (mixed_env 0) mixed_state "/api/tags" !! 1%nat = Some None.
Proof.
  eexists _, _. split; [apply get_all_models_run|].
  split; vm_compute; reflexivity.
Qed.

Lemma annotate_expiry_names env em ms :
  model <$> annotate_expiry env em ms = model <$> ms.
Proof.
  pose proof (annotate_expiry_keeps env em ms) as H.
  induction H as [|a b l k [Hm _] _ IH]; [done|]. csimpl. by rewrite IH, Hm.
Qed.

Lemma NoDup_fmap_elem_inj {A B} (f : A → B) (l : list A) x y :
  NoDup (f <$> l) → x ∈ l → y ∈ l → f x = f y → x = y.
Proof.
  intros Hnd [i Hi]%list_elem_of_lookup [j Hj]%list_elem_of_lookup Hf.
  assert (i = j) as ->.
  { eapply (NoDup_lookup _ i j (f x) Hnd).
    - by rewrite list_lookup_fmap, Hi.
    - by rewrite list_lookup_fmap, Hj, Hf. }
  congruence.
Qed.

Lemma models_index_NoDup ms name r :
  NoDup (model <$> ms) → r ∈ ms → model r = Some name →
  models_index ms !! name = Some r.
Proof.
  intros Hnd Hr Hn. destruct (models_index ms !! name) as [r'|] eqn:Hi.
  - apply models_index_Some in Hi as [Hr' Hn']. f_equal.
    apply (NoDup_fmap_elem_inj model ms); [done..|congruence].
  - rewrite models_index_None in Hi. by destruct (Hi r Hr).
Qed.

Lemma catalog_of_NoDup env st : NoDup (model <$> catalog_of env st).
Proof.
  unfold catalog_of. destruct (flag _); [|constructor].
  rewrite annotate_expiry_names. apply merge_models_lists_NoDup.
Qed.

Lemma catalog_of_named env st r :
  r ∈ catalog_of env st → ∃ name, model r = Some name.
Proof.
  unfold catalog_of. destruct (flag _); [|intros H; inversion H].
  intros (r0 & Hr0 & Hm & _)%elem_of_annotate_expiry.
  apply elem_of_merge_models_lists in Hr0 as (id & Hr0).
  exists id. rewrite Hm. by apply merged_record_name in Hr0.
Qed.

Lemma catalog_of_urls env st r :
  r ∈ catalog_of env st →
  urls r ≠ []
  ∧ ∀ idx, idx ∈ urls r → is_Some (DOCKER_MODEL_RUNNER_BASE_URLS st !! idx).
Proof.
  unfold catalog_of. destruct (flag _); [|intros H; inversion H].
  intros (r0 & Hr0 & _ & Hu)%elem_of_annotate_expiry. rewrite Hu. split.
  - by apply merge_models_lists_urls_nonempty in Hr0.
  - intros idx Hidx.
    destruct (merge_models_lists_urls _ _ _ Hr0 Hidx) as (l & m & Hl & _ & _).
    apply lookup_tags_lists in Hl as (url & response & -> & _). eauto.
Qed.

(** ** [get_runner_url] *)

Lemma py_index_nat {A} (l : list A) (i : nat) : Py.index l (Z.of_nat i) = l !! i.
Proof.
  unfold Py.index. rewrite (proj2 (Z.leb_le 0 (Z.of_nat i))) by lia.
  by rewrite Nat2Z.id.
Qed.

Lemma random_choice_elem {A} env (l : list A) :
  l ≠ [] → ∃ x, random_choice env l = Some x ∧ x ∈ l.
Proof.
  intros Hne. unfold random_choice.
  assert (env_random env `mod` length l < length l)%nat as Hlt.
  { apply Nat.mod_upper_bound. by destruct l. }
  apply lookup_lt_is_Some in Hlt as [x Hx]. exists x. split; [done|].
  apply list_elem_of_lookup. eauto.
Qed.

Lemma get_runner_url_listed env st name r log :
  DOCKER_MODEL_RUNNER_MODELS st !! name = Some r →
  urls r ≠ [] →
  (∀ idx, idx ∈ urls r → is_Some (DOCKER_MODEL_RUNNER_BASE_URLS st !! idx)) →
  ∃ idx url,
    idx ∈ urls r
    ∧ DOCKER_MODEL_RUNNER_BASE_URLS st !! idx = Some url
    ∧ get_runner_url env st name None log = (Ok (url, Z.of_nat idx), log).
Proof.
  intros Hr Hne Hin. destruct (random_choice_elem env (urls r) Hne) as (idx & Hc & Hidx).
  destruct (Hin idx Hidx) as [url Hurl]. exists idx, url. split_and!; [done..|].
  unfold get_runner_url. rewrite Hr, Hc. unfold bind, ret.
  by rewrite py_index_nat, Hurl.
Qed.

Lemma get_runner_url_not_found env st name log :
  DOCKER_MODEL_RUNNER_MODELS st !! name = None →
  get_runner_url env st name None log
  = (Raise (HTTPException 400 (MODEL_NOT_FOUND name)), log).
Proof. intros H. unfold get_runner_url. by rewrite H. Qed.

(** C10.  Every record of a merge has a non-empty [urls] list, each
    element the index of a backend whose list holds an entry of the
    record's name.  So for every record of a refreshed catalog the
    index has the record under its name, and [get_runner_url] without a
    pinned index returns, for any draw of the random generator, a URL
    of the registry and an index taken from the record's [urls]. *)
Theorem merged_records_route (env : Env) (st : AppState) (log : list event) :
  (∀ model_lists r,
     r ∈ merge_models_lists model_lists →
     urls r ≠ []
     ∧ ∀ idx, idx ∈ urls r →
         ∃ l m, model_lists !! idx = Some (Some l) ∧ m ∈ l ∧ model m = model r)
  ∧ ∃ catalog st' log',
      get_all_models env st log = (Ok (catalog, st'), log')
      ∧ ∀ r, r ∈ catalog →
          urls r ≠ []
          ∧ ∃ name,
              model r = Some name
              ∧ DOCKER_MODEL_RUNNER_MODELS st' !! name = Some r
              ∧ ∀ env' log'',
                  ∃ idx url,
                    idx ∈ urls r
                    ∧ DOCKER_MODEL_RUNNER_BASE_URLS st' !! idx = Some url
                    ∧ get_runner_url env' st' name None log''
                      = (Ok (url, Z.of_nat idx), log'').
Proof.
  split.
  - intros model_lists r Hr. split.
    + by apply merge_models_lists_urls_nonempty in Hr.
    + intros idx Hidx. by apply (merge_models_lists_urls _ r).
  - exists (catalog_of env st), (set_MODELS (models_index (catalog_of env st)) st),
      (log ++ refresh_events st).
    split; [apply get_all_models_run|].
    intros r Hr. destruct (catalog_of_urls _ _ _ Hr) as [Hne Hin].
    split; [done|]. destruct (catalog_of_named _ _ _ Hr) as [name Hname].
    exists name. split; [done|].
    assert (models_index (catalog_of env st) !! name = Some r) as Hidx.
    { apply models_index_NoDup; [apply catalog_of_NoDup|done..]. }
    split; [done|]. intros env' log''.
    by apply get_runner_url_listed.
Qed.


(** In the four-backend registry [llama3:latest] is served by backends
    0 and 3: the draw decides between them, and no other index comes
    out. *)
Example choice_between_two_backends :
  get_runner_url (mixed_env 0) mixed_refreshed "llama3:latest" None []
  = (Ok ("http://a", 0%Z), [])
  ∧ get_runner_url (mixed_env 1) mixed_refreshed "llama3:latest" None []
    = (Ok ("http://d", 3%Z), [])
  ∧ get_runner_url (mixed_env 2) mixed_refreshed "llama3:latest" None []
    = (Ok ("http://a", 0%Z), []).
Proof. split_and!; vm_compute; reflexivity. Qed.

Lemma generate_chat_completion_split env st form_data url_idx user bypass log :
  generate_chat_completion env st form_data url_idx user bypass log
  = match prepare_payload env form_data user bypass with
    | Raise e => (Raise e, log)
    | Ok (form, payload) =>
        bind (get_runner_url env st (payload_model payload) url_idx)
             (forward_chat env st form payload) log
    end.
Proof.
  unfold generate_chat_completion, prepare_payload, forward_chat.
  unfold bind at 1.
  destruct (validate_form form_data) as [form|e]; [|done].
  unfold ret at 1. unfold bind at 1.
  destruct (env_get_model_by_id env (payload_model (model_dump form))) as [info|].
  - destruct (negb (BYPASS_MODEL_ACCESS_CONTROL env || bypass)
              && bool_decide (user_role user = "user")).
    + destruct (negb _); [done|]. done.
    + done.
  - destruct (negb (BYPASS_MODEL_ACCESS_CONTROL env || bypass)); [|done].
    by destruct (negb _).
Qed.

(** ** Substrings *)

Lemma string_app_assoc (a b c : string) : (a +:+ b) +:+ c = a +:+ (b +:+ c).
Proof.
  induction a as [|x a IH]; [done|].
  change (String x ((a +:+ b) +:+ c) = String x (a +:+ b +:+ c)). by f_equal.
Qed.

Lemma string_app_cons (x : ascii) (a b : string) :
  String x a +:+ b = String x (a +:+ b).
Proof. done. Qed.

Lemma prefix_app (s t : string) : String.prefix s (s +:+ t) = true.
Proof.
  induction s as [|a s IH].
  - by destruct t.
  - rewrite string_app_cons. simpl. destruct (ascii_dec a a); [done|congruence].
Qed.

Lemma contains_prefix (sub t : string) : Py.contains sub (sub +:+ t) = true.
Proof.
  assert (∀ s, String.prefix sub s = true → Py.contains sub s = true) as H.
  { intros s Hs. destruct s; simpl in *; by rewrite Hs. }
  apply H, prefix_app.
Qed.

Lemma contains_app_r (sub a s : string) :
  Py.contains sub s = true → Py.contains sub (a +:+ s) = true.
Proof.
  intros H. induction a as [|x a IH]; [done|].
  rewrite string_app_cons. simpl. rewrite IH. apply orb_true_r.
Qed.

Lemma MODEL_NOT_FOUND_names name : Py.contains name (MODEL_NOT_FOUND name) = true.
Proof. unfold MODEL_NOT_FOUND. apply contains_app_r, contains_prefix. Qed.

Lemma MODEL_NOT_FOUND_names_untagged name tag :
  Py.contains name (MODEL_NOT_FOUND (name +:+ tag)) = true.
Proof.
  unfold MODEL_NOT_FOUND. rewrite string_app_assoc.
  apply contains_app_r, contains_prefix.
Qed.

(** No backend serves [gpt]: the chat request is answered with status
    400, the detail names the model, and the log stays empty. *)
Example chat_for_unknown_model :
  generate_chat_completion (mixed_env 0) mixed_refreshed (chat_request "gpt")
    None admin false []
  = (Raise (HTTPException 400 "Model 'gpt:latest' was not found"), [])
  ∧ Py.contains "gpt" "Model 'gpt:latest' was not found" = true.
Proof. split; vm_compute; reflexivity. Qed.

Lemma send_post_request_forwards env url payload stream key ct log :
  ∃ r log',
    send_post_request env url payload stream key ct log = (r, log')
    ∧ forwarded log' = forwarded log ++ [EvPost url payload key].
Proof.
  unfold send_post_request, try_finally, try_except, bind, emit, raise, ret,
    json_of, raise_for_status, cleanup_response, bind, emit, ret, raise.
  destruct (env_post env url payload key) as [msg|rep]; simpl.
  - destruct (flag stream); simpl; eexists _, _; (split; [reflexivity|]);
      unfold forwarded; rewrite ?filter_app; simpl; by rewrite ?app_nil_r.
  - destruct (ok rep), (flag stream), (parsed rep) as [[o|]|]; simpl;
      try destruct (error o); simpl;
      eexists _, _; (split; [reflexivity|]);
      unfold forwarded; rewrite ?filter_app; simpl; by rewrite ?app_nil_r.
Qed.

Lemma random_choice_singleton {A} env (x : A) : random_choice env [x] = Some x.
Proof. unfold random_choice. change (length [x]) with 1%nat. by rewrite Nat.mod_1_r. Qed.

Lemma teamA_refresh name post rnd log :
  get_all_models (teamA_env name post rnd) teamA_state log
  = (Ok (catalog_of (teamA_env name post rnd) teamA_state, teamA_refreshed name),
     log ++ [EvGet "http://runner:12434/api/tags" None;
             EvGet "http://runner:12434/api/ps" None]).
Proof. rewrite get_all_models_run. reflexivity. Qed.

(** ** Putting a prefix on and taking it off *)

Lemma replace_go_skip old new (a t : string) :
  Py.replace_go old new (String.length a) (a +:+ t) = Py.replace_go old new 0 t.
Proof.
  induction a as [|c a IH]; [done|].
  rewrite string_app_cons. simpl. apply IH.
Qed.

Lemma replace_go_no_occurrence old new (t : string) :
  Py.contains old t = false → Py.replace_go old new 0 t = t.
Proof.
  induction t as [|c t IH]; [done|].
  simpl. intros [Hp Hc]%orb_false_elim.
  rewrite Hp. f_equal. by apply IH.
Qed.

(** [(p + "." + n).replace(p + ".", "")] is [n] when [n] has no
    occurrence of [p + "."] of its own. *)
Lemma replace_prefixed (p n : string) :
  Py.contains (p +:+ ".") n = false →
  Py.replace (p +:+ ".") "" (p +:+ "." +:+ n) = n.
Proof.
  intros Hn. unfold Py.replace.
  rewrite bool_decide_eq_false_2 by (by destruct p).
  rewrite <- string_app_assoc.
  destruct (p +:+ ".") as [|c old] eqn:Hold; [by destruct p|].
  rewrite string_app_cons.
  change (Py.replace_go (String c old) "" 0 (String c (old +:+ n)))
    with (if String.prefix (String c old) (String c (old +:+ n))
          then "" +:+ Py.replace_go (String c old) ""
                        (String.length (String c old) - 1) (old +:+ n)
          else String c (Py.replace_go (String c old) "" 0 (old +:+ n))).
  rewrite <- string_app_cons, prefix_app.
  change (String.length (String c old) - 1)%nat with (String.length old - 0)%nat.
  rewrite Nat.sub_0_r, replace_go_skip.
  by apply replace_go_no_occurrence.
Qed.

(** The name a prefixed backend's entry gets in the catalog, and what
    is left of it after the prefix is taken off again. *)
Lemma prefixed_name_round_trip cfg m (p n : string) :
  cfg_prefix_id cfg = Some p → p ≠ "" → model m = Some n →
  model (transform_model cfg m) = Some (p +:+ "." +:+ n)
  ∧ (Py.contains (p +:+ ".") n = false →
     Py.replace (Py.str_opt (cfg_prefix_id cfg) +:+ ".") "" (p +:+ "." +:+ n) = n).
Proof.
  intros Hp Hne Hm. split.
  - assert (Py.truthy p = true) as Ht by (by destruct p).
    unfold transform_model, apply_prefix. rewrite Hp, Hm.
    unfold Py.truthy_opt, Py.str_opt. rewrite Ht. simpl.
    destruct (bool_decide (cfg_tags cfg = [])),
      (Py.truthy (default "docker" (cfg_connection_type cfg))); done.
  - intros Hn. rewrite Hp. simpl. by apply replace_prefixed.
Qed.

(** [str.replace] takes every occurrence off: a native name that holds
    the prefix itself does not come back. *)
Example prefix_inside_native_name :
  Py.replace "teamA." "" ("teamA." +:+ "teamA.llama3:latest") = "llama3:latest".
Proof. reflexivity. Qed.

(** C4, as stated, fails.  The backend with prefix [teamA] exposes
    [llama3]; the catalog record is named [teamA.llama3], but a chat
    request for [teamA.llama3] is looked up as [teamA.llama3:latest]
    and is answered with status 400: nothing is forwarded. *)
Lemma prefix_round_trip_untagged_is_not_found :
  let env := teamA_env "llama3" (PostReply (mkReply 200 [] "{}" None)) 0 in
  ∃ catalog st' log',
    get_all_models env teamA_state [] = (Ok (catalog, st'), log')
    ∧ model <$> catalog = [Some "teamA.llama3"]
    ∧ generate_chat_completion env st' (chat_request "teamA.llama3") None admin
        false []
      = (Raise (HTTPException 400 "Model 'teamA.llama3:latest' was not found"),
         []).
Proof.
  intros env. eexists _, _, _. split; [apply teamA_refresh|].
  split; vm_compute; reflexivity.
Qed.

(** C4, amended.  The backend with prefix [teamA] exposes
    [llama3:latest]; the catalog record is named [teamA.llama3:latest]
    and is served by that backend, and a chat request for
    [teamA.llama3] or [teamA.llama3:latest] forwards one request, to
    that backend, whose payload names the model [llama3:latest]. *)
Theorem prefix_round_trip_tagged (post : post_outcome) (rnd : nat) :
  let env := teamA_env "llama3:latest" post rnd in
  ∃ catalog st' log',
    get_all_models env teamA_state [] = (Ok (catalog, st'), log')
    ∧ model <$> catalog = [Some "teamA.llama3:latest"]
    ∧ urls <$> catalog = [[0%nat]]
    ∧ ∀ requested,
        requested = "teamA.llama3" ∨ requested = "teamA.llama3:latest" →
        ∃ r log'' payload,
          generate_chat_completion env st' (chat_request requested) None admin
            false []
          = (r, log'')
          ∧ forwarded log'' = [EvPost "http://runner:12434/api/chat" payload None]
          ∧ payload_model payload = "llama3:latest".
Proof.
  intros env. eexists _, _, _. split; [apply teamA_refresh|].
  split; [vm_compute; reflexivity|]. split; [vm_compute; reflexivity|].
  intros requested Hreq. rewrite generate_chat_completion_split.
  set (payload := mkPayload "teamA.llama3:latest"
                    [mkChatMessage "user" (Some "hi") None None] (Some true) []).
  assert (∃ form, prepare_payload env (chat_request requested) admin false
                  = Ok (form, payload) ∧ gc_stream form = Some true) as (form & -> & Hs).
  { destruct Hreq as [-> | ->]; eexists; split; vm_compute; reflexivity. }
  assert (get_runner_url env (teamA_refreshed "llama3:latest") "teamA.llama3:latest"
            None [] = (Ok ("http://runner:12434", 0%Z), [])) as Hurl.
  { unfold get_runner_url, bind, ret.
    replace (DOCKER_MODEL_RUNNER_MODELS (teamA_refreshed "llama3:latest")
               !! "teamA.llama3:latest")
      with (Some (set_connection_type "docker"
                    (set_urls [0%nat] (runner_model "teamA.llama3:latest"))))
      by (vm_compute; reflexivity).
    change (urls _) with [0%nat]. rewrite random_choice_singleton. reflexivity. }
  unfold bind. simpl payload_model. rewrite Hurl. unfold forward_chat.
  destruct (send_post_request_forwards env ("http://runner:12434" +:+ "/api/chat")
              (set_payload_model "llama3:latest" payload) (gc_stream form)
              None (Some "application/x-ndjson") []) as (r & log'' & Hrun & Hfw).
  exists r, log'', (set_payload_model "llama3:latest" payload).
  split; [|split; [exact Hfw|reflexivity]].
  rewrite <- Hrun. reflexivity.
Qed.

(** ** Releases of the upstream connection *)

Lemma releases_app log1 log2 :
  session_releases (log1 ++ log2) = (session_releases log1 + session_releases log2)%nat
  ∧ response_releases (log1 ++ log2)
    = (response_releases log1 + response_releases log2)%nat.
Proof.
  unfold session_releases, response_releases.
  by rewrite !filter_app, !length_app.
Qed.

(** What a streamed POST releases before it returns, by the reply: once
    when the error body parses, never when it does not; a success
    hands the release to the background task of the response. *)
Lemma send_post_request_stream_releases env url payload key ct log rep :
  env_post env url payload key = PostReply rep →
  ∃ r log',
    send_post_request env url payload (Some true) key ct log = (r, log')
    ∧ (if ok rep
       then ∃ content code hs,
              r = Ok (StreamingResponse content code hs (CleanupTask true true))
              ∧ session_releases log' = session_releases log
              ∧ response_releases log' = response_releases log
       else (∃ e, r = Raise e)
            ∧ session_releases log'
              = (session_releases log + if parsed rep is Some _ then 1 else 0)%nat
            ∧ response_releases log'
              = (response_releases log + if parsed rep is Some _ then 1 else 0)%nat).
Proof.
  intros Hpost.
  unfold send_post_request, try_finally, try_except, bind, emit, raise, ret,
    json_of, raise_for_status, cleanup_response, bind, emit, ret, raise.
  rewrite Hpost. simpl.
  destruct (ok rep) eqn:Hok; simpl.
  - eexists _, _. split; [reflexivity|]. eexists _, _, _. split; [reflexivity|].
    destruct (releases_app log [EvPost url payload key]) as [-> ->].
    unfold session_releases, response_releases. simpl. lia.
  - destruct (parsed rep) as [[o|]|]; simpl; try destruct (error o); simpl;
      eexists _, _; (split; [reflexivity|]); (split; [eauto|]);
      rewrite <- ?app_assoc;
      match goal with
      | |- context [log ++ ?l] => destruct (releases_app log l) as [-> ->]
      end;
      unfold session_releases, response_releases; simpl; lia.
Qed.

Lemma run_background_releases_once log :
  ∃ log', run_background (CleanupTask true true) log = (Ok tt, log')
    ∧ session_releases log' = S (session_releases log)
    ∧ response_releases log' = S (response_releases log).
Proof.
  eexists. split; [reflexivity|]. rewrite <- app_assoc.
  destruct (releases_app log ([EvCloseResponse] ++ [EvCloseSession])) as [-> ->].
  unfold session_releases, response_releases. simpl. lia.
Qed.

(** C2 at the failing input: a streamed chat request whose upstream
    answers 500 with a body that is not JSON.  The request fails with
    status 500, and neither the response nor the session was closed. *)
Theorem unparseable_error_body_is_never_released :
  let reply := mkReply 500 [("Content-Type", "text/html")]
                 "<html>Internal Server Error</html>" None in
  let env := teamA_env "llama3:latest" (PostReply reply) 0 in
  let payload := mkPayload "llama3:latest"
                   [mkChatMessage "user" (Some "hi") None None] (Some true) [] in
  (∃ log',
     send_post_request env "http://runner:12434/api/chat" payload (Some true)
       None (Some "application/x-ndjson") []
     = (Raise (HTTPException 500 "Open WebUI: Server Connection Error"), log')
     ∧ log' = [EvPost "http://runner:12434/api/chat" payload None]
     ∧ session_releases log' = 0%nat
     ∧ response_releases log' = 0%nat)
  ∧ (∃ log',
       generate_chat_completion env (teamA_refreshed "llama3:latest")
         (chat_request "teamA.llama3") None admin false []
       = (Raise (HTTPException 500 "Open WebUI: Server Connection Error"), log')
       ∧ session_releases log' = 0%nat
       ∧ response_releases log' = 0%nat).
Proof.
  intros reply env payload. split.
  - eexists. split; [vm_compute; reflexivity|]. by split.
  - eexists. split; [vm_compute; reflexivity|]. by split.
Qed.

(** ** Validation of messages *)

Lemma check_at_least_one_field_before_tool_calls role content images :
  check_at_least_one_field Null (mkValues role content None images)
  = Raise (Exception
             "At least one of 'content' or 'tool_calls' must be provided").
Proof. reflexivity. Qed.

Lemma validate_ChatMessage_null_content role tcs images :
  validate_ChatMessage (mkRawMessage role Null tcs images)
  = Raise (Exception "ValidationError").
Proof.
  unfold validate_ChatMessage. simpl.
  by destruct role, tcs, images.
Qed.

Lemma validate_ChatMessage_no_content role tcs images :
  validate_ChatMessage (mkRawMessage (Val role) Absent tcs images)
  = match optional tcs, optional images with
    | Some t, Some i => Ok (mkChatMessage role None t i)
    | _, _ => Raise (Exception "ValidationError")
    end.
Proof. reflexivity. Qed.

(** C3 at the failing input: a message with [content: null] and a
    list of tool calls is rejected, and the chat request that carries
    it fails with status 400.  So is every message whose [content] is
    an explicit [null], whatever its [tool_calls]. *)
Theorem null_content_with_tool_calls_is_rejected :
  let message := mkRawMessage (Val "assistant") Null
                   (Val ["get_weather"]) Absent in
  validate_ChatMessage message = Raise (Exception "ValidationError")
  ∧ (∀ env st user bypass_filter log,
       generate_chat_completion env st
         (mkRawForm (Val "llama3:latest") (Val [message]) Absent [] None)
         None user bypass_filter log
       = (Raise (HTTPException 400 "ValidationError"), log))
  ∧ (∀ role tool_calls images,
       validate_ChatMessage (mkRawMessage role Null tool_calls images)
       = Raise (Exception "ValidationError")).
Proof.
  intros message. split_and!.
  - reflexivity.
  - intros env st user bypass log. rewrite generate_chat_completion_split.
    reflexivity.
  - apply validate_ChatMessage_null_content.
Qed.

(** * Further properties *)

(** ** More on the merge *)

Lemma url_count_cons k v d :
  url_count ((k, v) :: d) = (length (urls v) + url_count d)%nat.
Proof. done. Qed.

Lemma url_count_alter idx k d :
  OD.mem k d = true →
  url_count (OD.alter (append_url idx) k d) = S (url_count d).
Proof.
  unfold OD.mem. rewrite bool_decide_eq_true.
  induction d as [|[k' v] d IH]; [by intros ?%elem_of_nil|].
  unfold OD.alter. fold (OD.alter (append_url idx) k d).
  rewrite fmap_cons. simpl fst.
  destruct (decide (k' = k)) as [->|Hne].
  - intros _. rewrite !url_count_cons. simpl. rewrite length_app. simpl. lia.
  - intros [?|Hin]%elem_of_cons; [congruence|].
    rewrite !url_count_cons, IH by done. lia.
Qed.

Lemma url_count_add k v d :
  url_count (OD.add k v d) = (url_count d + length (urls v))%nat.
Proof.
  unfold url_count, OD.add. rewrite sum_list_with_app. simpl. lia.
Qed.

Lemma url_count_merge_step d e :
  url_count (merge_step d e)
  = (url_count d + if model e.2 is Some _ then 1 else 0)%nat.
Proof.
  unfold merge_step, merge_model. destruct (model e.2) as [k|]; [|lia].
  destruct (OD.mem k d) eqn:Hmem.
  - rewrite url_count_alter by done. lia.
  - by rewrite url_count_add.
Qed.

Lemma url_count_fold d es :
  url_count (foldl merge_step d es)
  = (url_count d + length (omap (λ e : nat * Model, model e.2) es))%nat.
Proof.
  revert d. induction es as [|e es IH]; intros d; [simpl; lia|].
  change (foldl merge_step d (e :: es)) with (foldl merge_step (merge_step d e) es).
  rewrite IH, url_count_merge_step.
  change (omap (λ e : nat * Model, model e.2) (e :: es))
    with (match model e.2 with
          | Some y => y :: omap (λ e : nat * Model, model e.2) es
          | None => omap (λ e : nat * Model, model e.2) es
          end).
  destruct (model e.2); simpl length; lia.
Qed.

(** X1.  Every named entry of every backend list accounts for exactly one
    index in the [urls] of the merged records. *)
Theorem merge_models_lists_counts_exposures
    (model_lists : list (option (list Model))) :
  sum_list_with (λ r, length (urls r)) (merge_models_lists model_lists)
  = length (omap (λ e : nat * Model, model e.2) (exposures model_lists)).
Proof.
  unfold merge_models_lists, OD.values. rewrite merge_fold.
  transitivity (url_count (foldl merge_step [] (exposures model_lists)));
    [|by rewrite url_count_fold].
  unfold url_count. generalize (foldl merge_step [] (exposures model_lists)).
  intros d. induction d as [|[k v] d IH]; [done|].
  rewrite fmap_cons. simpl. f_equal. exact IH.
Qed.

(** *** Adding backends at the end *)

Lemma set_urls_id (v : Model) : set_urls (urls v ++ []) v = v.
Proof. destruct v. unfold set_urls. simpl. by rewrite app_nil_r. Qed.

Lemma merge_step_extends d e i k v :
  d !! i = Some (k, v) →
  ∃ extra, merge_step d e !! i = Some (k, set_urls (urls v ++ extra) v).
Proof.
  intros Hi. unfold merge_step, merge_model.
  destruct (model e.2) as [k'|]; [|exists []; by rewrite set_urls_id].
  destruct (OD.mem k' d).
  - clear -Hi. revert i Hi. induction d as [|[k0 v0] d IH]; intros i Hi; [done|].
    simpl. destruct i as [|i]; simpl in *.
    + simplify_eq. destruct (decide (k = k')) as [->|Hne].
      * exists [e.1]. done.
      * exists []. by rewrite set_urls_id.
    + destruct (decide (k0 = k')) as [->|Hne]; simpl.
      * exists []. by rewrite set_urls_id.
      * by apply IH.
  - exists []. unfold OD.add. rewrite set_urls_id. by apply lookup_app_l_Some.
Qed.

Lemma merge_fold_extends es d i k v :
  d !! i = Some (k, v) →
  ∃ extra, foldl merge_step d es !! i = Some (k, set_urls (urls v ++ extra) v).
Proof.
  revert d v. induction es as [|e es IH]; intros d v Hi; simpl.
  - exists []. by rewrite set_urls_id.
  - destruct (merge_step_extends d e i k v Hi) as (x1 & H1).
    destruct (IH _ _ H1) as (x2 & H2). exists (x1 ++ x2). rewrite H2.
    simpl. by rewrite app_assoc.
Qed.

Lemma exposures_app lists more :
  ∃ es, exposures (lists ++ more) = exposures lists ++ es.
Proof.
  unfold exposures. rewrite imap_app, join_app. eauto.
Qed.

(** X2.  Backends added at the end of the list change no record of the
    merge but for its [urls], which they may extend, and leave every
    record at its position. *)
Theorem merge_models_lists_stable_under_more_backends
    (model_lists more : list (option (list Model))) (i : nat) (r : Model) :
  merge_models_lists model_lists !! i = Some r →
  ∃ extra,
    merge_models_lists (model_lists ++ more) !! i
    = Some (set_urls (urls r ++ extra) r).
Proof.
  unfold merge_models_lists, OD.values. rewrite !merge_fold.
  destruct (exposures_app model_lists more) as (es & ->).
  rewrite foldl_app, !list_lookup_fmap.
  intros ([k v] & Hi & ->)%fmap_Some.
  destruct (merge_fold_extends es _ i k v Hi) as (extra & Hx).
  exists extra. apply fmap_Some. eexists. split; [exact Hx|done].
Qed.

Lemma merge_models_lists_stable_witness :
  merge_models_lists [Some [runner_model "phi"]; Some [runner_model "llama3"]]
    !! 1%nat = Some (set_urls [1%nat] (runner_model "llama3"))
  ∧ ∃ extra,
      merge_models_lists
        ([Some [runner_model "phi"]; Some [runner_model "llama3"]]
           ++ [None; Some [runner_model "llama3"; runner_model "qwen"]]) !! 1%nat
      = Some (set_urls (urls (set_urls [1%nat] (runner_model "llama3")) ++ extra)
                (set_urls [1%nat] (runner_model "llama3"))).
Proof.
  split; [reflexivity|].
  apply (merge_models_lists_stable_under_more_backends
           [Some [runner_model "phi"]; Some [runner_model "llama3"]]
           [None; Some [runner_model "llama3"; runner_model "qwen"]] 1).
  reflexivity.
Defined.

(** ** More on the configuration *)

(** X3.  What GET /config returns after an update can be submitted again
    without changing anything: the update is idempotent. *)
Theorem update_config_get_config_round_trip
    (st : AppState) (form_data : DockerModelRunnerConfigForm) :
  let st' := update_config st form_data in
  update_config st' (get_config st') = st'.
Proof.
  unfold update_config, get_config. simpl. f_equal.
  apply map_eq. intros k. apply option_eq. intros v.
  rewrite !map_lookup_filter_Some. simpl. tauto.
Qed.

(** X4.  After an update a backend is configured by the entry under its
    index alone.  An entry submitted under the backend's URL is dropped
    (unless the URL reads as an index), although [config_for] would fall
    back to it. *)
Theorem update_config_drops_url_keys
    (st : AppState) (form_data : DockerModelRunnerConfigForm)
    (idx : nat) (url : string) :
  form_DOCKER_MODEL_RUNNER_BASE_URLS form_data !! idx = Some url →
  url ∉ index_keys (length (form_DOCKER_MODEL_RUNNER_BASE_URLS form_data)) →
  backend_config (update_config st form_data) (idx, url)
  = default empty_config
      (form_DOCKER_MODEL_RUNNER_API_CONFIGS form_data !! Py.str (Z.of_nat idx)).
Proof.
  intros Hidx Hurl. unfold backend_config, config_for, update_config. simpl.
  set (keys := index_keys _) in *.
  assert (Hk : Py.str (Z.of_nat idx) ∈ keys).
  { apply elem_of_index_keys. exists idx. split; [by eapply lookup_lt_Some|done]. }
  rewrite (map_lookup_filter_None_2 _ _ url) by (right; intros v _; exact Hurl).
  destruct (form_DOCKER_MODEL_RUNNER_API_CONFIGS form_data !! Py.str (Z.of_nat idx))
    as [c|] eqn:Hc.
  - by rewrite (map_lookup_filter_Some_2 _ _ _ c).
  - rewrite (map_lookup_filter_None_2 _ _ (Py.str (Z.of_nat idx))) by (by left).
    done.
Qed.

Lemma update_config_drops_url_keys_witness :
  backend_config
    (update_config teamA_state
       (mkConfigForm (Some true) ["http://a:12434"]
          {["http://a:12434" := teamA_config]}))
    (0%nat, "http://a:12434")
  = empty_config.
Proof.
  rewrite (update_config_drops_url_keys teamA_state
             (mkConfigForm (Some true) ["http://a:12434"]
                {["http://a:12434" := teamA_config]}) 0 "http://a:12434").
  - reflexivity.
  - reflexivity.
  - intros H. vm_compute in H.
    by repeat (apply elem_of_cons in H as [H|H]; [done|]); apply elem_of_nil in H.
Defined.

(** ** More on the version query *)

Lemma mapM_version_keys rs :
  Forall (λ x, is_Some (version_key x)) rs →
  ∃ keyed, mapM (λ x, pair x <$> version_key x) rs = Some keyed
           ∧ Forall2 (λ x p, p.1 = x ∧ version_key x = Some p.2) rs keyed.
Proof.
  intros Hall.
  destruct (mapM (λ x, pair x <$> version_key x) rs) as [keyed|] eqn:Hm.
  - exists keyed. split; [done|]. apply mapM_Some in Hm.
    eapply Forall2_impl; [exact Hm|]. intros x p Hp. simpl in Hp.
    destruct (version_key x); simplify_eq/=. done.
  - apply mapM_None in Hm. apply Exists_exists in Hm as (x & Hx & Hn).
    rewrite Forall_forall in Hall. destruct (Hall x Hx) as [k Hk].
    rewrite Hk in Hn. done.
Qed.

(** Of [1.2.0-rc1] and [v1.2.0], the first is reported. *)
Example tied_versions_report_first :
  get_versions tied_env tied_state None []
  = (Ok (VersionIs (Some "1.2.0-rc1")),
     [EvGet "http://a/api/version" None; EvGet "http://b/api/version" None]).
Proof. reflexivity. Qed.

(** X6.  One gathered response whose version is missing or does not read
    as dotted integers makes the unpinned query fail, with an error that
    is no [HTTPException], after every enabled backend was asked; the
    versions that do parse are not used. *)
Theorem get_versions_unparseable_version_raises (env : Env) (st : AppState)
    (log : list event) (x : Response) :
  x ∈ gathered_versions env st →
  version_key x = None →
  ∃ msg,
    get_versions env st None log
    = (Raise (Exception msg), log ++ version_events st).
Proof.
  unfold gathered_versions.
  destruct (flag (ENABLE_DOCKER_MODEL_RUNNER_API st)) eqn:Hen;
    [|by intros ?%elem_of_nil].
  intros Hx Hk. rewrite get_versions_enabled, get_versions_unpinned_run by done.
  assert (mapM (λ x, pair x <$> version_key x) (version_responses env st) = None)
    as Hm.
  { apply mapM_None. apply Exists_exists. exists x. split; [done|].
    by rewrite Hk. }
  destruct (version_responses env st) as [|r rs]; [by apply elem_of_nil in Hx|].
  unfold lowest_version. rewrite Hm. unfold raise. eauto.
Qed.

Lemma get_versions_unparseable_version_raises_witness :
  ∃ msg,
    get_versions nightly_env tied_state None []
    = (Raise (Exception msg), [] ++ version_events tied_state).
Proof.
  apply (get_versions_unparseable_version_raises nightly_env tied_state []
           (mkResponse None (Some "nightly") None)).
  - vm_compute. right. left.
  - reflexivity.
Defined.

Lemma drop_dashed_skip (t : string) :
  one_line t = true → drop_dashed true t = "".
Proof.
  induction t as [|c t IH]; simpl; [done|].
  case_bool_decide; simpl; [done|]. exact IH.
Qed.

Lemma drop_dashed_suffix (b : bool) (s t : string) :
  one_line t = true →
  drop_dashed b (s +:+ "-" +:+ t) = drop_dashed b s.
Proof.
  intros Ht. revert b. induction s as [|c s IH]; intros b.
  - change ("" +:+ "-" +:+ t) with (String "-" t). simpl.
    rewrite drop_dashed_skip by done. by destruct b.
  - change (String c s +:+ "-" +:+ t) with (String c (s +:+ "-" +:+ t)). simpl.
    rewrite !IH. done.
Qed.

(** X7.  The version key does not see a leading [v] nor what follows the
    first dash: [v1.2.0-rc1], [1.2.0-rc1] and [1.2.0] all compare as
    [1.2.0]. *)
Theorem version_tuple_ignores_v_and_suffix (s t : string) :
  (∀ s', s ≠ String "v" s') →
  one_line t = true →
  version_tuple ("v" +:+ s +:+ "-" +:+ t) = version_tuple s
  ∧ version_tuple (s +:+ "-" +:+ t) = version_tuple s
  ∧ version_tuple ("v" +:+ s) = version_tuple s.
Proof.
  intros Hv Ht. unfold version_tuple.
  assert (re_sub_version s = drop_dashed false s) as Hs.
  { unfold re_sub_version. destruct s as [|c s]; [done|].
    destruct (decide (c = "v"%char)) as [->|Hne]; [by destruct (Hv s)|].
    destruct c as [[] [] [] [] [] [] [] []]; try done. }
  assert (re_sub_version (s +:+ "-" +:+ t) = drop_dashed false s) as Hst.
  { rewrite <- (drop_dashed_suffix false s t Ht). unfold re_sub_version.
    destruct s as [|c s]; [done|].
    change (String c s +:+ "-" +:+ t) with (String c (s +:+ "-" +:+ t)).
    destruct (decide (c = "v"%char)) as [->|Hne]; [by destruct (Hv s)|].
    destruct c as [[] [] [] [] [] [] [] []]; try done. }
  rewrite Hs, Hst. split_and!; try done.
  change (re_sub_version ("v" +:+ s +:+ "-" +:+ t))
    with (drop_dashed false (s +:+ "-" +:+ t)).
  by rewrite drop_dashed_suffix.
Qed.

Lemma version_tuple_ignores_v_and_suffix_witness :
  version_tuple ("v" +:+ "1.2.0" +:+ "-" +:+ "rc1") = version_tuple "1.2.0"
  ∧ version_tuple ("1.2.0" +:+ "-" +:+ "rc1") = version_tuple "1.2.0"
  ∧ version_tuple ("v" +:+ "1.2.0") = version_tuple "1.2.0".
Proof.
  apply (version_tuple_ignores_v_and_suffix "1.2.0" "rc1"); [done|reflexivity].
Defined.

(** X8.  A version query pinned to a backend sends it one request, without
    the backend's key.  It answers with the body of a reply that is ok
    and parses; a reply with an error status is answered with status 500,
    whatever status the backend gave, as is a failed connection; an ok
    reply that does not parse is answered as an error carrying the
    reply's own status.  An index outside the registry fails before
    anything is sent, with an error that is no [HTTPException]. *)
Theorem get_versions_pinned_outcome (env : Env) (st : AppState) (idx : Z)
    (log : list event) :
  flag (ENABLE_DOCKER_MODEL_RUNNER_API st) = true →
  match Py.index (DOCKER_MODEL_RUNNER_BASE_URLS st) idx with
  | None =>
      get_versions env st (Some idx) log = (Raise (Exception "IndexError"), log)
  | Some url =>
      ∃ r,
        get_versions env st (Some idx) log
        = (r, log ++ [EvRequestsGet (url +:+ "/api/version") None])
        ∧ match env_requests_get env (url +:+ "/api/version") None with
          | PostFails _ =>
              r = Raise (HTTPException 500 "Open WebUI: Server Connection Error")
          | PostReply rep =>
              if ok rep then
                match parsed rep with
                | Some j => r = Ok (VersionRaw j)
                | None => ∃ detail, r = Raise (HTTPException (status rep) detail)
                end
              else ∃ detail, r = Raise (HTTPException 500 detail)
          end
  end.
Proof.
  intros Hen. unfold get_versions, get_versions_pinned. rewrite Hen.
  destruct (Py.index (DOCKER_MODEL_RUNNER_BASE_URLS st) idx) as [url|]; [|done].
  unfold try_except, bind, emit, raise, ret, json_of.
  destruct (env_requests_get env (url +:+ "/api/version") None) as [msg|rep];
    [eauto|].
  destruct (ok rep) eqn:Hok.
  - unfold raise, ret. destruct (parsed rep) as [j|]; eauto.
  - unfold raise. eauto.
Qed.

Lemma get_versions_pinned_outcome_witness :
  ∃ r,
    get_versions nightly_env tied_state (Some (-2)%Z) []
    = (r, [] ++ [EvRequestsGet ("http://a" +:+ "/api/version") None])
    ∧ ∃ detail, r = Raise (HTTPException 500 detail).
Proof.
  apply (get_versions_pinned_outcome nightly_env tied_state (-2) []).
  reflexivity.
Defined.

(** A backend that answers 503 is reported as 500; index 2 is outside a
    registry of two. *)
Example pinned_version_of_busy_backend :
  (∃ detail,
     get_versions nightly_env tied_state (Some 0%Z) []
     = (Raise (HTTPException 500 detail),
        [EvRequestsGet "http://a/api/version" None]))
  ∧ get_versions nightly_env tied_state (Some 2%Z) []
    = (Raise (Exception "IndexError"), []).
Proof. split; [eexists; vm_compute|]; reflexivity. Qed.

(** ** More on the POST transport *)

Ltac run_post :=
  unfold send_post_request, try_finally, try_except, bind, emit, raise, ret,
    json_of, raise_for_status, cleanup_response, bind, emit, ret, raise.

(** X9.  [send_post_request] succeeds only on a reply with a status below
    400.  Whatever else happens it raises an [HTTPException]: with the
    status of the reply when there is one, and 500 when the connection
    failed; the [error] member of an error body that is an object is
    passed on as the detail, unchanged. *)
Theorem send_post_request_errors_are_http (env : Env) (url : string)
    (payload : Payload) (stream : option bool) (key content_type : option string)
    (log : list event) :
  ∃ r log',
    send_post_request env url payload stream key content_type log = (r, log')
    ∧ match r, env_post env url payload key with
      | Ok _, PostReply rep => ok rep = true
      | Ok _, PostFails _ => False
      | Raise e, PostReply rep =>
          ∃ detail, e = HTTPException (status rep) detail
            ∧ ∀ o d, ok rep = false → parsed rep = Some (JObject o) →
                error o = Some d → detail = d
      | Raise e, PostFails msg =>
          e = HTTPException 500 ("Docker Model Runner: " +:+ msg)
      end.
Proof.
  run_post.
  destruct (env_post env url payload key) as [msg|rep]; simpl.
  - destruct (flag stream); simpl; eexists _, _; (split; [reflexivity|done]).
  - destruct (ok rep) eqn:Hok, (flag stream), (parsed rep) as [[o|]|]; simpl;
      try destruct (error o) eqn:He; simpl;
      eexists _, _; (split; [reflexivity|]); try done;
      eexists; (split; [reflexivity|]); intros; simplify_eq; done.
Qed.

(** X10.  A POST that is not streamed never leaves the session or a reply
    open.  It closes the session once, and the reply once when there is
    one; an error reply whose body parses is closed a second time,
    together with the session, by the [finally] block. *)
Theorem send_post_request_buffered_releases (env : Env) (url : string)
    (payload : Payload) (stream : option bool) (key content_type : option string)
    (log : list event) :
  flag stream = false →
  ∃ r log',
    send_post_request env url payload stream key content_type log = (r, log')
    ∧ session_releases log'
      = (session_releases log
         + match env_post env url payload key with
           | PostFails _ => 1
           | PostReply rep =>
               if ok rep then 1 else if parsed rep is Some _ then 2 else 1
           end)%nat
    ∧ response_releases log'
      = (response_releases log
         + match env_post env url payload key with
           | PostFails _ => 0
           | PostReply rep =>
               if ok rep then 1 else if parsed rep is Some _ then 2 else 1
           end)%nat.
Proof.
  intros Hs. run_post. rewrite Hs.
  destruct (env_post env url payload key) as [msg|rep]; simpl.
  - eexists _, _. split; [reflexivity|]. rewrite <- ?app_assoc.
    match goal with
    | |- context [log ++ ?l] => destruct (releases_app log l) as [-> ->]
    end.
    unfold session_releases, response_releases; simpl; lia.
  - destruct (ok rep) eqn:Hok, (parsed rep) as [[o|]|]; simpl;
      try destruct (error o); simpl;
      eexists _, _; (split; [reflexivity|]);
      rewrite <- ?app_assoc;
      match goal with
      | |- context [log ++ ?l] => destruct (releases_app log l) as [-> ->]
      end;
      unfold session_releases, response_releases; simpl; lia.
Qed.

Lemma send_post_request_buffered_releases_witness :
  ∃ r log',
    send_post_request offline_env "http://a/api/chat"
      (mkPayload "llama3:latest" [] (Some false) []) (Some false) None None []
    = (r, log')
    ∧ session_releases log' = (session_releases [] + 1)%nat
    ∧ response_releases log' = (response_releases [] + 0)%nat.
Proof.
  apply (send_post_request_buffered_releases offline_env "http://a/api/chat"
           (mkPayload "llama3:latest" [] (Some false) []) (Some false) None None []).
  reflexivity.
Defined.

(** X11.  A streamed POST whose connection fails answers 500 and closes
    nothing: the session it opened stays open. *)
Theorem send_post_request_stream_connection_failure (env : Env) (url : string)
    (payload : Payload) (stream : option bool) (key content_type : option string)
    (log : list event) (msg : string) :
  flag stream = true →
  env_post env url payload key = PostFails msg →
  send_post_request env url payload stream key content_type log
  = (Raise (HTTPException 500 ("Docker Model Runner: " +:+ msg)),
     log ++ [EvPost url payload key]).
Proof.
  intros Hs Hp. run_post. by rewrite Hs, Hp.
Qed.

Lemma send_post_request_stream_connection_failure_witness :
  send_post_request offline_env "http://a/api/chat"
    (mkPayload "llama3:latest" [] None []) (Some true) None None []
  = (Raise (HTTPException 500 ("Docker Model Runner: " +:+ "unreachable")),
     [] ++ [EvPost "http://a/api/chat" (mkPayload "llama3:latest" [] None []) None]).
Proof.
  apply (send_post_request_stream_connection_failure offline_env
           "http://a/api/chat" (mkPayload "llama3:latest" [] None [])
           (Some true) None None [] "unreachable"); reflexivity.
Defined.

(** ** More on chat requests *)

(** X12.  Who may chat.  A request that validates gets past the access
    check iff the bypass is on, or the model is registered and the
    caller's role is not "user", or owns it, or has read access, or the
    model is not registered and the caller is an admin.  A request that
    does not is answered 403 and nothing is sent, pinned or not. *)
Theorem chat_access_decision (env : Env) (st : AppState) (form_data : RawForm)
    (url_idx : option Z) (user : UserModel) (bypass_filter : bool)
    (log : list event) (form : GenerateChatCompletionForm) :
  validate_form form_data = Ok form →
  let allowed :=
    BYPASS_MODEL_ACCESS_CONTROL env = true ∨ bypass_filter = true
    ∨ match env_get_model_by_id env (gc_model form) with
      | Some info =>
          user_role user ≠ "user" ∨ user_id user = info_user_id info
          ∨ env_has_access env (user_id user) (access_control info) = true
      | None => user_role user = "admin"
      end in
  ((∃ payload, prepare_payload env form_data user bypass_filter
               = Ok (form, payload)) ↔ allowed)
  ∧ (¬ allowed →
     generate_chat_completion env st form_data url_idx user bypass_filter log
     = (Raise (HTTPException 403 "Model not found"), log)).
Proof.
  intros Hv allowed.
  assert (¬ allowed →
          prepare_payload env form_data user bypass_filter
          = Raise (HTTPException 403 "Model not found")) as Hdenied.
  { unfold allowed, prepare_payload. rewrite Hv. simpl.
    intros Hn.
    destruct (BYPASS_MODEL_ACCESS_CONTROL env); [by (destruct Hn; left)|].
    destruct bypass_filter; [by (destruct Hn; right; left)|]. simpl.
    destruct (env_get_model_by_id env (gc_model form)) as [info|].
    - case_bool_decide as Hr; [|by (destruct Hn; right; right; left)]. simpl.
      case_bool_decide as Ho; [by (destruct Hn; right; right; right; left)|].
      destruct (env_has_access env _ _); [by (destruct Hn; do 4 right)|]. done.
    - case_bool_decide as Hr; [by (destruct Hn; right; right)|]. done. }
  split; [split|].
  - intros [payload Hp].
    assert (Decision allowed) as Hdec.
    { unfold allowed. destruct (env_get_model_by_id env (gc_model form)); apply _. }
    destruct (decide allowed) as [|Hn]; [done|].
    rewrite (Hdenied Hn) in Hp. done.
  - unfold allowed, prepare_payload. rewrite Hv. simpl. intros Ha.
    destruct (env_get_model_by_id env (gc_model form)) as [info|].
    + destruct (negb (BYPASS_MODEL_ACCESS_CONTROL env || bypass_filter)
                && bool_decide (user_role user = "user")) eqn:Hc; [|eauto].
      apply andb_true_iff in Hc as [Hb Hr]. apply bool_decide_eq_true in Hr.
      apply negb_true_iff, orb_false_iff in Hb as [Hb1 Hb2].
      destruct Ha as [?|[?|[?|[Ho|Hacc]]]]; try congruence.
      * rewrite bool_decide_eq_true_2 by done. simpl. eauto.
      * rewrite Hacc, orb_true_r. simpl. eauto.
    + destruct (negb (BYPASS_MODEL_ACCESS_CONTROL env || bypass_filter)) eqn:Hb;
        [|eauto].
      apply negb_true_iff, orb_false_iff in Hb as [Hb1 Hb2].
      destruct Ha as [?|[?|Hr]]; try congruence.
      rewrite bool_decide_eq_true_2 by done. simpl. eauto.
  - intros Hn. rewrite generate_chat_completion_split. by rewrite (Hdenied Hn).
Qed.

Lemma chat_access_decision_witness :
  ((∃ payload,
      prepare_payload (store_env "helper" "7" None) (chat_request "helper")
        (mkUser "8" "user") false
      = Ok (mkForm "helper" [mkChatMessage "user" (Some "hi") None None]
              (Some true) [], payload))
   ↔ (false = true ∨ false = true
      ∨ ("user" ≠ "user" ∨ "8" = "7" ∨ false = true)))
  ∧ (¬ (false = true ∨ false = true
        ∨ ("user" ≠ "user" ∨ "8" = "7" ∨ false = true)) →
     generate_chat_completion (store_env "helper" "7" None) teamA_state
       (chat_request "helper") (Some 0%Z) (mkUser "8" "user") false []
     = (Raise (HTTPException 403 "Model not found"), [])).
Proof.
  apply (chat_access_decision (store_env "helper" "7" None) teamA_state
           (chat_request "helper") (Some 0%Z) (mkUser "8" "user") false []
           (mkForm "helper" [mkChatMessage "user" (Some "hi") None None]
              (Some true) [])).
  reflexivity.
Defined.

(** X14.  A chat request pinned to a backend does not consult the catalog.
    Once past validation and the access check it is sent to the backend
    at that index, counted from the end for a negative one, whether or
    not the catalog lists the model; the prefix taken off the name and
    the key are those of the configuration found under the index as it
    was given. *)
Theorem pinned_chat_bypasses_catalog (env : Env) (st : AppState)
    (form_data : RawForm) (idx : Z) (user : UserModel) (bypass_filter : bool)
    (log : list event) (form : GenerateChatCompletionForm) (payload : Payload)
    (url : string) :
  prepare_payload env form_data user bypass_filter = Ok (form, payload) →
  Py.index (DOCKER_MODEL_RUNNER_BASE_URLS st) idx = Some url →
  let api_config := config_for (DOCKER_MODEL_RUNNER_API_CONFIGS st) idx url in
  let name :=
    if Py.truthy_opt (cfg_prefix_id api_config)
    then Py.replace (Py.str_opt (cfg_prefix_id api_config) +:+ ".") ""
           (payload_model payload)
    else payload_model payload in
  ∃ r log',
    generate_chat_completion env st form_data (Some idx) user bypass_filter log
    = (r, log')
    ∧ forwarded log'
      = forwarded log
        ++ [EvPost (url +:+ "/api/chat") (set_payload_model name payload)
              (get_api_key env idx url (DOCKER_MODEL_RUNNER_API_CONFIGS st))].
Proof.
  intros Hp Hidx api_config name.
  rewrite generate_chat_completion_split, Hp.
  unfold bind, get_runner_url, bind, ret. rewrite Hidx.
  unfold forward_chat. simpl. fold api_config.
  assert (set_payload_model name payload
          = if Py.truthy_opt (cfg_prefix_id api_config)
            then set_payload_model
                   (Py.replace (Py.str_opt (cfg_prefix_id api_config) +:+ ".") ""
                      (payload_model payload)) payload
            else payload) as ->.
  { unfold name. destruct (Py.truthy_opt _); [done|]. by destruct payload. }
  apply send_post_request_forwards.
Qed.

Lemma pinned_chat_bypasses_catalog_witness :
  ∃ r log',
    generate_chat_completion (teamA_env "llama3" (PostFails "") 0) teamA_state
      (chat_request "teamA.phi") (Some 0%Z) admin false []
    = (r, log')
    ∧ forwarded log'
      = forwarded []
        ++ [EvPost ("http://runner:12434" +:+ "/api/chat")
              (set_payload_model "phi:latest"
                 (mkPayload "teamA.phi:latest"
                    [mkChatMessage "user" (Some "hi") None None] (Some true) []))
              (get_api_key (teamA_env "llama3" (PostFails "") 0) 0
                 "http://runner:12434" (DOCKER_MODEL_RUNNER_API_CONFIGS teamA_state))].
Proof.
  apply (pinned_chat_bypasses_catalog (teamA_env "llama3" (PostFails "") 0)
           teamA_state (chat_request "teamA.phi") 0 admin false []
           (mkForm "teamA.phi" [mkChatMessage "user" (Some "hi") None None]
              (Some true) [])
           (mkPayload "teamA.phi:latest"
              [mkChatMessage "user" (Some "hi") None None] (Some true) [])
           "http://runner:12434"); reflexivity.
Defined.

Lemma get_runner_url_log env st name url_idx log :
  ∃ r, get_runner_url env st name url_idx log = (r, log).
Proof.
  unfold get_runner_url, bind, ret, raise.
  destruct url_idx as [i|].
  - destruct (Py.index _ i); eauto.
  - destruct (DOCKER_MODEL_RUNNER_MODELS st !! name) as [record|]; [|eauto].
    destruct (random_choice env (urls record)) as [i|]; [|eauto].
    destruct (Py.index _ (Z.of_nat i)); eauto.
Qed.

(** X15.  A chat request sends at most one request to a backend, a POST.
    Either it fails before anything is sent, leaving the log as it was,
    or exactly one POST is forwarded. *)
Theorem chat_forwards_at_most_once (env : Env) (st : AppState)
    (form_data : RawForm) (url_idx : option Z) (user : UserModel)
    (bypass_filter : bool) (log : list event) :
  ∃ r log',
    generate_chat_completion env st form_data url_idx user bypass_filter log
    = (r, log')
    ∧ ((∃ e, r = Raise e ∧ log' = log)
       ∨ ∃ url payload key,
           forwarded log' = forwarded log ++ [EvPost url payload key]).
Proof.
  rewrite generate_chat_completion_split.
  destruct (prepare_payload env form_data user bypass_filter) as [[form p]|e];
    [|eauto 10].
  unfold bind.
  destruct (get_runner_url_log env st (payload_model p) url_idx log) as [r ->].
  destruct r as [r|e]; [|eauto 10].
  unfold forward_chat.
  match goal with
  | |- context [send_post_request ?e ?u ?p ?s ?k ?c ?l] =>
      destruct (send_post_request_forwards e u p s k c l) as (r' & log' & -> & Hf)
  end.
  eauto 10.
Qed.

(** X16.  Which messages [ChatMessage] accepts.  A message passes iff its
    role is a string, its content is a string or missing, and
    [tool_calls] and [images] are lists, null or missing; what
    [tool_calls] holds never decides. *)
Theorem validate_ChatMessage_accepts_iff (raw : RawMessage) :
  (∃ m, validate_ChatMessage raw = Ok m)
  ↔ (∃ r, raw_role raw = Val r)
    ∧ (raw_content raw = Absent ∨ ∃ c, raw_content raw = Val c)
    ∧ raw_tool_calls raw ≠ Bad
    ∧ raw_images raw ≠ Bad.
Proof.
  unfold validate_ChatMessage, check_at_least_one_field.
  destruct raw as [r c t i]. simpl.
  destruct r, c, t, i; simpl; split;
    try (intros [m Hm]; discriminate Hm);
    try (intros ([? ?] & [?|[? ?]] & ? & ?); congruence);
    try (intros _; split_and!; eauto; done);
    try (intros _; eauto).
Qed.

(** X17.  A registered model that is an alias is looked up under its base
    model: when the store gives the requested name a non-empty
    [base_model_id] and no parameters, the name resolved and forwarded
    is the base model's, with ":latest" added when it has no colon. *)
Theorem alias_is_replaced_by_base_model (env : Env) (form_data : RawForm)
    (user : UserModel) (bypass_filter : bool)
    (form : GenerateChatCompletionForm) (payload : Payload)
    (info : ModelInfo) (base : string) :
  prepare_payload env form_data user bypass_filter = Ok (form, payload) →
  env_get_model_by_id env (gc_model form) = Some info →
  base_model_id info = Some base →
  base ≠ "" →
  params info = None →
  payload_model payload
  = if Py.contains ":" base then base else base +:+ ":latest".
Proof.
  intros Hp Hinfo Hbase Hne Hpar. unfold prepare_payload in Hp.
  destruct (validate_form form_data) as [f|e]; [|done].
  assert (f = form) as ->.
  { match type of Hp with
    | match ?c with _ => _ end = _ => destruct c; [|done]
    end. by simplify_eq. }
  simpl in Hp. rewrite Hinfo, Hbase, Hpar in Hp. simpl in Hp.
  unfold Py.truthy in Hp. rewrite (bool_decide_eq_false_2 (base = "")) in Hp by done.
  simpl in Hp.
  destruct (negb (BYPASS_MODEL_ACCESS_CONTROL env || bypass_filter)
            && bool_decide (user_role user = "user")).
  - destruct (negb _); [done|]. simplify_eq. simpl.
    by destruct (Py.contains ":" base).
  - simplify_eq. simpl. by destruct (Py.contains ":" base).
Qed.

Lemma alias_is_replaced_by_base_model_witness :
  payload_model
    (mkPayload "llama3:latest" [mkChatMessage "user" (Some "hi") None None]
       (Some true) [])
  = if Py.contains ":" "llama3" then "llama3" else "llama3" +:+ ":latest".
Proof.
  apply (alias_is_replaced_by_base_model (store_env "helper" "7" (Some "llama3"))
           (chat_request "helper") (mkUser "7" "user") false
           (mkForm "helper" [mkChatMessage "user" (Some "hi") None None]
              (Some true) [])
           _ (mkModelInfo (Some "llama3") None "7" None) "llama3");
    try reflexivity. done.
Defined.

(** X18.  Switching the API off empties the catalog at the next refresh,
    and from then on no chat request that names no backend is
    forwarded: each one is answered with an error. *)
Theorem refresh_while_switched_off_stops_chat (env : Env) (st : AppState)
    (log : list event) :
  flag (ENABLE_DOCKER_MODEL_RUNNER_API st) = false →
  ∃ st',
    get_all_models env st log = (Ok ([], st'), log)
    ∧ DOCKER_MODEL_RUNNER_MODELS st' = ∅
    ∧ ∀ env' form_data user bypass_filter log',
        ∃ e, generate_chat_completion env' st' form_data None user
               bypass_filter log' = (Raise e, log').
Proof.
  intros Hoff. rewrite get_all_models_run.
  unfold catalog_of, refresh_events. rewrite Hoff, app_nil_r.
  eexists. split; [reflexivity|]. split; [reflexivity|].
  intros env' form_data user bypass_filter log'.
  rewrite generate_chat_completion_split.
  destruct (prepare_payload env' form_data user bypass_filter) as [[form p]|e];
    [|eauto].
  unfold bind. rewrite get_runner_url_not_found by done. eauto.
Qed.

Lemma refresh_while_switched_off_stops_chat_witness :
  ∃ st',
    get_all_models offline_env switched_off_state [] = (Ok ([], st'), [])
    ∧ DOCKER_MODEL_RUNNER_MODELS st' = ∅
    ∧ ∀ env' form_data user bypass_filter log',
        ∃ e, generate_chat_completion env' st' form_data None user
               bypass_filter log' = (Raise e, log').
Proof.
  apply (refresh_while_switched_off_stops_chat offline_env switched_off_state []).
  reflexivity.
Defined.

(** ** More on the refresh *)

Lemma call_events_filter_gen st path (l : list (nat * string)) :
  call_events (planned_call st path <$> l)
  = (λ e : nat * string, EvGet (e.2 +:+ path) (cfg_key (backend_config st e)))
      <$> filter (λ e, enabled (backend_config st e) = true) l.
Proof.
  induction l as [|e l IH]; [done|].
  rewrite fmap_cons, (call_events_cons (planned_call st path e)), IH.
  unfold planned_call at 1.
  destruct (enabled (backend_config st e)) eqn:He.
  - by rewrite filter_cons_True by done.
  - by rewrite filter_cons_False by (by rewrite He).
Qed.

Lemma call_events_filter st path :
  call_events (planned_calls st path)
  = (λ e : nat * string, EvGet (e.2 +:+ path) (cfg_key (backend_config st e)))
      <$> filter (λ e, enabled (backend_config st e) = true)
            (enumerate (DOCKER_MODEL_RUNNER_BASE_URLS st)).
Proof. apply call_events_filter_gen. Qed.

(** X19.  A refresh with the API on asks every enabled backend exactly
    twice, in the order of the registry: first each for its tags, then
    each for its loaded models, with the backend's key; it sends nothing
    else. *)
Theorem refresh_asks_each_enabled_backend_twice (env : Env) (st : AppState)
    (log : list event) :
  flag (ENABLE_DOCKER_MODEL_RUNNER_API st) = true →
  let asked := filter (λ e, enabled (backend_config st e) = true)
                 (enumerate (DOCKER_MODEL_RUNNER_BASE_URLS st)) in
  ∃ r,
    get_all_models env st log
    = (Ok r,
       log
       ++ ((λ e : nat * string,
              EvGet (e.2 +:+ "/api/tags") (cfg_key (backend_config st e)))
             <$> asked)
       ++ ((λ e : nat * string,
              EvGet (e.2 +:+ "/api/ps") (cfg_key (backend_config st e)))
             <$> asked)).
Proof.
  intros Hen asked. rewrite get_all_models_run. unfold refresh_events.
  rewrite Hen, !call_events_filter. eauto.
Qed.

Lemma refresh_asks_each_enabled_backend_twice_witness :
  ∃ r,
    get_all_models (mixed_env 0) mixed_state []
    = (Ok r,
       [EvGet "http://a/api/tags" None; EvGet "http://c/api/tags" None;
        EvGet "http://d/api/tags" None; EvGet "http://a/api/ps" None;
        EvGet "http://c/api/ps" None; EvGet "http://d/api/ps" None]).
Proof.
  apply (refresh_asks_each_enabled_backend_twice (mixed_env 0) mixed_state []).
  reflexivity.
Defined.

Lemma model_transform_model cfg m :
  model (transform_model cfg m) = model (apply_prefix cfg m).
Proof.
  unfold transform_model.
  destruct (Py.truthy _), (bool_decide (cfg_tags cfg = [])); done.
Qed.

Lemma model_apply_prefix cfg m native :
  model m = Some native →
  model (apply_prefix cfg m)
  = Some (if Py.truthy_opt (cfg_prefix_id cfg)
          then Py.str_opt (cfg_prefix_id cfg) +:+ "." +:+ native
          else native).
Proof.
  intros Hm. unfold apply_prefix.
  destruct (Py.truthy_opt (cfg_prefix_id cfg)); [|done].
  simpl. by rewrite Hm.
Qed.

(** X20.  The allow-list of a backend is matched against the names the
    backend reports, before the prefix is put on.  Every catalog record
    served by a backend with a non-empty allow-list carries the name of
    an allowed model, with that backend's prefix. *)
Theorem catalog_respects_allow_list (env : Env) (st : AppState)
    (log log' : list event) (catalog : list Model) (st' : AppState)
    (r : Model) (idx : nat) (url : string) :
  get_all_models env st log = (Ok (catalog, st'), log') →
  r ∈ catalog →
  idx ∈ urls r →
  DOCKER_MODEL_RUNNER_BASE_URLS st !! idx = Some url →
  cfg_model_ids (backend_config st (idx, url)) ≠ [] →
  ∃ native,
    native ∈ cfg_model_ids (backend_config st (idx, url))
    ∧ model r
      = Some (if Py.truthy_opt (cfg_prefix_id (backend_config st (idx, url)))
              then Py.str_opt (cfg_prefix_id (backend_config st (idx, url)))
                   +:+ "." +:+ native
              else native).
Proof.
  rewrite get_all_models_run. intros [= <- _ _] Hr Hidx Hurl Hids.
  unfold catalog_of in Hr.
  destruct (flag (ENABLE_DOCKER_MODEL_RUNNER_API st)); [|by apply elem_of_nil in Hr].
  apply elem_of_annotate_expiry in Hr as (r0 & Hr0 & Hm & Hu).
  rewrite Hu in Hidx. rewrite Hm.
  destruct (merge_models_lists_urls _ _ _ Hr0 Hidx) as (l & m & Hl & Hml & <-).
  apply lookup_tags_lists in Hl as (url' & response & Hurl' & _ & _ & _ & ->).
  assert (url' = url) as -> by congruence.
  set (cfg := backend_config st (idx, url)) in *.
  unfold transform_response in Hml.
  destruct (models response) as [l0|] eqn:Hl0.
  - rewrite bool_decide_eq_false_2 in Hml by done. simpl in Hml.
    apply list_elem_of_fmap in Hml as (m0 & -> & Hm0).
    apply list_elem_of_filter in Hm0 as [Hal _]. unfold allowed in Hal.
    destruct (model m0) as [native|] eqn:Hn; [|done].
    apply bool_decide_eq_true in Hal. exists native. split; [done|].
    rewrite model_transform_model. by apply model_apply_prefix.
  - repeat (rewrite Hl0 in Hml; simpl in Hml). by apply elem_of_nil in Hml.
Qed.

Lemma catalog_respects_allow_list_witness :
  ∃ native,
    native ∈ cfg_model_ids (backend_config curated_state (0%nat, "http://a"))
    ∧ model (mkModel (Some "teamA.llama3:latest") [0%nat] ["fast"]
               (Some "docker") (Some (ExpEpoch 1767225600))
               [("digest", "sha256:0")])
      = Some (if Py.truthy_opt
                   (cfg_prefix_id (backend_config curated_state (0%nat, "http://a")))
              then Py.str_opt
                     (cfg_prefix_id (backend_config curated_state (0%nat, "http://a")))
                   +:+ "." +:+ native
              else native).
Proof.
  eapply (catalog_respects_allow_list curated_env curated_state [] _ _ _ _ 0
            "http://a").
  - reflexivity.
  - left.
  - left.
  - reflexivity.
  - done.
Defined.

Lemma annotate_expiry_only env em ms :
  Forall2
    (λ r0 r,
       r = r0
       ∨ ∃ name e t, model r0 = Some name ∧ em !! name = Some e
           ∧ epoch_of env e = Some t ∧ r = set_expires_at t r0)
    ms (annotate_expiry env em ms).
Proof.
  induction ms as [|m ms IH]; simpl; [constructor|].
  destruct (model m ≫= (λ id, em !! id)) as [e|] eqn:He.
  - destruct (epoch_of env e) as [t|] eqn:Ht.
    + constructor; [|done]. right.
      destruct (model m) as [name|] eqn:Hn; [|done]. simpl in He.
      exists name, e, t. done.
    + constructor; [by left|]. clear. induction ms; constructor; auto.
  - constructor; [by left|done].
Qed.

(** X21.  The second half of a refresh changes nothing but [expires_at].
    The catalog is the merge of the tag lists, record by record; a
    record differs from the merged one only where a loaded model of its
    name has an expiry that converts, and then only in [expires_at],
    which holds that expiry in epoch seconds. *)
Theorem refresh_only_annotates_expiry (env : Env) (st : AppState)
    (log : list event) :
  flag (ENABLE_DOCKER_MODEL_RUNNER_API st) = true →
  ∃ catalog st' log',
    get_all_models env st log = (Ok (catalog, st'), log')
    ∧ Forall2
        (λ r0 r,
           r = r0
           ∨ ∃ name e t,
               model r0 = Some name
               ∧ expires_map (loaded_of env st) !! name = Some e
               ∧ epoch_of env e = Some t
               ∧ r = set_expires_at t r0)
        (merge_models_lists (tags_lists env st)) catalog.
Proof.
  intros Hen. rewrite get_all_models_run. eexists _, _, _.
  split; [reflexivity|]. unfold catalog_of. rewrite Hen.
  apply annotate_expiry_only.
Qed.

Lemma refresh_only_annotates_expiry_witness :
  ∃ catalog st' log',
    get_all_models curated_env curated_state [] = (Ok (catalog, st'), log')
    ∧ Forall2
        (λ r0 r,
           r = r0
           ∨ ∃ name e t,
               model r0 = Some name
               ∧ expires_map (loaded_of curated_env curated_state) !! name = Some e
               ∧ epoch_of curated_env e = Some t
               ∧ r = set_expires_at t r0)
        (merge_models_lists (tags_lists curated_env curated_state)) catalog.
Proof.
  apply (refresh_only_annotates_expiry curated_env curated_state []).
  reflexivity.
Defined.

(** The catalog of the curated registry: the allowed model, under its
    prefixed name, with the tags of the configuration and the expiry of
    the loaded model. *)
Example refresh_of_curated_registry :
  (get_all_models curated_env curated_state []).1
  = Ok ([mkModel (Some "teamA.llama3:latest") [0%nat] ["fast"] (Some "docker")
           (Some (ExpEpoch 1767225600)) [("digest", "sha256:0")]],
        set_MODELS (models_index (catalog_of curated_env curated_state))
          curated_state).
Proof. reflexivity. Qed.

(** X22.  A refresh replaces the index, it does not add to it.  The new
    index holds exactly the records of the catalog, each under its name,
    whatever the index held before; registry and configuration are left
    as they were. *)
Theorem refresh_replaces_index (env : Env) (st : AppState) (log : list event) :
  ∃ catalog st' log',
    get_all_models env st log = (Ok (catalog, st'), log')
    ∧ (∀ name r,
         DOCKER_MODEL_RUNNER_MODELS st' !! name = Some r
         ↔ r ∈ catalog ∧ model r = Some name)
    ∧ ENABLE_DOCKER_MODEL_RUNNER_API st' = ENABLE_DOCKER_MODEL_RUNNER_API st
    ∧ DOCKER_MODEL_RUNNER_BASE_URLS st' = DOCKER_MODEL_RUNNER_BASE_URLS st
    ∧ DOCKER_MODEL_RUNNER_API_CONFIGS st' = DOCKER_MODEL_RUNNER_API_CONFIGS st.
Proof.
  rewrite get_all_models_run. eexists _, _, _. split; [reflexivity|].
  split; [|done]. intros name r. simpl. split.
  - apply models_index_Some.
  - intros [Hr Hn]. apply models_index_NoDup; [apply catalog_of_NoDup|done..].
Qed.

Lemma lookup_loaded_lists env st idx url response :
  DOCKER_MODEL_RUNNER_BASE_URLS st !! idx = Some url →
  enabled (backend_config st (idx, url)) = true →
  get_value env (url +:+ "/api/ps") (cfg_key (backend_config st (idx, url)))
  = Some response →
  response_truthy response = true →
  (models_of <$> transform_responses transform_loaded_response st
                   (fetched env st "/api/ps")) !! idx
  = Some (Some (apply_prefix (backend_config st (idx, url))
                  <$> default [] (models response))).
Proof.
  intros Hurl Hen Hget Htr.
  rewrite list_lookup_fmap, lookup_transform_responses, lookup_fetched, Hurl.
  simpl. rewrite Hen, Hget. simpl. rewrite Htr. simpl.
  unfold transform_loaded_response.
  destruct (models response) as [l|] eqn:Hl.
  - by rewrite response_truthy_set_models.
  - by rewrite Htr, Hl.
Qed.

(** X23.  The list of loaded models takes no notice of a backend's
    allow-list, tags or connection type: every named model an enabled
    backend reports as loaded is listed, under its prefixed name, with
    that backend among its [urls]. *)
Theorem get_loaded_models_ignores_allow_list (env : Env) (st : AppState)
    (log : list event) (idx : nat) (url : string) (response : Response)
    (m : Model) (native : string) :
  flag (ENABLE_DOCKER_MODEL_RUNNER_API st) = true →
  DOCKER_MODEL_RUNNER_BASE_URLS st !! idx = Some url →
  enabled (backend_config st (idx, url)) = true →
  get_value env (url +:+ "/api/ps") (cfg_key (backend_config st (idx, url)))
  = Some response →
  m ∈ default [] (models response) →
  model m = Some native →
  ∃ loaded log' r,
    get_loaded_models env st log = (Ok loaded, log')
    ∧ r ∈ loaded
    ∧ idx ∈ urls r
    ∧ model r
      = Some (if Py.truthy_opt (cfg_prefix_id (backend_config st (idx, url)))
              then Py.str_opt (cfg_prefix_id (backend_config st (idx, url)))
                   +:+ "." +:+ native
              else native).
Proof.
  intros Hen Hurl Hbe Hget Hm Hn. rewrite get_loaded_models_run by done.
  assert (response_truthy response = true) as Htr.
  { unfold response_truthy. destruct (models response); [done|].
    by apply elem_of_nil in Hm. }
  pose proof (lookup_loaded_lists env st idx url response Hurl Hbe Hget Htr) as Hl.
  set (cfg := backend_config st (idx, url)) in *.
  destruct (merge_models_lists_covers _ idx _ (apply_prefix cfg m)
              (if Py.truthy_opt (cfg_prefix_id cfg)
               then Py.str_opt (cfg_prefix_id cfg) +:+ "." +:+ native
               else native) Hl) as (r & Hr & Hmr & Hidx).
  - apply list_elem_of_fmap. eauto.
  - by apply model_apply_prefix.
  - exists (loaded_of env st), (log ++ call_events (planned_calls st "/api/ps")), r.
    done.
Qed.

Lemma get_loaded_models_ignores_allow_list_witness :
  ∃ loaded log' r,
    get_loaded_models curated_env curated_state [] = (Ok loaded, log')
    ∧ r ∈ loaded
    ∧ 0%nat ∈ urls r
    ∧ model r
      = Some (if Py.truthy_opt
                   (cfg_prefix_id (backend_config curated_state (0%nat, "http://a")))
              then Py.str_opt
                     (cfg_prefix_id (backend_config curated_state (0%nat, "http://a")))
                   +:+ "." +:+ "phi:latest"
              else "phi:latest").
Proof.
  apply (get_loaded_models_ignores_allow_list curated_env curated_state [] 0
           "http://a"
           (mkResponse
              (Some [loaded_model "phi:latest"; loaded_model "llama3:latest"])
              None None)
           (loaded_model "phi:latest") "phi:latest"); try reflexivity.
  left.
Defined.

(** ** The model list *)

Lemma may_read_spec env user m :
  may_read env user m = true
  ↔ ∃ name info,
      model m = Some name
      ∧ env_get_model_by_id env name = Some info
      ∧ (user_id user = info_user_id info
         ∨ env_has_access env (user_id user) (access_control info) = true).
Proof.
  unfold may_read. destruct (model m) as [name|]; simpl.
  - destruct (env_get_model_by_id env name) as [info|] eqn:Hi.
    + rewrite orb_true_iff, bool_decide_eq_true. split.
      * intros H. exists name, info. done.
      * intros (? & ? & [= <-] & ? & H). by simplify_eq.
    + split; [done|]. intros (? & ? & [= <-] & ? & _). congruence.
  - split; [done|]. by intros (? & ? & ? & _).
Qed.

(** ** Connection check *)

(** * The version query over version strings *)

(** ** Reading a version *)

Lemma digit_pretty_N_char (y : N) :
  (y < 10)%N → Py.digit (pretty_N_char y) = Some (Z.of_N y).
Proof.
  intros Hy.
  assert (y = 0 ∨ y = 1 ∨ y = 2 ∨ y = 3 ∨ y = 4 ∨ y = 5 ∨ y = 6 ∨ y = 7
          ∨ y = 8 ∨ y = 9)%N as H by lia.
  repeat (destruct H as [->|H]; [reflexivity|]). by subst.
Qed.

Lemma numeral_pretty_N_go (x : N) (s : string) :
  numeral s = true → numeral (pretty_N_go x s) = true.
Proof.
  revert s. induction (N.lt_wf_0 x) as [x _ IH]; intros s Hs.
  assert (x = 0 ∨ 0 < x)%N as [->|Hx] by lia; [by rewrite pretty_N_go_0|].
  rewrite pretty_N_go_step by done. apply IH; [by apply N.div_lt|].
  simpl. rewrite Hs, andb_true_r. apply bool_decide_eq_true.
  rewrite digit_pretty_N_char; [done|]. by apply N.mod_lt.
Qed.

Lemma numeral_pretty (n : N) : numeral (pretty n) = true.
Proof.
  unfold pretty, pretty_N. case_decide; [done|]. by apply numeral_pretty_N_go.
Qed.

Lemma digits_pretty_N_go (x : N) (s : string) :
  (0 < x)%N →
  ∃ k : nat, ∀ acc b,
    Py.digits acc b (pretty_N_go x s)
    = Py.digits (acc * 10 ^ Z.of_nat k + Z.of_N x) true s.
Proof.
  revert s. induction (N.lt_wf_0 x) as [x _ IH]; intros s Hx.
  rewrite pretty_N_go_step by done.
  assert (Py.digit (pretty_N_char (x `mod` 10)) = Some (Z.of_N (x `mod` 10)))
    as Hd by (apply digit_pretty_N_char; by apply N.mod_lt).
  destruct (N.eq_0_gt_0_cases (x `div` 10)) as [H0|Hpos].
  - rewrite H0, pretty_N_go_0. exists 1%nat. intros acc b. simpl Py.digits.
    rewrite Hd. f_equal.
    pose proof (N.Div0.div_mod x 10) as Hdm. rewrite H0 in Hdm.
    change (10 ^ Z.of_nat 1)%Z with 10%Z. lia.
  - destruct (IH (x `div` 10)%N) with (s := String (pretty_N_char (x `mod` 10)) s)
      as [k Hk]; [by apply N.div_lt|done|].
    exists (S k). intros acc b. rewrite Hk. simpl Py.digits. rewrite Hd. f_equal.
    pose proof (N.Div0.div_mod x 10) as Hdm.
    rewrite Nat2Z.inj_succ, Z.pow_succ_r by lia.
    set (p := (10 ^ Z.of_nat k)%Z). lia.
Qed.

Lemma digits_pretty (n : N) : Py.digits 0 false (pretty n) = Some (Z.of_N n).
Proof.
  unfold pretty, pretty_N. case_decide as Hn; [by subst|].
  destruct (digits_pretty_N_go n "") as [k Hk]; [lia|].
  rewrite Hk. simpl. f_equal; lia.
Qed.

Lemma pretty_N_nonempty (n : N) : pretty n ≠ "".
Proof.
  intros H. pose proof (digits_pretty n) as Hd. rewrite H in Hd. done.
Qed.

Lemma digit_not_space c : is_Some (Py.digit c) → Py.is_space c = false.
Proof.
  unfold Py.digit, Py.is_space. intros [d Hd].
  destruct (48 <=? nat_of_ascii c)%nat eqn:H1; [|done].
  destruct (nat_of_ascii c <=? 57)%nat eqn:H2; [|done].
  apply Nat.leb_le in H1, H2.
  rewrite (proj2 (Nat.leb_gt _ 13)) by lia.
  rewrite (proj2 (Nat.leb_gt _ 32)) by lia.
  by rewrite !andb_false_r.
Qed.

Lemma rstrip_go_numeral (s : string) :
  numeral s = true → s ≠ "" → Py.rstrip_go s = Some s.
Proof.
  induction s as [|c s IH]; [done|]. simpl.
  intros [Hc Hs]%andb_true_iff _. apply bool_decide_eq_true in Hc.
  destruct s as [|c' s'].
  - simpl. by rewrite digit_not_space.
  - by rewrite IH.
Qed.

Lemma digit_cases c :
  is_Some (Py.digit c) →
  c ≠ "+"%char ∧ c ≠ "-"%char ∧ c ≠ "v"%char ∧ c ≠ "."%char ∧ c ≠ "010"%char.
Proof.
  intros [d Hd]. split_and!; intros ->; done.
Qed.

Lemma int_numeral (s : string) :
  numeral s = true → s ≠ "" → Py.int s = Py.digits 0 false s.
Proof.
  intros Hn Hne. unfold Py.int, Py.strip.
  destruct s as [|c s]; [done|].
  assert (is_Some (Py.digit c)) as Hc.
  { simpl in Hn. apply andb_true_iff in Hn as [Hc _].
    by apply bool_decide_eq_true in Hc. }
  assert (Py.lstrip (String c s) = String c s) as ->.
  { simpl. by rewrite digit_not_space. }
  rewrite rstrip_go_numeral by done. simpl default.
  destruct (digit_cases c Hc) as (Hp & Hm & _).
  destruct c as [[] [] [] [] [] [] [] []]; try done.
Qed.

Lemma int_pretty (n : N) : Py.int (pretty n) = Some (Z.of_N n).
Proof.
  rewrite int_numeral; [apply digits_pretty|apply numeral_pretty|apply pretty_N_nonempty].
Qed.

Lemma numeral_head c s : numeral (String c s) = true → is_Some (Py.digit c).
Proof. simpl. intros [Hc _]%andb_true_iff. by apply bool_decide_eq_true in Hc. Qed.

Lemma split_numeral (p : string) : numeral p = true → Py.split "." p = [p].
Proof.
  induction p as [|c p IH]; [done|]. intros Hn.
  destruct (digit_cases c (numeral_head c p Hn)) as (_ & _ & _ & Hdot & _).
  simpl in Hn. apply andb_true_iff in Hn as [_ Hp].
  simpl. rewrite bool_decide_eq_false_2 by done. by rewrite IH.
Qed.

Lemma split_numeral_dot (p rest : string) :
  numeral p = true →
  Py.split "." (p +:+ String "." rest) = p :: Py.split "." rest.
Proof.
  induction p as [|c p IH]; [done|]. intros Hn.
  destruct (digit_cases c (numeral_head c p Hn)) as (_ & _ & _ & Hdot & _).
  simpl in Hn. apply andb_true_iff in Hn as [_ Hp].
  rewrite string_app_cons. simpl. rewrite bool_decide_eq_false_2 by done.
  by rewrite IH.
Qed.

Lemma split_dotted (ns : list N) :
  ns ≠ [] → Py.split "." (dotted ns) = pretty <$> ns.
Proof.
  induction ns as [|n ns IH]; [done|]. intros _.
  destruct ns as [|m ns].
  - simpl. apply split_numeral, numeral_pretty.
  - change (dotted (n :: m :: ns))
      with (pretty n +:+ String "." (dotted (m :: ns))).
    rewrite split_numeral_dot by apply numeral_pretty.
    by rewrite IH.
Qed.

Lemma drop_dashed_numeral_app (p rest : string) :
  numeral p = true →
  drop_dashed false (p +:+ rest) = p +:+ drop_dashed false rest.
Proof.
  induction p as [|c p IH]; [done|]. intros Hn.
  destruct (digit_cases c (numeral_head c p Hn)) as (_ & Hm & _ & _ & Hlf).
  simpl in Hn. apply andb_true_iff in Hn as [_ Hp].
  rewrite !string_app_cons. simpl.
  rewrite !bool_decide_eq_false_2 by done. by rewrite IH.
Qed.

Lemma string_app_nil_r (s : string) : s +:+ "" = s.
Proof. induction s as [|c s IH]; [done|]. by rewrite string_app_cons, IH. Qed.

Lemma drop_dashed_dotted (ns : list N) :
  drop_dashed false (dotted ns) = dotted ns.
Proof.
  induction ns as [|n ns IH]; [done|].
  destruct ns as [|m ns].
  - simpl dotted. rewrite <- (string_app_nil_r (pretty n)) at 1.
    rewrite drop_dashed_numeral_app by apply numeral_pretty.
    simpl. apply string_app_nil_r.
  - change (dotted (n :: m :: ns))
      with (pretty n +:+ String "." (dotted (m :: ns))).
    rewrite drop_dashed_numeral_app by apply numeral_pretty.
    change (drop_dashed false (String "." (dotted (m :: ns))))
      with (String "." (drop_dashed false (dotted (m :: ns)))).
    by rewrite IH.
Qed.

Lemma dotted_head (ns : list N) :
  ns ≠ [] → ∃ c rest, dotted ns = String c rest ∧ is_Some (Py.digit c).
Proof.
  destruct ns as [|n ns]; [done|]. intros _.
  pose proof (numeral_pretty n) as Hn. pose proof (pretty_N_nonempty n) as Hne.
  destruct (pretty n) as [|c p] eqn:Hp; [done|].
  pose proof (numeral_head c p Hn) as Hc.
  destruct ns as [|m ns].
  - exists c, p. simpl. by rewrite Hp.
  - exists c, (p +:+ String "." (dotted (m :: ns))).
    change (dotted (n :: m :: ns))
      with (pretty n +:+ String "." (dotted (m :: ns))).
    by rewrite Hp.
Qed.

Lemma re_sub_version_not_v c (rest : string) :
  c ≠ "v"%char →
  re_sub_version (String c rest) = drop_dashed false (String c rest).
Proof.
  intros Hv. unfold re_sub_version.
  destruct c as [[] [] [] [] [] [] [] []]; done.
Qed.

Lemma drop_dashed_reading (ns : list N) (suf : string) :
  suf = "" ∨ (∃ t, suf = "-" +:+ t ∧ one_line t = true) →
  drop_dashed false (dotted ns +:+ suf) = dotted ns.
Proof.
  intros [->|(t & -> & Ht)].
  - rewrite string_app_nil_r. apply drop_dashed_dotted.
  - rewrite drop_dashed_suffix by done. apply drop_dashed_dotted.
Qed.

Lemma mapM_int_pretty (ns : list N) :
  mapM Py.int (pretty <$> ns) = Some (Z.of_N <$> ns).
Proof.
  induction ns as [|n ns IH]; [done|].
  rewrite !fmap_cons.
  change (mapM Py.int (pretty n :: (pretty <$> ns)))
    with (x ← Py.int (pretty n); k ← mapM Py.int (pretty <$> ns); Some (x :: k)).
  by rewrite int_pretty, IH.
Qed.

Lemma version_tuple_reads (s : string) (ns : list N) :
  reads_as s ns → version_tuple s = Some (Z.of_N <$> ns).
Proof.
  intros (Hne & pre & suf & -> & Hpre & Hsuf). unfold version_tuple.
  assert (re_sub_version (pre +:+ dotted ns +:+ suf) = dotted ns) as ->.
  { destruct Hpre as [->| ->].
    - destruct (dotted_head ns Hne) as (c & rest & Hd & Hc).
      change ("" +:+ dotted ns +:+ suf) with (dotted ns +:+ suf).
      transitivity (drop_dashed false (dotted ns +:+ suf));
        [|by apply drop_dashed_reading].
      rewrite Hd, string_app_cons.
      apply re_sub_version_not_v. by destruct (digit_cases c Hc) as (_ & _ & ? & _).
    - change (re_sub_version ("v" +:+ dotted ns +:+ suf))
        with (drop_dashed false (dotted ns +:+ suf)).
      by apply drop_dashed_reading. }
  rewrite split_dotted by done. apply mapM_int_pretty.
Qed.

Lemma version_key_reads (x : Response) (s : string) (ns : list N) :
  version x = Some s → reads_as s ns → version_key x = Some (Z.of_N <$> ns).
Proof.
  intros Hv Hr. unfold version_key. rewrite Hv. simpl.
  by apply version_tuple_reads.
Qed.

(** ** The lowest version *)

Lemma tuple_lt_asym a b : Py.tuple_lt a b = true → Py.tuple_lt b a = false.
Proof.
  intros Hab. destruct (Py.tuple_lt b a) eqn:Hba; [|done].
  by rewrite <- (tuple_lt_irrefl a), (tuple_lt_trans _ _ _ Hab Hba).
Qed.

Lemma min_from_least_first_gen {A} (best : A * list Z) (l : list (A * list Z)) :
  (Py.min_from best l = best.1 ∧ ∀ q, q ∈ l → Py.tuple_lt q.2 best.2 = false)
  ∨ ∃ l1 p l2, l = l1 ++ p :: l2 ∧ Py.min_from best l = p.1
      ∧ Py.tuple_lt p.2 best.2 = true
      ∧ (∀ q, q ∈ l1 → Py.tuple_lt p.2 q.2 = true)
      ∧ (∀ q, q ∈ l2 → Py.tuple_lt q.2 p.2 = false).
Proof.
  revert best. induction l as [|x l IH]; intros best; simpl.
  { left. split; [done|]. by intros q ?%elem_of_nil. }
  destruct (Py.tuple_lt x.2 best.2) eqn:Hlt.
  - right. destruct (IH x) as [[Hx Hmin]|(l1 & p & l2 & -> & Hmin & Hpx & Hl1 & Hl2)].
    + exists [], x, l. split_and!; try done. by intros q ?%elem_of_nil.
    + exists (x :: l1), p, l2. split_and!; try done.
      * by eapply tuple_lt_trans.
      * intros q [->|Hq]%elem_of_cons; [done|by apply Hl1].
  - destruct (IH best) as [[Hb Hmin]|(l1 & p & l2 & -> & Hmin & Hpb & Hl1 & Hl2)].
    + left. split; [done|]. intros q [->|Hq]%elem_of_cons; [done|by apply Hmin].
    + right. exists (x :: l1), p, l2. split_and!; try done.
      intros q [->|Hq]%elem_of_cons; [|by apply Hl1].
      destruct (Py.tuple_lt p.2 x.2) eqn:Hpx; [done|].
      destruct (Py.tuple_lt x.2 p.2) eqn:Hxp.
      * by rewrite (tuple_lt_trans _ _ _ Hxp Hpb) in Hlt.
      * rewrite <- (tuple_lt_total _ _ Hpx Hxp) in Hlt. congruence.
Qed.

Lemma min_from_least_first {A} (best : A * list Z) (l : list (A * list Z)) :
  ∃ l1 p l2, best :: l = l1 ++ p :: l2 ∧ Py.min_from best l = p.1
    ∧ (∀ q, q ∈ l1 → Py.tuple_lt p.2 q.2 = true)
    ∧ (∀ q, q ∈ best :: l → Py.tuple_lt q.2 p.2 = false).
Proof.
  destruct (min_from_least_first_gen best l)
    as [[Hb Hmin]|(l1 & p & l2 & -> & Hmin & Hpb & Hl1 & Hl2)].
  - exists [], best, l. split_and!; try done; [by intros q ?%elem_of_nil|].
    intros q [->|Hq]%elem_of_cons; [apply tuple_lt_irrefl|by apply Hmin].
  - exists (best :: l1), p, l2. split_and!; try done.
    + intros q [->|Hq]%elem_of_cons; [done|by apply Hl1].
    + intros q [->|[Hq|[->|Hq]%elem_of_cons]%elem_of_app]%elem_of_cons.
      * by apply tuple_lt_asym.
      * by apply tuple_lt_asym, Hl1.
      * apply tuple_lt_irrefl.
      * by apply Hl2.
Qed.

Lemma lowest_version_least_first rs log :
  rs ≠ [] →
  Forall (λ x, is_Some (version_key x)) rs →
  ∃ before x after kx,
    rs = before ++ x :: after
    ∧ version_key x = Some kx
    ∧ lowest_version rs log = (Ok x, log)
    ∧ (∀ y ky, y ∈ before → version_key y = Some ky → Py.tuple_lt kx ky = true)
    ∧ (∀ y ky, y ∈ rs → version_key y = Some ky → Py.tuple_lt ky kx = false).
Proof.
  intros Hne Hall. unfold lowest_version.
  destruct (mapM_version_keys rs Hall) as (keyed & -> & Hk).
  destruct keyed as [|k ks]; [by apply Forall2_nil_inv_r in Hk|].
  destruct (min_from_least_first k ks) as (l1 & p & l2 & Heq & Hmin & Hl1 & Hle).
  rewrite Heq in Hk. rewrite Heq in Hle.
  pose proof Hk as Hk'.
  apply Forall2_app_inv_r in Hk as (before & rest & Hb & Hr & ->).
  apply Forall2_cons_inv_r in Hr as (x & after & [<- Hkx] & Ha & ->).
  exists before, p.1, after, p.2. unfold ret. rewrite Hmin.
  split_and!; try done.
  - intros y ky Hy Hky. apply list_elem_of_lookup in Hy as [i Hi].
    destruct (Forall2_lookup_l _ _ _ _ _ Hb Hi) as (q & Hq & <- & Hkq).
    assert (q.2 = ky) as <- by congruence.
    apply Hl1. apply list_elem_of_lookup. eauto.
  - intros y ky Hy Hky. apply list_elem_of_lookup in Hy as [i Hi].
    destruct (Forall2_lookup_l _ _ _ _ _ Hk' Hi) as (q & Hq & <- & Hkq).
    assert (q.2 = ky) as <- by congruence.
    apply Hle. apply list_elem_of_lookup. eauto.
Qed.

(** The reply the unpinned version query keeps for the backend at [e]. *)
Lemma version_responses_omap env st :
  version_responses env st
  = omap (λ e : nat * string,
            if enabled (backend_config st e)
            then get_value env (e.2 +:+ "/api/version")
                   (cfg_key (backend_config st e))
            else None)
      (enumerate (DOCKER_MODEL_RUNNER_BASE_URLS st)).
Proof.
  unfold version_responses, planned_calls.
  induction (enumerate (DOCKER_MODEL_RUNNER_BASE_URLS st)) as [|e l IH]; [done|].
  rewrite fmap_cons. unfold planned_call at 1.
  destruct (enabled (backend_config st e)) eqn:He; csimpl; rewrite He, IH.
  - by destruct (get_value env _ _).
  - done.
Qed.

Lemma omap_split {A B} (f : A → option B) (l : list A) l1 x l2 :
  omap f l = l1 ++ x :: l2 →
  ∃ k1 a k2, l = k1 ++ a :: k2 ∧ f a = Some x ∧ omap f k1 = l1.
Proof.
  revert l1. induction l as [|a l IH]; intros l1 Heq; [by destruct l1|].
  csimpl in Heq. destruct (f a) as [b|] eqn:Hfa.
  - destruct l1 as [|b' l1]; simpl in Heq; injection Heq as -> Heq.
    + exists [], a, l. done.
    + destruct (IH _ Heq) as (k1 & a' & k2 & -> & Hfa' & Hk1).
      exists (a :: k1), a', k2. csimpl. by rewrite Hfa, Hk1.
  - destruct (IH _ Heq) as (k1 & a' & k2 & -> & Hfa' & Hk1).
    exists (a :: k1), a', k2. csimpl. by rewrite Hfa, Hk1.
Qed.

Lemma enumerate_split {A} (l : list A) k1 (e : nat * A) k2 :
  enumerate l = k1 ++ e :: k2 →
  l !! e.1 = Some e.2
  ∧ ∀ e' : nat * A, l !! e'.1 = Some e'.2 → (e'.1 < e.1)%nat → e' ∈ k1.
Proof.
  intros Heq.
  assert (enumerate l !! length k1 = Some e) as He.
  { rewrite Heq. by apply list_lookup_middle. }
  rewrite lookup_enumerate in He. apply fmap_Some in He as (a & Ha & ->).
  split; [done|]. simpl. intros [j b] Hj Hlt. simpl in *.
  assert (enumerate l !! j = Some (j, b)) as He' by (by rewrite lookup_enumerate, Hj).
  rewrite Heq, lookup_app_l in He' by done.
  by apply list_elem_of_lookup_2 in He'.
Qed.

Lemma lowest_version_by_backend env st log :
  let answers (e : nat * string) (x : Response) :=
    DOCKER_MODEL_RUNNER_BASE_URLS st !! e.1 = Some e.2
    ∧ enabled (backend_config st e) = true
    ∧ get_value env (e.2 +:+ "/api/version") (cfg_key (backend_config st e))
      = Some x in
  (∃ e x, answers e x) →
  (∀ e x, answers e x → is_Some (version_key x)) →
  ∃ e x kx,
    answers e x ∧ version_key x = Some kx
    ∧ lowest_version (version_responses env st) log = (Ok x, log)
    ∧ ∀ e' y ky, answers e' y → version_key y = Some ky →
        Py.tuple_lt ky kx = false
        ∧ ((e'.1 < e.1)%nat → Py.tuple_lt kx ky = true).
Proof.
  intros answers (e0 & x0 & H0) Hall.
  assert (∀ e x, answers e x ↔
            DOCKER_MODEL_RUNNER_BASE_URLS st !! e.1 = Some e.2
            ∧ (if enabled (backend_config st e)
               then get_value env (e.2 +:+ "/api/version")
                      (cfg_key (backend_config st e))
               else None) = Some x) as Hans.
  { intros e x. unfold answers. destruct (enabled (backend_config st e)).
    - split; [by intros (? & _ & ?)|by intros [? ?]].
    - split; [by intros (_ & ? & _)|by intros [_ ?]]. }
  assert (version_responses env st ≠ []) as Hne.
  { intros Hnil. assert (x0 ∈ version_responses env st) as Hin.
    { apply elem_of_version_responses. by exists e0. }
    rewrite Hnil in Hin. by apply elem_of_nil in Hin. }
  assert (Forall (λ x, is_Some (version_key x)) (version_responses env st)) as Hkeys.
  { apply Forall_forall. intros x (e & He)%elem_of_version_responses.
    by apply (Hall e). }
  destruct (lowest_version_least_first _ log Hne Hkeys)
    as (before & x & after & kx & Heq & Hkx & Hrun & Hstrict & Hleast).
  pose proof Heq as Heq'. rewrite version_responses_omap in Heq'.
  apply omap_split in Heq' as (k1 & e & k2 & Hen & Hfe & Hk1).
  apply enumerate_split in Hen as [Hu Hbefore].
  exists e, x, kx. split_and!; try done.
  { apply Hans. done. }
  intros e' y ky Hy Hky. split.
  - apply (Hleast y); [|done]. apply elem_of_version_responses. by exists e'.
  - intros Hlt. apply (Hstrict y); [|done]. rewrite <- Hk1.
    apply list_elem_of_omap. exists e'. apply Hans in Hy as [Hu' Hf'].
    split; [by apply Hbefore|done].
Qed.

(** C5, amended.  With the API switched on, when some enabled backend
    answers the version request and the version of every answer reads
    as dotted integers (after an optional [v], before an optional
    suffix behind a dash), the unpinned query returns the version
    string of an answer whose integers are least in the order of
    tuples: no answer reads as a tuple below it.  The integers are
    those written in the string, so [1.10.0] is above [1.2.5]. *)
Theorem get_versions_returns_lowest (env : Env) (st : AppState)
    (log : list event) :
  let answers (idx : nat) (url : string) (x : Response) :=
    DOCKER_MODEL_RUNNER_BASE_URLS st !! idx = Some url
    ∧ enabled (backend_config st (idx, url)) = true
    ∧ get_value env (url +:+ "/api/version")
        (cfg_key (backend_config st (idx, url))) = Some x in
  flag (ENABLE_DOCKER_MODEL_RUNNER_API st) = true →
  (∃ idx url x, answers idx url x) →
  (∀ idx url x, answers idx url x →
     ∃ s ns, version x = Some s ∧ reads_as s ns) →
  ∃ idx url x s ns,
    answers idx url x ∧ version x = Some s ∧ reads_as s ns
    ∧ get_versions env st None log
      = (Ok (VersionIs (Some s)), log ++ version_events st)
    ∧ ∀ idx' url' y t ms,
        answers idx' url' y → version y = Some t → reads_as t ms →
        Py.tuple_lt (Z.of_N <$> ms) (Z.of_N <$> ns) = false.
Proof.
  intros answers Hen (idx0 & url0 & x0 & H0) Hall.
  destruct (lowest_version_by_backend env st (log ++ version_events st))
    as ([idx url] & x & kx & Hx & Hkx & Hrun & Hleast).
  { by exists (idx0, url0), x0. }
  { intros [i u] y Hy. destruct (Hall i u y Hy) as (s & ns & Hs & Hr).
    rewrite (version_key_reads y s ns Hs Hr). eauto. }
  destruct (Hall idx url x Hx) as (s & ns & Hs & Hr).
  exists idx, url, x, s, ns. split_and!; try done.
  - rewrite get_versions_enabled, get_versions_unpinned_run by done.
    destruct (version_responses env st) as [|r rs] eqn:Hrs.
    + unfold lowest_version in Hrun. simpl in Hrun. done.
    + by rewrite Hrun, Hs.
  - intros idx' url' y t ms Hy Ht Hms.
    rewrite (version_key_reads x s ns Hs Hr) in Hkx. injection Hkx as <-.
    apply (Hleast (idx', url') y); [done|]. by apply (version_key_reads y t).
Qed.

Lemma get_versions_returns_lowest_witness :
  ∃ idx url x s ns,
    (DOCKER_MODEL_RUNNER_BASE_URLS versions_state !! idx = Some url
     ∧ enabled (backend_config versions_state (idx, url)) = true
     ∧ get_value shuffled_env (url +:+ "/api/version")
         (cfg_key (backend_config versions_state (idx, url))) = Some x)
    ∧ version x = Some s ∧ reads_as s ns
    ∧ get_versions shuffled_env versions_state None []
      = (Ok (VersionIs (Some s)), [] ++ version_events versions_state)
    ∧ ∀ idx' url' y t ms,
        (DOCKER_MODEL_RUNNER_BASE_URLS versions_state !! idx' = Some url'
         ∧ enabled (backend_config versions_state (idx', url')) = true
         ∧ get_value shuffled_env (url' +:+ "/api/version")
             (cfg_key (backend_config versions_state (idx', url'))) = Some y) →
        version y = Some t → reads_as t ms →
        Py.tuple_lt (Z.of_N <$> ms) (Z.of_N <$> ns) = false.
Proof.
  apply (get_versions_returns_lowest shuffled_env versions_state []).
  - reflexivity.
  - exists 0%nat, "http://a", (mkResponse None (Some "v1.10.0") None).
    split_and!; reflexivity.
  - intros idx url x (Hu & _ & Hx).
    destruct idx as [|[|[|idx]]]; simpl in Hu; simplify_eq; vm_compute in Hx;
      simplify_eq.
    + exists "v1.10.0", [1; 10; 0]%N. split; [done|]. split; [done|].
      exists "v", "". split; [reflexivity|]. split; [by right|by left].
    + exists "1.2.5", [1; 2; 5]%N. split; [done|]. split; [done|].
      exists "", "". split; [reflexivity|]. split; by left.
    + exists "v1.2.0-rc1", [1; 2; 0]%N. split; [done|]. split; [done|].
      exists "v", "-rc1". split; [reflexivity|]. split; [by right|].
      right. exists "rc1". split; reflexivity.
Defined.

(** The backends report [v1.10.0], [1.2.5] and [v1.2.0-rc1]: the
    lowest is the last one, where the order of strings would give the
    second and the first answer is the highest. *)
Example lowest_of_shuffled_versions :
  get_versions shuffled_env versions_state None []
  = (Ok (VersionIs (Some "v1.2.0-rc1")),
     [EvGet "http://a/api/version" None; EvGet "http://b/api/version" None;
      EvGet "http://c/api/version" None]).
Proof. vm_compute. reflexivity. Qed.

(** C5, as stated, fails.  The three backends of the claim's own
    example are enabled and answer with their versions, but the API is
    switched off: the query asks nobody and answers
    [{"version": False}], not [v1.2.0]. *)
Lemma get_versions_switched_off_ignores_versions :
  (∀ idx url,
     DOCKER_MODEL_RUNNER_BASE_URLS switched_off_state !! idx = Some url →
     enabled (backend_config switched_off_state (idx, url)) = true)
  ∧ get_value versions_env "http://a/api/version" None
    = Some (mkResponse None (Some "v1.2.0") None)
  ∧ get_value versions_env "http://b/api/version" None
    = Some (mkResponse None (Some "v1.10.0") None)
  ∧ get_value versions_env "http://c/api/version" None
    = Some (mkResponse None (Some "v1.2.5") None)
  ∧ get_versions versions_env switched_off_state None [] = (Ok VersionFalse, []).
Proof. split_and!; [by intros idx url _|reflexivity..]. Qed.

(** X5.  Among answers whose versions read as dotted integers, the
    unpinned query returns the version of the first answer, in the
    order of the registry, whose integers are least: no answer reads as
    a tuple below it, and every answer of a backend before it reads as
    a tuple strictly above.  So of two backends with equal tuples the
    one earlier in the registry is reported. *)
Theorem get_versions_ties_go_to_first (env : Env) (st : AppState)
    (log : list event) :
  let answers (idx : nat) (url : string) (x : Response) :=
    DOCKER_MODEL_RUNNER_BASE_URLS st !! idx = Some url
    ∧ enabled (backend_config st (idx, url)) = true
    ∧ get_value env (url +:+ "/api/version")
        (cfg_key (backend_config st (idx, url))) = Some x in
  flag (ENABLE_DOCKER_MODEL_RUNNER_API st) = true →
  (∃ idx url x, answers idx url x) →
  (∀ idx url x, answers idx url x →
     ∃ s ns, version x = Some s ∧ reads_as s ns) →
  ∃ idx url x s ns,
    answers idx url x ∧ version x = Some s ∧ reads_as s ns
    ∧ get_versions env st None log
      = (Ok (VersionIs (Some s)), log ++ version_events st)
    ∧ ∀ idx' url' y t ms,
        answers idx' url' y → version y = Some t → reads_as t ms →
        Py.tuple_lt (Z.of_N <$> ms) (Z.of_N <$> ns) = false
        ∧ ((idx' < idx)%nat →
           Py.tuple_lt (Z.of_N <$> ns) (Z.of_N <$> ms) = true).
Proof.
  intros answers Hen (idx0 & url0 & x0 & H0) Hall.
  destruct (lowest_version_by_backend env st (log ++ version_events st))
    as ([idx url] & x & kx & Hx & Hkx & Hrun & Hleast).
  { by exists (idx0, url0), x0. }
  { intros [i u] y Hy. destruct (Hall i u y Hy) as (s & ns & Hs & Hr).
    rewrite (version_key_reads y s ns Hs Hr). eauto. }
  destruct (Hall idx url x Hx) as (s & ns & Hs & Hr).
  exists idx, url, x, s, ns. split_and!; try done.
  - rewrite get_versions_enabled, get_versions_unpinned_run by done.
    destruct (version_responses env st) as [|r rs] eqn:Hrs.
    + unfold lowest_version in Hrun. simpl in Hrun. done.
    + by rewrite Hrun, Hs.
  - intros idx' url' y t ms Hy Ht Hms.
    rewrite (version_key_reads x s ns Hs Hr) in Hkx. injection Hkx as <-.
    apply (Hleast (idx', url') y); [done|]. by apply (version_key_reads y t).
Qed.

Lemma get_versions_ties_go_to_first_witness :
  ∃ idx url x s ns,
    (DOCKER_MODEL_RUNNER_BASE_URLS tied_state !! idx = Some url
     ∧ enabled (backend_config tied_state (idx, url)) = true
     ∧ get_value tied_env (url +:+ "/api/version")
         (cfg_key (backend_config tied_state (idx, url))) = Some x)
    ∧ version x = Some s ∧ reads_as s ns
    ∧ get_versions tied_env tied_state None []
      = (Ok (VersionIs (Some s)), [] ++ version_events tied_state)
    ∧ ∀ idx' url' y t ms,
        (DOCKER_MODEL_RUNNER_BASE_URLS tied_state !! idx' = Some url'
         ∧ enabled (backend_config tied_state (idx', url')) = true
         ∧ get_value tied_env (url' +:+ "/api/version")
             (cfg_key (backend_config tied_state (idx', url'))) = Some y) →
        version y = Some t → reads_as t ms →
        Py.tuple_lt (Z.of_N <$> ms) (Z.of_N <$> ns) = false
        ∧ ((idx' < idx)%nat →
           Py.tuple_lt (Z.of_N <$> ns) (Z.of_N <$> ms) = true).
Proof.
  apply (get_versions_ties_go_to_first tied_env tied_state []).
  - reflexivity.
  - exists 0%nat, "http://a", (mkResponse None (Some "1.2.0-rc1") None).
    split_and!; reflexivity.
  - intros idx url x (Hu & _ & Hx).
    destruct idx as [|[|idx]]; simpl in Hu; simplify_eq; vm_compute in Hx;
      simplify_eq.
    + exists "1.2.0-rc1", [1; 2; 0]%N. split; [done|]. split; [done|].
      exists "", "-rc1". split; [reflexivity|]. split; [by left|].
      right. exists "rc1". split; reflexivity.
    + exists "v1.2.0", [1; 2; 0]%N. split; [done|]. split; [done|].
      exists "v", "". split; [reflexivity|]. split; [by right|by left].
Defined.

(** * Unknown models, the refresh and the lookup name *)

Lemma prepare_payload_unregistered env form_data user bypass_filter form :
  validate_form form_data = Ok form →
  env_get_model_by_id env (gc_model form) = None →
  BYPASS_MODEL_ACCESS_CONTROL env || bypass_filter = true
  ∨ user_role user = "admin" →
  prepare_payload env form_data user bypass_filter
  = Ok (form,
        if Py.contains ":" (gc_model form) then model_dump form
        else set_payload_model (gc_model form +:+ ":latest") (model_dump form)).
Proof.
  intros Hv Hinfo Hpass. unfold prepare_payload. rewrite Hv. simpl.
  rewrite Hinfo.
  assert ((if negb (BYPASS_MODEL_ACCESS_CONTROL env || bypass_filter)
           then if negb (bool_decide (user_role user = "admin"))
                then Raise (HTTPException 403 "Model not found")
                else Ok (model_dump form)
           else Ok (model_dump form)) = Ok (model_dump form)) as ->.
  { destruct Hpass as [->|Hadmin]; [done|].
    rewrite (bool_decide_eq_true_2 _ Hadmin). by destruct (negb _). }
  simpl. by destruct (Py.contains ":" (gc_model form)).
Qed.

(** C6, amended.  [get_runner_url] without a pinned index answers a
    name that the index does not hold with status 400 and a detail that
    contains the name, and leaves the log as it was.  A chat request
    that gets past validation and the access check is looked up under
    the requested name, or the base model of a registered alias, with
    [":latest"] added when it has no colon; when the index does not
    hold that name the request ends with this error, and whatever
    stops the request, nothing has been forwarded.  For a model the
    store does not know, the detail contains the requested name. *)
Theorem unknown_model_is_not_found (env : Env) (st : AppState) :
  (* the lookup of [get_runner_url] *)
  (∀ name log,
     DOCKER_MODEL_RUNNER_MODELS st !! name = None →
     get_runner_url env st name None log
     = (Raise (HTTPException 400 (MODEL_NOT_FOUND name)), log)
     ∧ Py.contains name (MODEL_NOT_FOUND name) = true)
  (* a chat request whose model is looked up under a name that is not
     in the index *)
  ∧ (∀ form_data user bypass_filter log form payload,
       prepare_payload env form_data user bypass_filter = Ok (form, payload) →
       DOCKER_MODEL_RUNNER_MODELS st !! payload_model payload = None →
       generate_chat_completion env st form_data None user bypass_filter log
       = (Raise (HTTPException 400 (MODEL_NOT_FOUND (payload_model payload))),
          log))
  (* no request is forwarded, whatever stops the request *)
  ∧ (∀ form_data user bypass_filter log,
       (∀ form payload,
          prepare_payload env form_data user bypass_filter = Ok (form, payload) →
          DOCKER_MODEL_RUNNER_MODELS st !! payload_model payload = None) →
       ∃ e, generate_chat_completion env st form_data None user bypass_filter log
            = (Raise e, log))
  (* a model the store does not know, asked for by an admin or under
     the bypass: the name looked up is the requested one, with
     [":latest"] when it has no colon, and the detail names the
     requested model *)
  ∧ (∀ form_data user bypass_filter log form,
       validate_form form_data = Ok form →
       env_get_model_by_id env (gc_model form) = None →
       BYPASS_MODEL_ACCESS_CONTROL env || bypass_filter = true
       ∨ user_role user = "admin" →
       let name := if Py.contains ":" (gc_model form) then gc_model form
                   else gc_model form +:+ ":latest" in
       DOCKER_MODEL_RUNNER_MODELS st !! name = None →
       generate_chat_completion env st form_data None user bypass_filter log
       = (Raise (HTTPException 400 (MODEL_NOT_FOUND name)), log)
       ∧ Py.contains (gc_model form) (MODEL_NOT_FOUND name) = true).
Proof.
  split_and!.
  - intros name log Hn. split; [by apply get_runner_url_not_found|].
    apply MODEL_NOT_FOUND_names.
  - intros form_data user bypass log form payload Hp Hn.
    rewrite generate_chat_completion_split, Hp. unfold bind.
    by rewrite get_runner_url_not_found.
  - intros form_data user bypass log Hn.
    rewrite generate_chat_completion_split.
    destruct (prepare_payload env form_data user bypass) as [[form payload]|e] eqn:Hp.
    + unfold bind. rewrite get_runner_url_not_found by eauto. eauto.
    + eauto.
  - intros form_data user bypass log form Hv Hinfo Hpass name Hn.
    rewrite generate_chat_completion_split.
    rewrite (prepare_payload_unregistered _ _ _ _ _ Hv Hinfo Hpass).
    unfold bind. unfold name in *.
    destruct (Py.contains ":" (gc_model form)).
    + rewrite get_runner_url_not_found by done. split; [done|].
      apply MODEL_NOT_FOUND_names.
    + simpl. rewrite get_runner_url_not_found by done. split; [done|].
      apply MODEL_NOT_FOUND_names_untagged.
Qed.

(** C6, as stated, fails.  The index of the refreshed registry holds
    [llama3:latest] and no [llama3], yet the request for [llama3] is
    forwarded to a backend; and it holds no [gpt], yet the request of a
    caller of role "user" for [gpt] is answered 403, not 400. *)
Lemma absent_name_is_forwarded_or_forbidden :
  DOCKER_MODEL_RUNNER_MODELS mixed_refreshed !! "llama3" = None
  ∧ (∃ r log',
       generate_chat_completion (mixed_env 0) mixed_refreshed
         (chat_request "llama3") None admin false [] = (r, log')
       ∧ forwarded log'
         = [EvPost "http://a/api/chat"
              (mkPayload "llama3:latest"
                 [mkChatMessage "user" (Some "hi") None None] (Some true) [])
              None])
  ∧ DOCKER_MODEL_RUNNER_MODELS mixed_refreshed !! "gpt" = None
  ∧ generate_chat_completion (mixed_env 0) mixed_refreshed
      (chat_request "gpt") None (mkUser "8" "user") false []
    = (Raise (HTTPException 403 "Model not found"), []).
Proof.
  split_and!; try (vm_compute; reflexivity).
  eexists _, _. split; vm_compute; reflexivity.
Qed.

(** C7, amended.  With the API switched on, a catalog refresh returns
    a catalog whatever the backends do.  It asks every enabled backend,
    and no other, for its tags and then for its loaded models; the
    gathered results keep one slot per backend, [None] for a disabled
    one; the models of every enabled backend that answered are in the
    catalog under their transformed names, whatever the other backends
    did; and every index in a record's [urls] is that of an enabled
    backend whose fetch returned a response. *)
Theorem get_all_models_skips_disabled_and_unreachable (env : Env)
    (st : AppState) (log : list event) :
  let urls_ := DOCKER_MODEL_RUNNER_BASE_URLS st in
  let key (e : nat * string) := cfg_key (backend_config st e) in
  let on (e : nat * string) := enabled (backend_config st e) in
  let asked := filter (λ e, on e = true) (enumerate urls_) in
  flag (ENABLE_DOCKER_MODEL_RUNNER_API st) = true →
  ∃ catalog st',
    (* the refresh returns a catalog, no error reaches the caller, and
       the requests are those to the enabled backends *)
    get_all_models env st log
    = (Ok (catalog, st'),
       log
       ++ ((λ e : nat * string, EvGet (e.2 +:+ "/api/tags") (key e))
             <$> asked)
       ++ ((λ e : nat * string, EvGet (e.2 +:+ "/api/ps") (key e))
             <$> asked))
    ∧ (∀ e, e ∈ asked ↔ urls_ !! e.1 = Some e.2 ∧ on e = true)
    (* the gathered results, [fetched], keep one slot per backend,
       [None] for a backend that is disabled *)
    ∧ (∀ log0, ∃ log1,
         gather (request_tasks env st "/api/tags") log0
         = (Ok (fetched env st "/api/tags"), log1))
    ∧ length (fetched env st "/api/tags") = length urls_
    ∧ (∀ idx url, urls_ !! idx = Some url → on (idx, url) = false →
         fetched env st "/api/tags" !! idx = Some None)
    (* the models of every enabled backend that answered are in the
       catalog *)
    ∧ (∀ idx url response l m id,
         urls_ !! idx = Some url → on (idx, url) = true →
         get_value env (url +:+ "/api/tags") (key (idx, url)) = Some response →
         models (transform_response (backend_config st (idx, url)) response)
         = Some l →
         m ∈ l → model m = Some id →
         ∃ r, r ∈ catalog ∧ model r = Some id ∧ idx ∈ urls r)
    (* a backend listed by a record is enabled and answered *)
    ∧ (∀ r idx, r ∈ catalog → idx ∈ urls r →
         ∃ url response, urls_ !! idx = Some url ∧ on (idx, url) = true
           ∧ get_value env (url +:+ "/api/tags") (key (idx, url)) = Some response).
Proof.
  intros urls_ key on asked Hen.
  exists (catalog_of env st), (set_MODELS (models_index (catalog_of env st)) st).
  split_and!.
  - rewrite get_all_models_run. unfold refresh_events.
    by rewrite Hen, !call_events_filter.
  - intros e. unfold asked. rewrite list_elem_of_filter, elem_of_enumerate.
    tauto.
  - intros log0. eexists. apply gather_request_tasks.
  - apply length_fetched.
  - intros idx url Hu Hoff. rewrite lookup_fetched. fold urls_. rewrite Hu. simpl.
    fold (on (idx, url)). by rewrite Hoff.
  - intros idx url response l m id Hu Hon Hg Hl Hm Hid.
    unfold catalog_of. rewrite Hen.
    assert (response_truthy response = true) as Ht.
    { rewrite <- (transform_response_truthy (backend_config st (idx, url))).
      unfold response_truthy. by rewrite Hl. }
    assert (tags_lists env st !! idx = Some (Some l)) as Hslot.
    { apply lookup_tags_lists. exists url, response. split_and!; try done.
      by rewrite Hl. }
    destruct (merge_models_lists_covers _ _ _ _ _ Hslot Hm Hid) as (r0 & Hr0 & Hn & Hi).
    destruct (elem_of_annotate_expiry_2 env (expires_map (loaded_of env st)) _ _ Hr0)
      as (r & Hr & Hmr & Hur).
    exists r. split_and!; [done|congruence|by rewrite Hur].
  - intros r idx Hr Hidx. unfold catalog_of in Hr. rewrite Hen in Hr.
    apply elem_of_annotate_expiry in Hr as (r0 & Hr0 & Hmr & Hur).
    rewrite Hur in Hidx.
    destruct (merge_models_lists_urls _ _ _ Hr0 Hidx) as (l & m & Hl & _ & _).
    apply lookup_tags_lists in Hl as (url & response & ? & ? & ? & _).
    by exists url, response.
Qed.

Lemma get_all_models_skips_disabled_and_unreachable_witness :
  ∃ catalog st',
    get_all_models (mixed_env 0) mixed_state []
    = (Ok (catalog, st'),
       [EvGet "http://a/api/tags" None; EvGet "http://c/api/tags" None;
        EvGet "http://d/api/tags" None; EvGet "http://a/api/ps" None;
        EvGet "http://c/api/ps" None; EvGet "http://d/api/ps" None])
    ∧ ∃ r, r ∈ catalog ∧ model r = Some "llama3:latest" ∧ 3%nat ∈ urls r.
Proof.
  destruct (get_all_models_skips_disabled_and_unreachable (mixed_env 0)
              mixed_state [])
    as (catalog & st' & Hrun & _ & _ & _ & _ & Hcov & _); [reflexivity|].
  exists catalog, st'. split; [exact Hrun|].
  apply (Hcov 3%nat "http://d"
           (mkResponse (Some [set_tags ["d"] (runner_model "llama3:latest")])
              None None)
           [set_connection_type "docker"
              (set_tags ["d"] (runner_model "llama3:latest"))]
           (set_connection_type "docker"
              (set_tags ["d"] (runner_model "llama3:latest")))
           "llama3:latest"); try reflexivity.
  left.
Defined.

(** C7, as stated, fails.  Backend 0 of the registry is enabled and
    answers with two models, but the API is switched off: the refresh
    asks nobody and the catalog is empty. *)
Lemma refresh_switched_off_returns_nothing :
  enabled (backend_config mixed_off_state (0%nat, "http://a")) = true
  ∧ get_value (mixed_env 0) "http://a/api/tags" None
    = Some (mkResponse
              (Some [runner_model "phi:latest"; runner_model "llama3:latest"])
              None None)
  ∧ get_all_models (mixed_env 0) mixed_off_state []
    = (Ok ([], set_MODELS ∅ mixed_off_state), []).
Proof. split_and!; reflexivity. Qed.

Lemma prepare_payload_tagged env form_data user bypass_filter form payload :
  prepare_payload env form_data user bypass_filter = Ok (form, payload) →
  Py.contains ":" (payload_model payload) = true.
Proof.
  unfold prepare_payload.
  destruct (validate_form form_data) as [f|e]; [|done].
  match goal with
  | |- match ?c with _ => _ end = _ → _ => destruct c as [p|e]; [|done]
  end.
  intros [= <- <-].
  destruct (Py.contains ":" (payload_model p)) eqn:Hc; simpl; [done|].
  apply contains_app_r. reflexivity.
Qed.

Lemma random_choice_Some {A} env (l : list A) x :
  random_choice env l = Some x → x ∈ l.
Proof. unfold random_choice. apply list_elem_of_lookup_2. Qed.

(** X13.  An unpinned chat request is resolved under a name that holds
    a colon.  Either it fails before anything is sent, leaving the log
    as it was, or the index holds a record under a name with a colon
    and the one POST goes to the chat endpoint of a backend listed in
    that record's [urls].  So a record whose name has no colon is never
    reached without a pinned index. *)
Theorem unpinned_chat_resolves_tagged_name (env : Env) (st : AppState)
    (form_data : RawForm) (user : UserModel) (bypass_filter : bool)
    (log : list event) :
  ∃ r log',
    generate_chat_completion env st form_data None user bypass_filter log
    = (r, log')
    ∧ ((∃ e, r = Raise e ∧ log' = log)
       ∨ ∃ name record idx url payload key,
           Py.contains ":" name = true
           ∧ DOCKER_MODEL_RUNNER_MODELS st !! name = Some record
           ∧ idx ∈ urls record
           ∧ DOCKER_MODEL_RUNNER_BASE_URLS st !! idx = Some url
           ∧ forwarded log'
             = forwarded log ++ [EvPost (url +:+ "/api/chat") payload key]).
Proof.
  rewrite generate_chat_completion_split.
  destruct (prepare_payload env form_data user bypass_filter) as [[form p]|e] eqn:Hp;
    [|eauto 10].
  pose proof (prepare_payload_tagged _ _ _ _ _ _ Hp) as Htag.
  unfold bind, get_runner_url, bind, ret, raise.
  destruct (DOCKER_MODEL_RUNNER_MODELS st !! payload_model p) as [record|] eqn:Hrec;
    [|eauto 10].
  destruct (random_choice env (urls record)) as [idx|] eqn:Hidx; [|eauto 10].
  apply random_choice_Some in Hidx.
  rewrite py_index_nat.
  destruct (DOCKER_MODEL_RUNNER_BASE_URLS st !! idx) as [url|] eqn:Hurl;
    [|eauto 10].
  unfold forward_chat. simpl.
  match goal with
  | |- context [send_post_request ?e ?u ?q ?s ?k ?c ?l] =>
      destruct (send_post_request_forwards e u q s k c l) as (r' & log' & -> & Hf)
  end.
  exists r', log'. split; [done|]. right.
  eexists (payload_model p), record, idx, url, _, _. done.
Qed.

(** The request for [teamA.llama3] is resolved under
    [teamA.llama3:latest] and sent to the one backend, as
    [llama3:latest]. *)
Example unpinned_chat_of_teamA :
  forwarded
    (generate_chat_completion (teamA_env "llama3:latest" (PostFails "down") 0)
       (teamA_refreshed "llama3:latest") (chat_request "teamA.llama3") None
       admin false []).2
  = [EvPost "http://runner:12434/api/chat"
       (mkPayload "llama3:latest" [mkChatMessage "user" (Some "hi") None None]
          (Some true) [])
       None].
Proof. vm_compute. reflexivity. Qed.

(** * Pinned model lists and the connection check *)

(** X24.  [get_filtered_models] keeps, in the order of the listing,
    exactly the entries whose name the model store has registered and
    which the caller owns or may read.  An entry of a model the store
    does not know is dropped, whoever asks. *)
Theorem get_filtered_models_keeps_readable (env : Env) (listing : Response)
    (user : UserModel) :
  get_filtered_models env listing user `sublist_of` default [] (models listing)
  ∧ ∀ m,
      m ∈ get_filtered_models env listing user
      ↔ m ∈ default [] (models listing)
        ∧ ∃ name info,
            model m = Some name
            ∧ env_get_model_by_id env name = Some info
            ∧ (user_id user = info_user_id info
               ∨ env_has_access env (user_id user) (access_control info) = true).
Proof.
  unfold get_filtered_models. split; [apply sublist_filter|].
  intros m. by rewrite list_elem_of_filter, may_read_spec, (comm and).
Qed.

(** The owner of the registered model sees it and nothing else; another
    caller sees nothing. *)
Example filtered_models_of_two :
  get_filtered_models pinned_env
    (mkResponse (Some [runner_model "phi:latest"; runner_model "llama3:latest"])
       None None)
    (mkUser "7" "user")
  = [runner_model "llama3:latest"]
  ∧ get_filtered_models pinned_env
      (mkResponse (Some [runner_model "phi:latest"; runner_model "llama3:latest"])
         None None)
      (mkUser "8" "user")
    = [].
Proof. split; reflexivity. Qed.

(** X25.  A model list pinned to a backend sends it one request, with
    the key configured for it, whether or not the API is switched on.
    When the reply is ok and parses, a caller whose role is not "user",
    or any caller under the bypass, gets the body as it is; a caller of
    role "user" gets the body with its models filtered, and an error
    that is no [HTTPException] when the body is no object.  A reply
    with an error status is answered with status 500, whatever status
    the backend gave, as is a failed connection; an ok reply that does
    not parse is answered as an error with the reply's own status; an
    index outside the registry fails before anything is sent. *)
Theorem get_tags_pinned_outcome (env : Env) (st : AppState) (idx : Z)
    (user : UserModel) (log : list event) :
  match Py.index (DOCKER_MODEL_RUNNER_BASE_URLS st) idx with
  | None =>
      get_tags_pinned env st idx user log = (Raise (Exception "IndexError"), log)
  | Some url =>
      let key := get_api_key env idx url (DOCKER_MODEL_RUNNER_API_CONFIGS st) in
      ∃ r,
        get_tags_pinned env st idx user log
        = (r, log ++ [EvRequestsGet (url +:+ "/api/tags") key])
        ∧ match env_requests_get env (url +:+ "/api/tags") key with
          | PostFails _ =>
              r = Raise (HTTPException 500 "Open WebUI: Server Connection Error")
          | PostReply rep =>
              if ok rep then
                match parsed rep with
                | Some body =>
                    if bool_decide (user_role user = "user")
                       && negb (BYPASS_MODEL_ACCESS_CONTROL env)
                    then
                      match body with
                      | JObject listing =>
                          r = Ok (JObject
                                    (set_models
                                       (get_filtered_models env listing user)
                                       listing))
                      | JScalar => ∃ msg, r = Raise (Exception msg)
                      end
                    else r = Ok body
                | None => ∃ detail, r = Raise (HTTPException (status rep) detail)
                end
              else ∃ detail, r = Raise (HTTPException 500 detail)
          end
  end.
Proof.
  unfold get_tags_pinned, get_tags_request. unfold bind at 1.
  destruct (Py.index (DOCKER_MODEL_RUNNER_BASE_URLS st) idx) as [url|]; [|done].
  simpl. unfold try_except, bind, emit, raise, ret, json_of, requests_failure.
  destruct (env_requests_get env (url +:+ "/api/tags") _) as [msg|rep]; [eauto|].
  destruct (ok rep) eqn:Hok.
  - unfold raise, ret. destruct (parsed rep) as [body|]; [|eauto].
    destruct (bool_decide (user_role user = "user")
              && negb (BYPASS_MODEL_ACCESS_CONTROL env)); [|eauto].
    destruct body; eauto.
  - unfold raise. eauto.
Qed.

(** The reply of the backend as an admin and as two users get it. *)
Example pinned_tags_by_caller :
  (get_tags_pinned pinned_env curated_state 0 admin []).1
  = Ok (JObject (mkResponse
          (Some [runner_model "phi:latest"; runner_model "llama3:latest"])
          None None))
  ∧ (get_tags_pinned pinned_env curated_state 0 (mkUser "7" "user") []).1
    = Ok (JObject (mkResponse (Some [runner_model "llama3:latest"]) None None))
  ∧ (get_tags_pinned pinned_env curated_state 0 (mkUser "8" "user") []).1
    = Ok (JObject (mkResponse (Some []) None None))
  ∧ (get_tags_pinned pinned_env curated_state 0 admin []).2
    = [EvRequestsGet "http://a/api/tags" (Some "secret")].
Proof. split_and!; reflexivity. Qed.

(** The backend of the curated registry answers 401 to the pinned
    query, which is passed on as 500. *)
Example pinned_tags_of_curated_registry :
  get_tags_pinned curated_store_env curated_state 0 admin []
  = (Raise (HTTPException 500 "Open WebUI: Server Connection Error"),
     [EvRequestsGet "http://a/api/tags" (Some "secret")]).
Proof. reflexivity. Qed.

(** X26.  The connection check sends one GET, to the version endpoint
    of the URL with the key, and nothing else; it closes what it opened
    on every path: the reply, when there is one, and then the session.
    It answers with the body iff the status is 200 and the body parses;
    every failure is reported with status 500, whatever the status of
    the backend. *)
Theorem verify_connection_outcome (outcome : verify_outcome) (url : string)
    (key : option string) (log : list event) :
  ∃ r log',
    verify_connection outcome url key log = (r, log')
    ∧ log' = log ++ [EvGet (url +:+ "/api/version") key]
                 ++ (if outcome is VerifyReply _ _ then [EvCloseResponse] else [])
                 ++ [EvCloseSession]
    ∧ session_releases log' = (session_releases log + 1)%nat
    ∧ response_releases log'
      = (response_releases log
         + if outcome is VerifyReply _ _ then 1 else 0)%nat
    ∧ forwarded log' = forwarded log
    ∧ (∀ data, r = Ok data ↔ outcome = VerifyReply 200 (Parsed data))
    ∧ (∀ e, r = Raise e → ∃ detail, e = HTTPException 500 detail).
Proof.
  assert (∀ (r : result json) (closes : list event),
    closes = (if outcome is VerifyReply _ _ then [EvCloseResponse] else []) →
    (∀ data, r = Ok data ↔ outcome = VerifyReply 200 (Parsed data)) →
    (∀ e, r = Raise e → ∃ detail, e = HTTPException 500 detail) →
    ∃ r' log',
      (r, log ++ [EvGet (url +:+ "/api/version") key] ++ closes ++ [EvCloseSession])
      = (r', log')
      ∧ log' = log ++ [EvGet (url +:+ "/api/version") key]
                   ++ (if outcome is VerifyReply _ _ then [EvCloseResponse] else [])
                   ++ [EvCloseSession]
      ∧ session_releases log' = (session_releases log + 1)%nat
      ∧ response_releases log'
        = (response_releases log
           + if outcome is VerifyReply _ _ then 1 else 0)%nat
      ∧ forwarded log' = forwarded log
      ∧ (∀ data, r' = Ok data ↔ outcome = VerifyReply 200 (Parsed data))
      ∧ (∀ e, r' = Raise e → ∃ detail, e = HTTPException 500 detail)) as Hgen.
  { intros r closes -> H1 H2. eexists _, _. split; [reflexivity|].
    split; [done|].
    match goal with
    | |- context [log ++ ?l] => destruct (releases_app log l) as [-> ->]
    end.
    unfold forwarded. rewrite filter_app.
    destruct outcome; simpl; rewrite app_nil_r;
      (split_and!;
       first [ done | unfold session_releases, response_releases; simpl; lia ]). }
  unfold verify_connection, try_finally, bind, emit, raise, ret.
  destruct outcome as [|msg|status body]; simpl.
  - rewrite <- ?app_assoc. apply (Hgen _ []); [done|done|].
    intros ? [= <-]; eauto.
  - rewrite <- ?app_assoc. apply (Hgen _ []); [done|done|].
    intros ? [= <-]; eauto.
  - unfold verify_body. case_bool_decide as Hs.
    + destruct body as [[res|]| |]; simpl; try destruct (error res); simpl;
        rewrite <- ?app_assoc; apply (Hgen _ [EvCloseResponse]);
        try done; try (intros ? [= <-]; eauto);
        (intros data; split; [done|intros [= -> _]; done]).
    + subst status.
      destruct body as [data| |]; simpl;
        rewrite <- ?app_assoc; apply (Hgen _ [EvCloseResponse]);
        try done; try (intros ? [= <-]; eauto);
        intros d; split; try done; try (intros [= ->]; done).
Qed.
